(** * rkt common/cgroup: cgroup hierarchy discovery, isolator translation
      and the mount lockdown sequence

    A shallow embedding of [common/cgroup/cgroup.go].  Go strings are
    [string] (byte strings), [int]/[int64] are [Z] (the package is built for
    64-bit Linux, where [int] is 64 bits wide), [map[int][]string] is
    [gmap Z (list string)], slices are lists.  A function returning
    [(T, error)] returns a [result T]; the third outcome, [Panic], is a Go
    run-time panic. *)

From Stdlib Require Import ZArith String Ascii DecimalString.
From stdpp Require Import base option list gmap strings.

Local Open Scope string_scope.
Local Open Scope list_scope.
Local Open Scope Z_scope.

(** ** Package [k8s.io/kubernetes/pkg/api/resource] *)
Module resource.

(** A [Quantity] is a decimal amount kept at milli precision (parsing rounds
    a finer amount up to the next thousandth); it is modelled by its number
    of thousandths, an unbounded integer. *)
Record Quantity : Type := { milli : Z }.

(** The low 64 bits of an integer, read as an [int64]. *)
Definition wrap64 (z : Z) : Z := (z + 2 ^ 63) mod 2 ^ 64 - 2 ^ 63.

(** Division rounding away from zero, the library's [RoundUp]. *)
Definition roundUp (n d : Z) : Z := Z.sgn n * ((Z.abs n + d - 1) / d).

(** [q.Value()]: the amount in whole units, a fractional part rounded up. *)
Definition Value (q : Quantity) : Z := wrap64 (roundUp (milli q) 1000).

(** [q.MilliValue()]: the amount times 1000; it overflows [int64] silently. *)
Definition MilliValue (q : Quantity) : Z := wrap64 (milli q).

(** [resource.MaxMilliValue]: the largest [Value()] whose [MilliValue()]
    still fits an [int64]. *)
Definition MaxMilliValue : Z := (2 ^ 63 - 1) / 1000.

End resource.

(** ** Go values shared by the whole package *)

(** Operands of a formatted message, kept unformatted. *)
Inductive operand : Type :=
| Str (s : string)
| Qty (q : resource.Quantity).

(** [error] values.  [Errorf fmt args] stands for [fmt.Errorf(fmt, args...)]
    and [errors.New(fmt)], kept as the format and its operands;
    [Wrap outer inner] for [errwrap.Wrap(outer, inner)]; [Errno e] for a
    [syscall.Errno] (also the cause carried by an [*os.PathError]);
    [ReadError] for what a [bufio.Scanner] reports through [Err()]. *)
Inductive error : Type :=
| Errno (e : Z)
| Errorf (format : string) (args : list operand)
| Wrap (outer inner : error)
| ReadError (what : string).

Inductive result (A : Type) : Type :=
| Ok (a : A)
| Err (e : error)
| Panic.
Arguments Ok {A} a.
Arguments Err {A} e.
Arguments Panic {A}.

Definition ENOENT : Z := 2.
Definition EBUSY : Z := 16.

(** The double quote and the tabulation characters. *)
Definition dquote : string := String (ascii_of_nat 34) EmptyString.
Definition tab : string := String (ascii_of_nat 9) EmptyString.

(** ** Package [strings] *)
Module strings.

(** [strings.Index(s, sep)] for a one-byte separator, as the two sides of the
    first occurrence. *)
Fixpoint Cut (s : string) (sep : ascii) : option (string * string) :=
  match s with
  | EmptyString => None
  | String c s' =>
      if Ascii.eqb c sep then Some (EmptyString, s')
      else match Cut s' sep with
           | Some (before, after) => Some (String c before, after)
           | None => None
           end
  end.

(** [strings.Split(s, sep)] for a one-byte separator: all the fields, and
    [[""]] for the empty string. *)
Fixpoint Split (s : string) (sep : ascii) : list string :=
  match s with
  | EmptyString => [EmptyString]
  | String c s' =>
      if Ascii.eqb c sep then EmptyString :: Split s' sep
      else match Split s' sep with
           | w :: ws => String c w :: ws
           | [] => [String c EmptyString]
           end
  end.

(** [strings.SplitN(s, sep, n)] for a one-byte separator and [n >= 0]: at
    most [n] fields, the last one being the unsplit remainder. *)
Fixpoint SplitN (s : string) (sep : ascii) (n : nat) : list string :=
  match n with
  | O => []
  | S O => [s]
  | S n' =>
      match Cut s sep with
      | Some (before, after) => before :: SplitN after sep n'
      | None => [s]
      end
  end.

(** [strings.Join(elems, sep)]. *)
Definition Join (elems : list string) (sep : string) : string :=
  String.concat sep elems.

(** [strings.HasPrefix(s, prefix)]. *)
Definition HasPrefix (s prefix : string) : bool := String.prefix prefix s.

(** [strings.HasSuffix(s, suffix)]. *)
Definition HasSuffix (s suffix : string) : bool :=
  let n := String.length s in
  let k := String.length suffix in
  (k <=? n)%nat && String.eqb (String.substring (n - k) k s) suffix.

(** [strings.TrimSuffix(s, suffix)]. *)
Definition TrimSuffix (s suffix : string) : string :=
  if HasSuffix s suffix
  then String.substring 0 (String.length s - String.length suffix) s
  else s.

(** Width in bytes of the white-space rune a byte sequence starts with, 0 if
    it starts with none.  The runes are those of [unicode.IsSpace]: U+0009 to
    U+000D, U+0020, U+0085, U+00A0, U+1680, U+2000 to U+200A, U+2028, U+2029,
    U+202F, U+205F and U+3000, in their UTF-8 encoding. *)
Definition spaceWidth (bs : list Byte.byte) : nat :=
  match bs with
  | (Byte.x09 | Byte.x0a | Byte.x0b | Byte.x0c | Byte.x0d | Byte.x20) :: _ => 1
  | Byte.xc2 :: (Byte.x85 | Byte.xa0) :: _ => 2
  | Byte.xe1 :: Byte.x9a :: Byte.x80 :: _ => 3
  | Byte.xe2 :: Byte.x80 ::
      (Byte.x80 | Byte.x81 | Byte.x82 | Byte.x83 | Byte.x84 | Byte.x85
       | Byte.x86 | Byte.x87 | Byte.x88 | Byte.x89 | Byte.x8a
       | Byte.xa8 | Byte.xa9 | Byte.xaf) :: _ => 3
  | Byte.xe2 :: Byte.x81 :: Byte.x9f :: _ => 3
  | Byte.xe3 :: Byte.x80 :: Byte.x80 :: _ => 3
  | _ => 0
  end.

(** Width of the white-space rune a byte sequence ends with, the sequence
    being given backwards from its last byte; 0 if it ends with none. *)
Definition spaceWidthRev (bs : list Byte.byte) : nat :=
  match bs with
  | [] => 0
  | b0 :: before =>
      if (spaceWidth [b0] =? 1)%nat then 1
      else
        match before with
        | [] => 0
        | b1 :: before' =>
            if (spaceWidth [b1; b0] =? 2)%nat then 2
            else
              match before' with
              | [] => 0
              | b2 :: _ => if (spaceWidth [b2; b1; b0] =? 3)%nat then 3 else 0
              end
        end
  end.

Fixpoint trimWith (width : list Byte.byte -> nat) (fuel : nat)
    (bs : list Byte.byte) : list Byte.byte :=
  match fuel with
  | O => bs
  | S fuel' =>
      match width bs with
      | O => bs
      | w => trimWith width fuel' (drop w bs)
      end
  end.

(** [strings.TrimSpace(s)]: leading, then trailing white space removed. *)
Definition TrimSpace (s : string) : string :=
  let bs := list_byte_of_string s in
  let left := trimWith spaceWidth (List.length bs) bs in
  let right := trimWith spaceWidthRev (List.length left) (rev left) in
  string_of_list_byte (rev right).

End strings.

(** ** Package [strconv] *)
Module strconv.

(** [strconv.Itoa(i)]: the decimal representation, with [-] for negatives. *)
Definition Itoa (i : Z) : string := NilZero.string_of_int (Z.to_int i).

End strconv.

(** ** Package [path/filepath] (Unix) *)
Module filepath.

(** One step of [Clean] on the elements kept so far (innermost first). *)
Definition cleanStep (rooted : bool) (kept : list string) (elem : string)
    : list string :=
  if String.eqb elem "" || String.eqb elem "." then kept
  else if String.eqb elem ".." then
    match kept with
    | top :: below => if String.eqb top ".." then elem :: kept else below
    | [] => if rooted then [] else [elem]
    end
  else elem :: kept.

(** [filepath.Clean(path)]: repeated separators collapsed, [.] elements
    dropped, inner [..] elements resolved against their parent, [..] at the
    root dropped; the empty result is [.]. *)
Definition Clean (path : string) : string :=
  if String.eqb path "" then "."
  else
    let rooted := strings.HasPrefix path "/" in
    let kept := fold_left (cleanStep rooted) (strings.Split path "/"%char) [] in
    let body := strings.Join (rev kept) "/" in
    if rooted then "/" +:+ body
    else if String.eqb body "" then "." else body.

(** [filepath.Join(elem...)]: joined with [/] from the first non-empty
    element on, then cleaned; [""] when every element is empty. *)
Fixpoint Join (elem : list string) : string :=
  match elem with
  | [] => ""
  | e :: rest =>
      if String.eqb e "" then Join rest
      else Clean (strings.Join elem "/")
  end.

(** The prefix of a path up to and including its last separator. *)
Fixpoint uptoLastSlash (path : string) : string :=
  match path with
  | EmptyString => EmptyString
  | String c rest =>
      let r := uptoLastSlash rest in
      if String.eqb r "" then
        (if Ascii.eqb c "/"%char then String c EmptyString else EmptyString)
      else String c r
  end.

(** [filepath.Dir(path)]. *)
Definition Dir (path : string) : string := Clean (uptoLastSlash path).

End filepath.

(** ** Package [fmt] *)
Module fmt.

(** [SkipSpace]: white space is skipped; a newline among it is an error. *)
Definition skipSpace (bs : list Byte.byte) : option (list Byte.byte) :=
  let rest := strings.trimWith strings.spaceWidth (List.length bs) bs in
  let skipped := take (List.length bs - List.length rest)%nat bs in
  if existsb (Byte.eqb Byte.x0a) skipped then None else Some rest.

(** The bytes up to the next white space, and what follows them. *)
Fixpoint word (bs : list Byte.byte) : list Byte.byte * list Byte.byte :=
  match bs with
  | [] => ([], [])
  | b :: bs' =>
      match strings.spaceWidth bs with
      | O => let (w, rest) := word bs' in (b :: w, rest)
      | _ => ([], bs)
      end
  end.

Definition isDigit (b : Byte.byte) : bool :=
  (48 <=? Z.of_N (Byte.to_N b)) && (Z.of_N (Byte.to_N b) <=? 57).

Fixpoint digits (bs : list Byte.byte) : list Byte.byte * list Byte.byte :=
  match bs with
  | b :: bs' =>
      if isDigit b then let (ds, rest) := digits bs' in (b :: ds, rest)
      else ([], bs)
  | [] => ([], [])
  end.

(** A space of the format: the input is at its end, or continues with at
    least one white space, all of which is skipped. *)
Definition formatSpace (bs : list Byte.byte) : option (list Byte.byte) :=
  match bs with
  | [] => Some []
  | _ => match strings.spaceWidth bs with
         | O => None
         | _ => skipSpace bs
         end
  end.

(** The verb [%d] into an [int]: an optional sign and decimal digits, in
    range for 64 bits. *)
Definition scanInt (bs : list Byte.byte) : option (Z * list Byte.byte) :=
  match skipSpace bs with
  | None | Some [] => None
  | Some (b :: bs1) =>
      let '(negative, bs2) :=
        match b with
        | Byte.x2d => (true, bs1)
        | Byte.x2b => (false, bs1)
        | _ => (false, b :: bs1)
        end in
      match digits bs2 with
      | ([], _) => None
      | (ds, bs3) =>
          let magnitude :=
            fold_left (fun acc d => 10 * acc + (Z.of_N (Byte.to_N d) - 48)) ds 0 in
          let v := if negative : bool then - magnitude else magnitude in
          if (- 2 ^ 63 <=? v) && (v <? 2 ^ 63) then Some (v, bs3) else None
      end
  end.

(** [fmt.Sscanf(text, "%s %d %d %d", &controller, &hierarchy, &num, &enabled)]
    on variables holding their zero values: the four variables afterwards.
    Scanning stops at the first operand that fails, leaving the later ones
    untouched.  The model follows the scanner of current Go releases and
    reads well-formed UTF-8 text. *)
Definition Sscanf_sddd (text : string) : string * Z * Z * Z :=
  match skipSpace (list_byte_of_string text) with
  | None | Some [] => ("", 0, 0, 0)
  | Some bs1 =>
      let (w, bs2) := word bs1 in
      let controller := string_of_list_byte w in
      match formatSpace bs2 ≫= scanInt with
      | None => (controller, 0, 0, 0)
      | Some (hierarchy, bs3) =>
          match formatSpace bs3 ≫= scanInt with
          | None => (controller, hierarchy, 0, 0)
          | Some (num, bs4) =>
              match formatSpace bs4 ≫= scanInt with
              | None => (controller, hierarchy, num, 0)
              | Some (enabled, _) => (controller, hierarchy, num, enabled)
              end
          end
      end
  end.

End fmt.

(** ** Package [github.com/coreos/go-systemd/unit] *)
Module unit.

Record UnitOption : Type := NewUnitOption {
  Section_ : string;
  Name : string;
  Value : string
}.

End unit.

(** ** The files the package reads *)

(** An open file as a [bufio.Scanner] with the default line splitter sees
    it: the lines [Scan()] yields, in order, and what [Err()] reports once
    [Scan()] has returned false. *)
Record File : Type := {
  lines : list string;
  readErr : option error
}.

(** ** Isolator translation *)

Abbreviation addIsolatorFunc :=
  (list unit.UnitOption -> resource.Quantity -> result (list unit.UnitOption)).

Definition addCpuLimit : addIsolatorFunc := fun opts limit =>
  if resource.Value limit >? resource.MaxMilliValue then
    Err (Errorf "cpu limit exceeds the maximum millivalue: %v" [Qty limit])
  else
    let quota := strconv.Itoa (resource.MilliValue limit ÷ 10) +:+ "%" in
    Ok (opts ++ [unit.NewUnitOption "Service" "CPUQuota" quota]).

Definition addMemoryLimit : addIsolatorFunc := fun opts limit =>
  Ok (opts ++ [unit.NewUnitOption "Service" "MemoryLimit"
                 (strconv.Itoa (resource.Value limit))]).

Definition isolatorFuncs : gmap string addIsolatorFunc :=
  <["cpu" := addCpuLimit]> (<["memory" := addMemoryLimit]> ∅).

Definition legacyCgroupControllerRWFiles : gmap string (list string) :=
  <["memory" := ["memory.limit_in_bytes"]]>
  (<["cpu" := ["cpu.cfs_quota_us"]]>
  (<["devices" := ["devices.allow"; "devices.deny"]]> ∅)).

Definition cgroupControllerRWFiles : gmap string (list string) :=
  <["memory" := ["memory.low"; "memory.high"; "memory.max"; "memory.swap.max"]]> ∅.

(** ** The system calls the package issues *)

(** A call into the operating system, with its arguments. *)
Inductive call : Type :=
| MkdirAll (path : string) (perm : Z)
| Mount (source target fstype : string) (flags : Z) (data : string)
| Symlink (oldname newname : string)
| Stat (name : string)
| ReadFile (filename : string)
| WriteFile (filename data : string) (perm : Z).

(** What a call answers: its error number if it fails, and the bytes read
    (for [ReadFile]). *)
Record reply : Type := {
  errno : option Z;
  content : string
}.

Module syscall.
Definition MS_RDONLY : Z := 1.
Definition MS_NOSUID : Z := 2.
Definition MS_NODEV : Z := 4.
Definition MS_NOEXEC : Z := 8.
Definition MS_REMOUNT : Z := 32.
Definition MS_BIND : Z := 4096.
Definition MS_STRICTATIME : Z := Z.shiftl 1 24.
End syscall.

(** [os.IsNotExist(err)] on the error of a call. *)
Definition IsNotExist (err : option Z) : bool :=
  match err with
  | Some e => e =? ENOENT
  | None => false
  end.

(** A computation that issues calls: from the calls issued so far to the
    calls issued when it ends, and its outcome. *)
Definition M (A : Type) : Type := list call -> list call * result A.

Definition ret {A : Type} (a : A) : M A := fun h => (h, Ok a).

Definition fail {A : Type} (e : error) : M A := fun h => (h, Err e).

Definition bind {A B : Type} (k : A -> M B) (m : M A) : M B := fun h =>
  match m h with
  | (h', Ok a) => k a h'
  | (h', Err e) => (h', Err e)
  | (h', Panic) => (h', Panic)
  end.

#[global] Instance M_ret : MRet M := @ret.
#[global] Instance M_bind : MBind M := @bind.

(** A [for] loop whose body returns from the function on an error. *)
Fixpoint forEach {A : Type} (xs : list A) (body : A -> M ()) : M () :=
  match xs with
  | [] => ret ()
  | x :: xs' => body x;; forEach xs' body
  end.

(** The two mounts of the lockdown: a bind mount of a path onto itself, and
    the read-only remount of [mountFsRO]. *)
Definition bindMount (path : string) : call :=
  Mount path path "" syscall.MS_BIND "".

Definition roFlags : Z :=
  Z.lor syscall.MS_BIND (Z.lor syscall.MS_REMOUNT (Z.lor syscall.MS_NOSUID
    (Z.lor syscall.MS_NOEXEC (Z.lor syscall.MS_NODEV syscall.MS_RDONLY)))).

Definition remountRO (mountPoint : string) : call :=
  Mount mountPoint mountPoint "" roFlags "".

(** ** The format of [/proc/<pid>/cgroup] *)

(** Whether a byte occurs in a string. *)
Fixpoint mentions (s : string) (c : ascii) : bool :=
  match s with
  | EmptyString => false
  | String a s' => Ascii.eqb a c || mentions s' c
  end.

(** An entry of [/proc/<pid>/cgroup]: hierarchy id, controller list, path. *)
Record Membership : Type := {
  hierarchyID : string;
  controllerList : list string;
  cgroupPath : string
}.

(** The line of an entry: the three fields separated by colons, the
    controllers by commas. *)
Definition cgroupLine (e : Membership) : string :=
  hierarchyID e +:+ ":" +:+ strings.Join (controllerList e) "," +:+ ":" +:+ cgroupPath e.

(** The first two fields hold no colon, a controller name holds no comma,
    and the controller list has at least one (possibly empty) name. *)
Definition wellFormed (e : Membership) : Prop :=
  mentions (hierarchyID e) ":"%char = false
  /\ controllerList e <> []
  /\ Forall (fun c => mentions c ":"%char = false /\ mentions c ","%char = false)
            (controllerList e).

(** ** What a scanner can yield *)

Module bufio.
End bufio.



(** Text of 7-bit bytes, on which bytes and runes are the same. *)
Definition asciiText (text : string) : Prop :=
  Forall (fun b => (Byte.to_N b < 128)%N) (list_byte_of_string text).

(** ** Fixtures *)
Module Fixture.

Definition row (name : string) (hierarchy num enabled : Z) : string :=
  name +:+ tab +:+ strconv.Itoa hierarchy +:+ tab +:+ strconv.Itoa num
       +:+ tab +:+ strconv.Itoa enabled.

(** A [/proc/cgroups] of a legacy host. *)
Definition procCgroups : File := {|
  lines :=
    ["#subsys_name" +:+ tab +:+ "hierarchy" +:+ tab +:+ "num_cgroups" +:+ tab +:+ "enabled";
     row "cpuset" 2 4 1;
     row "cpu" 3 60 1;
     row "cpuacct" 3 60 1;
     row "memory" 5 112 1;
     row "devices" 6 60 1;
     row "freezer" 7 4 0];
  readErr := None
|}.

(** The [/proc/<pid>/cgroup] of a process of the pod. *)
Definition procPidCgroup : File := {|
  lines :=
    ["11:devices:/machine-slice/app1";
     "4:memory:/machine-slice/app1";
     "1:name=systemd:/machine-slice"];
  readErr := None
|}.

Definition procPidEntries : list Membership :=
  [ {| hierarchyID := "11"; controllerList := ["devices"];
       cgroupPath := "/machine-slice/app1" |};
    {| hierarchyID := "4"; controllerList := ["memory"];
       cgroupPath := "/machine-slice/app1" |};
    {| hierarchyID := "1"; controllerList := ["name=systemd"];
       cgroupPath := "/machine-slice" |} ].

Definition Open (path : string) : error + File :=
  if String.eqb path "/proc/cgroups" then inr procCgroups
  else if String.eqb path "/proc/4242/cgroup" then inr procPidCgroup
  else inl (Errno ENOENT).

(** A kernel under which every call succeeds and every file exists and is
    empty. *)
Definition quietKernel : list call -> call -> reply :=
  fun _ _ => {| errno := None; content := "" |}.

(** A kernel under which [sysfs] is mounted already, every other call
    succeeding. *)
Definition busyKernel : list call -> call -> reply :=
  fun _ c =>
    match c with
    | Mount source _ _ _ _ =>
        if String.eqb source "sysfs" then {| errno := Some EBUSY; content := "" |}
        else {| errno := None; content := "" |}
    | _ => {| errno := None; content := "" |}
    end.

Definition enabledCgroups : gmap Z (list string) :=
  <[2 := ["cpuset"]]> (<[3 := ["cpu"; "cpuacct"]]> (<[5 := ["memory"]]> ∅)).

End Fixture.

(** Further files: those of a host on the unified hierarchy, and a
    [/proc/<pid>/cgroup] with a line cut short. *)
Module Samples.

Definition procSelfCgroup : File := {|
  lines := ["0::/machine.slice/machine-rkt.scope"];
  readErr := None
|}.

Definition cgroupControllers : File := {|
  lines := ["cpu io memory pids"];
  readErr := None
|}.

Definition cutShort : File := {|
  lines :=
    ["11:devices:/machine-slice/app1";
     "4:mem";
     "4:memory:/machine-slice/app1"];
  readErr := None
|}.

Definition Open (path : string) : error + File :=
  if String.eqb path "/proc/self/cgroup" then inr procSelfCgroup
  else if String.eqb path "/sys/fs/cgroup/cgroup.controllers" then inr cgroupControllers
  else if String.eqb path "/proc/4242/cgroup" then inr cutShort
  else inl (Errno ENOENT).

End Samples.

(** ** The package *)

Section Cgroup.

(** [os.Open]: the file behind a path, or the error of opening it. *)
Variable Open : string -> error + File.

(** The loop of [IsIsolatorSupported] over the lines that follow the first. *)
Fixpoint anyHasPrefix (ls : list string) (isolator : string) : bool :=
  match ls with
  | [] => false
  | text :: ls' =>
      if strings.HasPrefix text isolator then true
      else anyHasPrefix ls' isolator
  end.

Definition IsIsolatorSupported (isolator : string) : result bool :=
  match Open "/proc/cgroups" with
  | inl err => Err err
  | inr procCgroupFile =>
      if anyHasPrefix (tail (lines procCgroupFile)) isolator then Ok true
      else match readErr procCgroupFile with
           | Some err => Err err
           | None => Ok false
           end
  end.

(** [MaybeAddIsolator]: what it writes to standard error, and what it
    returns.  A [limit] of [None] is the nil pointer.  Calling the nil
    function that [isolatorFuncs] yields for a missing key panics. *)
Definition MaybeAddIsolator (opts : list unit.UnitOption) (isolator : string)
    (limit : option resource.Quantity)
    : list string * result (list unit.UnitOption) :=
  match limit with
  | None => ([], Ok opts)
  | Some limit =>
      match IsIsolatorSupported isolator with
      | Err err => ([], Err err)
      | Panic => ([], Panic)
      | Ok true =>
          match isolatorFuncs !! isolator with
          | Some f => ([], f opts limit)
          | None => ([], Panic)
          end
      | Ok false =>
          (["warning: resource/" +:+ isolator +:+
            " isolator set but support disabled in the kernel, skipping"],
           Ok opts)
      end
  end.

(** ** Path resolver *)

(** [parts[i]]: indexing a slice out of range panics. *)
Definition index (parts : list string) (i : nat) : result string :=
  match parts !! i with
  | Some p => Ok p
  | None => Panic
  end.

(** The scanning loop of [parseLegacyCgroupController]. *)
Fixpoint scanControllerLines (ls : list string) (controller : string)
    : result (list string) :=
  match ls with
  | [] => Err (Errorf "controller %q not found" [Str controller])
  | text :: ls' =>
      let parts := strings.SplitN text ":"%char 3 in
      if (List.length parts <? 3)%nat then
        Err (Errorf "error parsing /proc/self/cgroup" [])
      else
        match index parts 1 with
        | Ok field =>
            let controllerParts := strings.Split field ","%char in
            if existsb (String.eqb controller) controllerParts then Ok parts
            else scanControllerLines ls' controller
        | Err e => Err e
        | Panic => Panic
        end
  end.

Definition parseLegacyCgroupController (cgroupPath controller : string)
    : result (list string) :=
  match Open cgroupPath with
  | inl err => Err (Wrap (Errorf "error opening /proc/self/cgroup" []) err)
  | inr cg => scanControllerLines (lines cg) controller
  end.

Definition GetOwnLegacyCgroupPath (controller : string) : result string :=
  match parseLegacyCgroupController "/proc/self/cgroup" controller with
  | Ok parts => index parts 2
  | Err err => Err err
  | Panic => Panic
  end.

Definition GetLegacyCgroupPathByPid (pid : Z) (controller : string)
    : result string :=
  match parseLegacyCgroupController
          ("/proc/" +:+ strconv.Itoa pid +:+ "/cgroup") controller with
  | Ok parts => index parts 2
  | Err err => Err err
  | Panic => Panic
  end.

(** ** Controller inventory *)

(** The scanner behind [fmt.Sscanf] in [parseLegacyCgroups]; see
    [fmt.Sscanf_sddd]. *)
Variable Sscanf : string -> string * Z * Z * Z.

(** The order in which a [range] statement visits a map.  Go leaves it
    unspecified; it is some enumeration of the entries. *)
Variable rangeCgroups : gmap Z (list string) -> list (Z * list string).
Variable rangeRWFiles : gmap string (list string) -> list (string * list string).

Hypothesis rangeCgroups_entries :
  forall m : gmap Z (list string), rangeCgroups m ≡ₚ map_to_list m.
Hypothesis rangeRWFiles_entries :
  forall m : gmap string (list string), rangeRWFiles m ≡ₚ map_to_list m.

(** The loop of [parseLegacyCgroups] over the lines that follow the first. *)
Fixpoint scanLegacyCgroups (ls : list string) (cgroups : gmap Z (list string))
    : gmap Z (list string) :=
  match ls with
  | [] => cgroups
  | text :: ls' =>
      let '(controller, hierarchy, num, enabled) := Sscanf text in
      let cgroups :=
        if enabled =? 1 then
          match cgroups !! hierarchy with
          | None => <[hierarchy := [controller]]> cgroups
          | Some cs => <[hierarchy := cs ++ [controller]]> cgroups
          end
        else cgroups in
      scanLegacyCgroups ls' cgroups
  end.

Definition parseLegacyCgroups (f : File) : result (gmap Z (list string)) :=
  let cgroups := scanLegacyCgroups (tail (lines f)) ∅ in
  match readErr f with
  | Some err => Err err
  | None => Ok cgroups
  end.

Definition GetEnabledLegacyCgroups : result (gmap Z (list string)) :=
  match Open "/proc/cgroups" with
  | inl err => Err err
  | inr cgroupsFile =>
      match parseLegacyCgroups cgroupsFile with
      | Ok cgroups => Ok cgroups
      | Err err => Err (Wrap (Errorf "error parsing /proc/cgroups" []) err)
      | Panic => Panic
      end
  end.

Definition GetLegacyControllerDirs (cgroups : gmap Z (list string))
    : list string :=
  fold_left (fun controllers '(_, cs) => controllers ++ [strings.Join cs ","])
            (rangeCgroups cgroups) [].

Definition getLegacyControllerSymlinks (cgroups : gmap Z (list string))
    : gmap string string :=
  fold_left
    (fun symlinks '(_, cs) =>
       if (1 <? List.length cs)%nat then
         let tgt := strings.Join cs "," in
         fold_left (fun symlinks ln => <[ln := tgt]> symlinks) cs symlinks
       else symlinks)
    (rangeCgroups cgroups) ∅.

(** The loop of [getLegacyControllerRWFiles] over the parts of a name. *)
Fixpoint firstRWFiles (parts : list string) : list string :=
  match parts with
  | [] => []
  | p :: parts' =>
      match legacyCgroupControllerRWFiles !! p with
      | Some files => files ++ ["cgroup.procs"]
      | None => firstRWFiles parts'
      end
  end.

Definition getLegacyControllerRWFiles (controller : string) : list string :=
  firstRWFiles (strings.Split controller ","%char).

Definition getControllersRWFiles : list string :=
  fold_left (fun files '(_, controllerRWFiles) => files ++ controllerRWFiles)
            (rangeRWFiles cgroupControllerRWFiles)
            ["cgroup.procs"; "cgroup.controllers"; "cgroup.subtree_control";
             "cgroup.events"].

(** ** Hierarchy builder and lockdown sequencer *)

(** The operating system: what a call answers after the calls issued so
    far. *)
Variable kernel : list call -> call -> reply.

Definition sys (c : call) : M reply := fun h => (h ++ [c], Ok (kernel h c)).

Variable rangeSymlinks : gmap string string -> list (string * string).

Definition mountFsRO (mountPoint : string) : M () :=
  r ← sys (remountRO mountPoint);
  match errno r with
  | Some e => fail (Wrap (Errorf "error remounting RO %q" [Str mountPoint]) (Errno e))
  | None => ret ()
  end.

(** [os.MkdirAll] in a function that returns its error as it is. *)
Definition mkdirAll (path : string) (perm : Z) : M () :=
  r ← sys (MkdirAll path perm);
  match errno r with
  | Some e => fail (Errno e)
  | None => ret ()
  end.

Definition fixCpusetKnobs (cpusetPath : string) : M () :=
  let cgroupPathFix := filepath.Join [cpusetPath; "system.slice"] in
  sys (MkdirAll cgroupPathFix 493);;
  forEach ["cpuset.mems"; "cpuset.cpus"] (fun knob =>
    let parentFile := filepath.Join [filepath.Dir cgroupPathFix; knob] in
    let childFile := filepath.Join [cgroupPathFix; knob] in
    child ← sys (ReadFile childFile);
    match errno child with
    | Some _ => ret ()
    | None =>
        if negb (String.eqb (strings.TrimSpace (content child)) "") then ret ()
        else
          parent ← sys (ReadFile parentFile);
          match errno parent with
          | None =>
              sys (WriteFile childFile (content parent) 420);;
              sys (WriteFile childFile (content parent) 420);;
              ret ()
          | Some _ => ret ()
          end
    end).

Definition CreateLegacyCgroups (root : string)
    (enabledCgroups : gmap Z (list string)) (mountContext : string) : M () :=
  let controllers := GetLegacyControllerDirs enabledCgroups in
  let sys_ := filepath.Join [root; "/sys"] in
  mkdirAll sys_ 448;;
  let flags := Z.lor syscall.MS_NOSUID (Z.lor syscall.MS_NOEXEC syscall.MS_NODEV) in
  (r ← sys (Mount "sysfs" sys_ "sysfs" flags "");
   match errno r with
   | Some e =>
       if negb (e =? EBUSY)
       then fail (Wrap (Errorf "error mounting %q" [Str sys_]) (Errno e))
       else ret ()
   | None => ret ()
   end);;
  let cgroupTmpfs := filepath.Join [root; "/sys/fs/cgroup"] in
  mkdirAll cgroupTmpfs 448;;
  let flags := Z.lor syscall.MS_NOSUID (Z.lor syscall.MS_NOEXEC
                 (Z.lor syscall.MS_NODEV syscall.MS_STRICTATIME)) in
  let options :=
    if negb (String.eqb mountContext "")
    then "mode=755,context=" +:+ dquote +:+ mountContext +:+ dquote
    else "mode=755" in
  (r ← sys (Mount "tmpfs" cgroupTmpfs "tmpfs" flags options);
   match errno r with
   | Some e => fail (Wrap (Errorf "error mounting %q" [Str cgroupTmpfs]) (Errno e))
   | None => ret ()
   end);;
  forEach controllers (fun c =>
    let cPath := filepath.Join [root; "/sys/fs/cgroup"; c] in
    mkdirAll cPath 448;;
    let flags := Z.lor syscall.MS_NOSUID (Z.lor syscall.MS_NOEXEC syscall.MS_NODEV) in
    r ← sys (Mount "cgroup" cPath "cgroup" flags c);
    match errno r with
    | Some e => fail (Wrap (Errorf "error mounting %q" [Str cPath]) (Errno e))
    | None => ret ()
    end);;
  let symlinks := getLegacyControllerSymlinks enabledCgroups in
  forEach (rangeSymlinks symlinks) (fun '(ln, tgt) =>
    let lnPath := filepath.Join [cgroupTmpfs; ln] in
    r ← sys (Symlink tgt lnPath);
    match errno r with
    | Some e => fail (Wrap (Errorf "error creating symlink" []) (Errno e))
    | None => ret ()
    end);;
  let systemdControllerPath := filepath.Join [root; "/sys/fs/cgroup/systemd"] in
  mkdirAll systemdControllerPath 448;;
  mountFsRO cgroupTmpfs.

Definition CreateCgroups (root : string) : M () :=
  let sys_ := filepath.Join [root; "/sys"] in
  mkdirAll sys_ 448;;
  let flags := Z.lor syscall.MS_NOSUID (Z.lor syscall.MS_NOEXEC syscall.MS_NODEV) in
  (r ← sys (Mount "sysfs" sys_ "sysfs" flags "");
   match errno r with
   | Some e => fail (Wrap (Errorf "error mounting %q" [Str sys_]) (Errno e))
   | None => ret ()
   end);;
  let cgroupFs := filepath.Join [root; "/sys/fs/cgroup"] in
  mkdirAll cgroupFs 448;;
  let flags := Z.lor syscall.MS_NOSUID (Z.lor syscall.MS_NOEXEC
                 (Z.lor syscall.MS_NODEV syscall.MS_STRICTATIME)) in
  (r ← sys (Mount "cgroup2" cgroupFs "cgroup2" flags "");
   match errno r with
   | Some e => fail (Wrap (Errorf "error mounting %q" [Str cgroupFs]) (Errno e))
   | None => ret ()
   end);;
  let machinePath := filepath.Join [root; "/sys/fs/cgroup/machine.slice"] in
  mkdirAll machinePath 448;;
  ret ().

(** The body of the innermost loop of [RemountLegacyCgroupsRO]: one file of
    the whitelist, for one service. *)
Definition bindRWFile (appCgroup f : string) : M () :=
  let cgroupFilePath := filepath.Join [appCgroup; f] in
  st ← sys (Stat cgroupFilePath);
  if IsNotExist (errno st) then ret ()
  else
    r ← sys (bindMount cgroupFilePath);
    match errno r with
    | Some e =>
        fail (Wrap (Errorf "error bind mounting %q" [Str cgroupFilePath]) (Errno e))
    | None => ret ()
    end.

(** The body of the loop over the services, for the controller [c]. *)
Definition lockdownService (subcgroupPath c serviceName : string) : M () :=
  let appCgroup := filepath.Join [subcgroupPath; serviceName] in
  mkdirAll appCgroup 493;;
  forEach (getLegacyControllerRWFiles c) (bindRWFile appCgroup).

(** The body of the loop over the controllers. *)
Definition lockdownController (cgroupTmpfs subcgroup : string)
    (serviceNames : list string) (c : string) : M () :=
  let cPath := filepath.Join [cgroupTmpfs; c] in
  let subcgroupPath := filepath.Join [cPath; subcgroup; "system.slice"] in
  (if String.eqb c "cpuset" then fixCpusetKnobs cPath else ret ());;
  forEach serviceNames (lockdownService subcgroupPath c);;
  mountFsRO cPath.

Definition RemountLegacyCgroupsRO (root : string)
    (enabledCgroups : gmap Z (list string)) (subcgroup : string)
    (serviceNames : list string) : M () :=
  let controllers := GetLegacyControllerDirs enabledCgroups in
  let cgroupTmpfs := filepath.Join [root; "/sys/fs/cgroup"] in
  let sysPath := filepath.Join [root; "/sys"] in
  forEach controllers (lockdownController cgroupTmpfs subcgroup serviceNames);;
  mountFsRO sysPath.

Definition RemountCgroupsRO (root subcgroup : string)
    (serviceNames : list string) : M () :=
  let cgroupFsPath := filepath.Join [root; "sys/fs/cgroup"] in
  let subcgroupPath := filepath.Join [root; "sys/fs/cgroup"; subcgroup] in
  let sysPath := filepath.Join [root; "/sys"] in
  mkdirAll subcgroupPath 448;;
  let machineDir := strings.TrimSuffix subcgroupPath "/system.slice" in
  (r ← sys (bindMount machineDir);
   match errno r with
   | Some e =>
       fail (Wrap (Errorf "error bind mounting %q" [Str subcgroupPath]) (Errno e))
   | None => ret ()
   end);;
  (r ← sys (remountRO cgroupFsPath);
   match errno r with
   | Some e =>
       fail (Wrap (Errorf "error remounting RO %q" [Str cgroupFsPath]) (Errno e))
   | None => ret ()
   end);;
  r ← sys (remountRO sysPath);
  match errno r with
  | Some e => fail (Wrap (Errorf "error remounting RO %q" [Str sysPath]) (Errno e))
  | None => ret ()
  end.

(** ** Vocabulary of the statements *)

(** A row of the inventory: name, hierarchy id, number of cgroups, enabled. *)
Definition rowName (r : string * Z * Z * Z) : string := r.1.1.1.
Definition rowHierarchy (r : string * Z * Z * Z) : Z := r.1.1.2.
Definition rowEnabled (r : string * Z * Z * Z) : Z := r.2.

(** What the scanner reads on each line of the inventory after the first. *)
Definition rows (f : File) : list (string * Z * Z * Z) :=
  map Sscanf (tail (lines f)).

Definition enabledRows (f : File) : list (string * Z * Z * Z) :=
  filter (fun r => rowEnabled r = 1) (rows f).

(** The inventory parser of the specification, which skips a header of two
    lines; only for the comparison with [parseLegacyCgroups]. *)
Definition parseLegacyCgroups_twoLineHeader (f : File)
    : result (gmap Z (list string)) :=
  let cgroups := scanLegacyCgroups (tail (tail (lines f))) ∅ in
  match readErr f with
  | Some err => Err err
  | None => Ok cgroups
  end.

(** The names on the enabled rows of the hierarchy [h], in file order. *)
Definition group (h : Z) (rs : list (string * Z * Z * Z)) : list string :=
  map rowName (filter (fun r => rowEnabled r = 1 /\ rowHierarchy r = h) rs).

(** Whether a call is a mount. *)
Definition isMount (c : call) : bool :=
  match c with
  | Mount _ _ _ _ _ => true
  | _ => false
  end.

(** The mount point of a controller under [root], and the path of a file of
    its whitelist in the cgroup of a service, as [RemountLegacyCgroupsRO]
    computes them. *)
Definition controllerPath (root c : string) : string :=
  filepath.Join [filepath.Join [root; "/sys/fs/cgroup"]; c].

Definition rwFilePath (root subcgroup c serviceName f : string) : string :=
  filepath.Join
    [filepath.Join
       [filepath.Join [controllerPath root c; subcgroup; "system.slice"];
        serviceName];
     f].

(** A call that may come before the read-only remount of the controller
    [c]: no mount, or the bind mount of a file of the whitelist of [c] in the
    cgroup of one of the services. *)
Definition knobCall (root subcgroup : string) (serviceNames : list string)
    (c : string) (k : call) : Prop :=
  isMount k = false
  \/ exists s f, s ∈ serviceNames /\ f ∈ getLegacyControllerRWFiles c
                 /\ k = bindMount (rwFilePath root subcgroup c s f).

(** The error at the bottom of a chain of wrapped errors. *)
Fixpoint cause (e : error) : error :=
  match e with
  | Wrap _ inner => cause inner
  | _ => e
  end.

(** [emits P m]: whatever was issued before, [m] only adds calls that
    satisfy [P], and does not panic. *)
Definition emits {A : Type} (P : call -> Prop) (m : M A) : Prop :=
  forall h, exists d r, m h = (h ++ d, r) /\ Forall P d /\ r <> Panic.

(** The calls of one complete iteration of the loop of
    [RemountLegacyCgroupsRO], for the controller [c]: calls that keep knobs
    writable, then the read-only remount of the controller. *)
Definition block (root subcgroup : string) (serviceNames : list string)
    (c : string) (b : list call) : Prop :=
  exists pre, b = pre ++ [remountRO (controllerPath root c)]
              /\ Forall (knobCall root subcgroup serviceNames c) pre.

(** What may follow the complete iterations: the read-only remount of
    [<root>/sys], nothing, or the calls of an iteration that failed. *)
Definition ending (root subcgroup : string) (serviceNames : list string)
    (cs : list string) (done_ : nat) (rest : list call) : Prop :=
  rest = [remountRO (filepath.Join [root; "/sys"])]
  \/ rest = []
  \/ exists c, cs !! done_ = Some c
               /\ Forall (knobCall root subcgroup serviceNames c) rest.

(** [aborting tol m]: [m] returns right after the first call that fails
    with an error that [tol] does not tolerate, the error of the call being
    the cause of the error returned; and [m] returns an error in that case
    only. *)
Definition aborting (tol : call -> Z -> Prop) (m : M ()) : Prop :=
  forall h, exists d r,
    m h = (h ++ d, r)
    /\ (forall l1 c l2 e,
          d = l1 ++ c :: l2 -> errno (kernel (h ++ l1) c) = Some e -> ~ tol c e ->
          l2 = [] /\ exists err, r = Err err /\ cause err = Errno e)
    /\ (r = Ok ()
        \/ exists l1 c e err,
             d = l1 ++ [c] /\ errno (kernel (h ++ l1) c) = Some e /\ ~ tol c e
             /\ r = Err err).

(** The mount of [sysfs] on [<root>/sys]. *)
Definition sysfsMount (root : string) : call :=
  Mount "sysfs" (filepath.Join [root; "/sys"]) "sysfs"
        (Z.lor syscall.MS_NOSUID (Z.lor syscall.MS_NOEXEC syscall.MS_NODEV)) "".

(** ** The rest of the package *)

(** Whether the read error met the scanner in the middle of the one line it
    yields: [Scan()] then returns that line, and [Err()] reports the error
    at once.  In every other case [Err()] is nil as long as [Scan()] returns
    true. *)
Variable tornLine : File -> bool.

(** [sc.Err()] once [sc.Scan()] has been called a first time. *)
Definition errAfterFirstScan (f : File) : option error :=
  match lines f with
  | [] => readErr f
  | [_] => if tornLine f then readErr f else None
  | _ => None
  end.

(** [sc.Text()] once [sc.Scan()] has been called a first time: the first
    line, or the empty string when there is none. *)
Definition firstText (f : File) : string := hd "" (lines f).

Definition GetEnabledControllers : result (list string) :=
  match Open "/sys/fs/cgroup/cgroup.controllers" with
  | inl err => Err err
  | inr controllersFile =>
      match errAfterFirstScan controllersFile with
      | Some err => Err err
      | None => Ok (strings.Split (firstText controllersFile) " "%char)
      end
  end.

Definition parseProcCgroupInfo (procCgroupInfoPath : string) : result string :=
  match Open procCgroupInfoPath with
  | inl err => Err (Wrap (Errorf "error opening /proc/self/cgroup" []) err)
  | inr cg =>
      let parts := strings.SplitN (firstText cg) ":"%char 3 in
      if (List.length parts <? 3)%nat then
        Err (Errorf "error parsing /proc/self/cgroup" [])
      else index parts 2
  end.

Definition GetOwnCgroupPath : result string :=
  parseProcCgroupInfo "/proc/self/cgroup".

Definition GetCgroupPathByPid (pid : Z) : result string :=
  parseProcCgroupInfo ("/proc/" +:+ strconv.Itoa pid +:+ "/cgroup").

(** [os.Getpid()]. *)
Variable Getpid : Z.

Definition JoinLegacySubcgroup (controller subcgroup : string) : M () :=
  let subcgroupPath := filepath.Join ["/sys/fs/cgroup"; controller; subcgroup] in
  (r ← sys (MkdirAll subcgroupPath 384);
   match errno r with
   | Some e =>
       fail (Wrap (Errorf "error creating %q subcgroup" [Str subcgroup]) (Errno e))
   | None => ret ()
   end);;
  let pidBytes := strconv.Itoa Getpid in
  (r ← sys (WriteFile (filepath.Join [subcgroupPath; "cgroup.procs"]) pidBytes 384);
   match errno r with
   | Some e =>
       fail (Wrap (Errorf "error adding ourselves to the %q subcgroup" [Str subcgroup])
                  (Errno e))
   | None => ret ()
   end);;
  ret ().

Definition JoinSubcgroup (subcgroup : string) : M () :=
  let subcgroupPath := filepath.Join ["/sys/fs/cgroup"; subcgroup] in
  (r ← sys (MkdirAll subcgroupPath 384);
   match errno r with
   | Some e =>
       fail (Wrap (Errorf "error creating %q subcgroup" [Str subcgroup]) (Errno e))
   | None => ret ()
   end);;
  let pidBytes := strconv.Itoa Getpid in
  (r ← sys (WriteFile (filepath.Join [subcgroupPath; "cgroup.procs"]) pidBytes 384);
   match errno r with
   | Some e =>
       fail (Wrap (Errorf "error adding ourselves to the %q subcgroup" [Str subcgroup])
                  (Errno e))
   | None => ret ()
   end);;
  ret ().

(** [IsLegacyControllerMounted]: whether [cgroup.procs] of the controller
    can be examined. *)
Definition IsLegacyControllerMounted (c : string) : M bool :=
  r ← sys (Stat (filepath.Join ["/sys/fs/cgroup"; c; "cgroup.procs"]));
  ret (match errno r with Some _ => false | None => true end).

(** How many times a byte occurs in a string. *)
Fixpoint occurrences (s : string) (c : ascii) : nat :=
  match s with
  | EmptyString => O
  | String a s' => ((if Ascii.eqb a c then 1 else 0) + occurrences s' c)%nat
  end.

(** A line of three fields separated by colons, the first two holding no
    colon. *)
Definition fieldsLine (id ctrls path : string) : string :=
  id +:+ ":" +:+ ctrls +:+ ":" +:+ path.

Definition threeFields (text id ctrls path : string) : Prop :=
  mentions id ":"%char = false /\ mentions ctrls ":"%char = false
  /\ text = fieldsLine id ctrls path.

(** A line of three fields whose second field does not list the
    controller: the legacy resolver goes on to the next line. *)
Definition skipped (controller text : string) : Prop :=
  exists id ctrls path,
    threeFields text id ctrls path /\ controller ∉ strings.Split ctrls ","%char.

(** The mounts of the hierarchy builders. *)
Definition tmpfsMount (root mountContext : string) : call :=
  Mount "tmpfs" (filepath.Join [root; "/sys/fs/cgroup"]) "tmpfs"
        (Z.lor syscall.MS_NOSUID (Z.lor syscall.MS_NOEXEC
           (Z.lor syscall.MS_NODEV syscall.MS_STRICTATIME)))
        (if negb (String.eqb mountContext "")
         then "mode=755,context=" +:+ dquote +:+ mountContext +:+ dquote
         else "mode=755").

Definition cgroupMount (root c : string) : call :=
  Mount "cgroup" (filepath.Join [root; "/sys/fs/cgroup"; c]) "cgroup"
        (Z.lor syscall.MS_NOSUID (Z.lor syscall.MS_NOEXEC syscall.MS_NODEV)) c.

Definition cgroup2Mount (root : string) : call :=
  Mount "cgroup2" (filepath.Join [root; "/sys/fs/cgroup"]) "cgroup2"
        (Z.lor syscall.MS_NOSUID (Z.lor syscall.MS_NOEXEC
           (Z.lor syscall.MS_NODEV syscall.MS_STRICTATIME))) "".

(** [scripted script m]: [m] issues the calls of [script], in this order,
    and stops before the end of it only when it returns an error. *)
Definition scripted (script : list call) (m : M ()) : Prop :=
  forall h, exists d r,
    m h = (h ++ d, r) /\ d `prefix_of` script /\ (r = Ok () -> d = script)
    /\ r <> Panic.

(** The calls of a complete run of [CreateLegacyCgroups]. *)
Definition legacyScript (root : string) (enabledCgroups : gmap Z (list string))
    (mountContext : string) : list call :=
  let cgroupTmpfs := filepath.Join [root; "/sys/fs/cgroup"] in
  [MkdirAll (filepath.Join [root; "/sys"]) 448] ++ [sysfsMount root]
  ++ [MkdirAll cgroupTmpfs 448] ++ [tmpfsMount root mountContext]
  ++ flat_map (fun c => [MkdirAll (filepath.Join [root; "/sys/fs/cgroup"; c]) 448]
                        ++ [cgroupMount root c])
       (GetLegacyControllerDirs enabledCgroups)
  ++ flat_map (fun '(ln, tgt) => [Symlink tgt (filepath.Join [cgroupTmpfs; ln])])
       (rangeSymlinks (getLegacyControllerSymlinks enabledCgroups))
  ++ [MkdirAll (filepath.Join [root; "/sys/fs/cgroup/systemd"]) 448]
  ++ [remountRO cgroupTmpfs].

(** [keeps I m]: whatever was issued before, the calls [m] adds stand in
    the relation [I] with the calls issued before them; [m] does not
    panic. *)
Definition keeps {A : Type} (I : list call -> list call -> Prop) (m : M A) : Prop :=
  forall h, exists d r, m h = (h ++ d, r) /\ I h d /\ r <> Panic.

(** A call on a directory or on the content of a file. *)
Definition fileCall (c : call) : Prop :=
  match c with
  | MkdirAll _ _ | ReadFile _ | WriteFile _ _ _ => True
  | _ => False
  end.

(** The writes among the calls [d], issued after [h], are those of the
    workaround for the knobs of [cgroupPathFix]: each one writes a knob of
    that directory that was read before, without an error, as empty or
    blank, and what it writes was read, without an error, from the knob of
    the same name in the parent directory. *)
Definition knobWrites (cgroupPathFix : string) (h d : list call) : Prop :=
  forall l1 f data perm l2,
    d = l1 ++ WriteFile f data perm :: l2 ->
    exists knob,
      knob ∈ ["cpuset.mems"; "cpuset.cpus"]
      /\ f = filepath.Join [cgroupPathFix; knob] /\ perm = 420
      /\ (exists l0 l0',
             l1 = l0 ++ ReadFile f :: l0'
             /\ errno (kernel (h ++ l0) (ReadFile f)) = None
             /\ strings.TrimSpace (content (kernel (h ++ l0) (ReadFile f))) = "")
      /\ (exists l0 l0',
             let parentFile := filepath.Join [filepath.Dir cgroupPathFix; knob] in
             l1 = l0 ++ ReadFile parentFile :: l0'
             /\ errno (kernel (h ++ l0) (ReadFile parentFile)) = None
             /\ data = content (kernel (h ++ l0) (ReadFile parentFile))).

(** Among the calls [d], issued after [h], a bind mount of a path onto
    itself comes right after the lookup of that path, which did not report
    the path as missing; and a lookup that does not report its path as
    missing is followed at once by the bind mount of the path. *)
Definition paired (h d : list call) : Prop :=
  (forall l1 q l2,
      d = l1 ++ bindMount q :: l2 ->
      exists l0, l1 = l0 ++ [Stat q]
                 /\ IsNotExist (errno (kernel (h ++ l0) (Stat q))) = false)
  /\ (forall l1 q l2,
        d = l1 ++ Stat q :: l2 ->
        IsNotExist (errno (kernel (h ++ l1) (Stat q))) = false ->
        exists l2', l2 = bindMount q :: l2').

(** [halting must may m]: a call of [m] that satisfies [must] and fails is
    the last call of [m], and its error is the cause of the error [m]
    returns; and [m] returns an error only when its last call satisfies
    [may] and failed, with that error as the cause. *)
Definition halting {A : Type} (must may : call -> Prop) (m : M A) : Prop :=
  forall h, exists d r,
    m h = (h ++ d, r)
    /\ (forall l1 c l2 e,
          d = l1 ++ c :: l2 -> must c -> errno (kernel (h ++ l1) c) = Some e ->
          l2 = [] /\ exists err, r = Err err /\ cause err = Errno e)
    /\ ((exists a, r = Ok a)
        \/ exists l1 c e err,
             d = l1 ++ [c] /\ may c /\ errno (kernel (h ++ l1) c) = Some e
             /\ r = Err err /\ cause err = Errno e).

(** Elements that [cleanStep] has kept are kept again when they are read
    back in their order. *)
Inductive replayable (rooted : bool) : list string -> Prop :=
| replayable_nil : replayable rooted []
| replayable_cons (e : string) (kept : list string) :
    replayable rooted kept ->
    filepath.cleanStep rooted kept e = e :: kept ->
    replayable rooted (e :: kept).

(** The elements of a path that [filepath.Clean] keeps, the last one
    first. *)
Definition kept (path : string) : list string :=
  fold_left (filepath.cleanStep (strings.HasPrefix path "/"))
            (strings.Split path "/"%char) [].

(** [inside dir path]: the cleaned [path] is the cleaned [dir] or lies
    below it, the elements of [dir] being the first elements of [path]. *)
Definition inside (dir path : string) : Prop := kept dir `suffix_of` kept path.


(** A relative path that never steps up: no element of it is [..]. *)
Definition descending (path : string) : Prop :=
  Forall (fun e => e <> "..") (strings.Split path "/"%char).


(** * Properties *)

(** ** The legacy whitelist *)

Lemma GetLegacyControllerDirs_entries (cgroups : gmap Z (list string)) :
  GetLegacyControllerDirs cgroups
  ≡ₚ (fun kv : Z * list string => strings.Join kv.2 ",") <$> map_to_list cgroups.
Proof.
  unfold GetLegacyControllerDirs.
  assert (Hfold : forall (l : list (Z * list string)) (acc : list string),
             fold_left (fun controllers '(_, cs) => controllers ++ [strings.Join cs ","])
                       l acc
             = acc ++ ((fun kv : Z * list string => strings.Join kv.2 ",") <$> l)).
  { induction l as [|[k cs] l IH]; intros acc; cbn [fold_left fmap list_fmap].
    - by rewrite app_nil_r.
    - rewrite IH, <- app_assoc. done. }
  rewrite Hfold. cbn [app]. apply fmap_Permutation, rangeCgroups_entries.
Qed.

Lemma legacyCgroupControllerRWFiles_keys (p : string) :
  is_Some (legacyCgroupControllerRWFiles !! p)
  <-> p = "memory" \/ p = "cpu" \/ p = "devices".
Proof.
  unfold legacyCgroupControllerRWFiles.
  rewrite !lookup_insert, lookup_empty.
  repeat case_decide; subst; split; intros Hp;
    try (destruct Hp as [x Hx]; discriminate Hx);
    try (destruct Hp as [Hp | [Hp | Hp]]; congruence);
    eauto.
Qed.

Lemma firstRWFiles_procs (parts : list string) :
  "cgroup.procs" ∈ firstRWFiles parts
  <-> exists p, p ∈ parts /\ is_Some (legacyCgroupControllerRWFiles !! p).
Proof.
  induction parts as [|p parts IH]; simpl.
  - split.
    + intros Hin. inversion Hin.
    + intros (p & Hin & _). inversion Hin.
  - destruct (legacyCgroupControllerRWFiles !! p) as [files|] eqn:Hp.
    + split.
      * intros _. exists p. split; [left | rewrite Hp; eauto].
      * intros _. apply elem_of_app. right. left.
    + rewrite IH. split.
      * intros (q & Hq & Hs). exists q. split; [by right | done].
      * intros (q & Hq & Hs). apply elem_of_cons in Hq as [-> | Hq].
        -- rewrite Hp in Hs. by destruct Hs.
        -- eauto.
Qed.

Lemma firstRWFiles_none (parts : list string) :
  (forall p, p ∈ parts -> legacyCgroupControllerRWFiles !! p = None) ->
  firstRWFiles parts = [].
Proof.
  induction parts as [|p parts IH]; simpl; intros Hall; [done|].
  rewrite (Hall p) by left. apply IH. intros q Hq. apply Hall. by right.
Qed.

(** C3, as the code has it: the whitelist of a controller directory holds
    [cgroup.procs] exactly when one of the comma-separated names of the
    directory is [memory], [cpu] or [devices]; for any other directory
    (such as [cpuset]) the whitelist is empty, [cgroup.procs] included. *)
Theorem getLegacyControllerRWFiles_procs (controller : string) :
  let parts := strings.Split controller ","%char in
  ("cgroup.procs" ∈ getLegacyControllerRWFiles controller
   <-> exists p, p ∈ parts /\ (p = "memory" \/ p = "cpu" \/ p = "devices"))
  /\ ((forall p, p ∈ parts -> p <> "memory" /\ p <> "cpu" /\ p <> "devices")
      -> getLegacyControllerRWFiles controller = []).
Proof.
  intros parts. unfold getLegacyControllerRWFiles. fold parts. split.
  - rewrite firstRWFiles_procs. split; intros (p & Hin & Hp); exists p;
      (split; [done|]); by apply legacyCgroupControllerRWFiles_keys.
  - intros Hnone. apply firstRWFiles_none. intros p Hin.
    destruct (legacyCgroupControllerRWFiles !! p) as [files|] eqn:Hp; [|done].
    assert (Hs : is_Some (legacyCgroupControllerRWFiles !! p)) by (rewrite Hp; eauto).
    apply legacyCgroupControllerRWFiles_keys in Hs.
    destruct (Hnone p Hin) as (Hm & Hc & Hd).
    destruct Hs as [Hs | [Hs | Hs]]; contradiction.
Qed.

(** C3, as the specification states it, fails for [cpuset]. *)
Lemma getLegacyControllerRWFiles_cpuset_counterexample :
  getLegacyControllerRWFiles "cpuset" = []
  /\ ~ (forall controller : string,
          "cgroup.procs" ∈ getLegacyControllerRWFiles controller).
Proof.
  assert (Hnil : getLegacyControllerRWFiles "cpuset" = []) by (vm_compute; reflexivity).
  split; [exact Hnil|].
  intros Hall. specialize (Hall "cpuset"). rewrite Hnil in Hall. inversion Hall.
Qed.

(** ** Isolator translation *)






(** ** [MaybeAddIsolator] *)

(** C5: with a nil limit, or for an isolator the kernel does not support,
    [MaybeAddIsolator] returns the options it was given, without an error;
    in the second case it writes one warning to standard error, in the
    first case nothing. *)
Theorem MaybeAddIsolator_unchanged (opts : list unit.UnitOption)
    (isolator : string) (limit : option resource.Quantity) :
  limit = None \/ IsIsolatorSupported isolator = Ok false ->
  MaybeAddIsolator opts isolator limit =
    (match limit with
     | None => []
     | Some _ => ["warning: resource/" +:+ isolator +:+
                  " isolator set but support disabled in the kernel, skipping"]
     end, Ok opts).
Proof.
  intros [-> | Hunsupported]; [reflexivity|].
  destruct limit as [limit|]; [|reflexivity].
  unfold MaybeAddIsolator. by rewrite Hunsupported.
Qed.

(** ** The legacy inventory *)

Lemma scanLegacyCgroups_lookup (ls : list string)
    (cgroups : gmap Z (list string)) (h : Z) :
  scanLegacyCgroups ls cgroups !! h =
    match group h (map Sscanf ls) with
    | [] => cgroups !! h
    | g => Some (default [] (cgroups !! h) ++ g)
    end.
Proof.
  revert cgroups. induction ls as [|text ls IH]; intros cgroups; [done|].
  cbn [scanLegacyCgroups map]. unfold group in *. rewrite filter_cons.
  destruct (Sscanf text) as [[[c hi] n] e] eqn:Hrow.
  rewrite IH. unfold rowEnabled, rowHierarchy. cbn [fst snd].
  set (g := map rowName (filter _ (map Sscanf ls))).
  destruct (Z.eqb_spec e 1) as [-> | Hne].
  - destruct (decide (1 = 1 /\ hi = h)) as [[_ ->] | Hhi].
    + cbn [map]. fold g. unfold rowName at 1. cbn [fst].
      destruct (cgroups !! h) as [cs|] eqn:Hcs; rewrite lookup_insert_eq;
        cbn [default]; destruct g; unfold id; cbn [app]; by rewrite <- ?app_assoc.
    + fold g. assert (Hne : hi <> h) by (intros ->; by apply Hhi).
      by destruct (cgroups !! hi) as [cs|] eqn:Hcs; rewrite lookup_insert_ne.
  - destruct (decide (e = 1 /\ hi = h)) as [[He _] | _]; [done|]. by fold g.
Qed.

Lemma elem_of_group (c : string) (h : Z) (rs : list (string * Z * Z * Z)) :
  c ∈ group h rs <-> exists num, (c, h, num, 1) ∈ rs.
Proof.
  unfold group. rewrite list_elem_of_fmap. split.
  - intros ([[[c' h'] num] e] & -> & Hin). apply list_elem_of_filter in Hin.
    destruct Hin as [[He Hh] Hin]. unfold rowEnabled, rowHierarchy in *.
    cbn in He, Hh. subst. by exists num.
  - intros [num Hin]. exists (c, h, num, 1). split; [done|].
    apply list_elem_of_filter. by split.
Qed.

Lemma NoDup_fmap_eq {A B : Type} (f : A -> B) (l : list A) (x y : A) :
  NoDup (f <$> l) -> x ∈ l -> y ∈ l -> f x = f y -> x = y.
Proof.
  induction l as [|a l IH]; intros Hnd Hx Hy Hxy; [inversion Hx|].
  rewrite fmap_cons in Hnd. apply NoDup_cons in Hnd as [Hnotin Hnd].
  apply elem_of_cons in Hx as [-> | Hx]; apply elem_of_cons in Hy as [-> | Hy].
  - done.
  - exfalso. apply Hnotin. rewrite Hxy. by apply list_elem_of_fmap_2.
  - exfalso. apply Hnotin. rewrite <- Hxy. by apply list_elem_of_fmap_2.
  - by apply IH.
Qed.

(** C6: when the inventory is read without error, the result maps each
    hierarchy id to the names on the enabled rows (enabled field 1) of that
    hierarchy, in file order, and holds no other group; a name is in a group
    exactly when an enabled row carries it with that hierarchy id; and, the
    enabled rows naming each controller once, no name is in two groups. *)
Theorem parseLegacyCgroups_groups (f : File) :
  readErr f = None ->
  NoDup (map rowName (enabledRows f)) ->
  exists cgroups : gmap Z (list string),
    parseLegacyCgroups f = Ok cgroups
    /\ (forall h cs, cgroups !! h = Some cs <-> cs <> [] /\ cs = group h (rows f))
    /\ (forall c h, (exists cs, cgroups !! h = Some cs /\ c ∈ cs)
                    <-> exists num, (c, h, num, 1) ∈ rows f)
    /\ (forall c h1 h2 cs1 cs2,
          cgroups !! h1 = Some cs1 -> c ∈ cs1 ->
          cgroups !! h2 = Some cs2 -> c ∈ cs2 -> h1 = h2).
Proof.
  intros Herr Hnodup. unfold parseLegacyCgroups. rewrite Herr.
  eexists. split; [reflexivity|].
  assert (Hlookup : forall h cs,
             scanLegacyCgroups (tail (lines f)) ∅ !! h = Some cs
             <-> cs <> [] /\ cs = group h (rows f)).
  { intros h cs. rewrite scanLegacyCgroups_lookup, lookup_empty. fold (rows f).
    destruct (group h (rows f)) as [|c g]; cbn [default app].
    - split; [discriminate|]. intros [Hne ->]. done.
    - split; [intros [= <-]; done | intros [_ ->]; done]. }
  split; [exact Hlookup|split].
  - intros c h. rewrite <- elem_of_group. split.
    + intros (cs & Hcs & Hin). apply Hlookup in Hcs as [_ ->]. done.
    + intros Hin. exists (group h (rows f)). split; [|done].
      apply Hlookup. split; [|done]. intros Hnil. rewrite Hnil in Hin. inversion Hin.
  - intros c h1 h2 cs1 cs2 Hcs1 Hin1 Hcs2 Hin2.
    apply Hlookup in Hcs1 as [_ ->]. apply Hlookup in Hcs2 as [_ ->].
    apply elem_of_group in Hin1 as [n1 Hr1]. apply elem_of_group in Hin2 as [n2 Hr2].
    assert (Heq : (c, h1, n1, 1) = (c, h2, n2, 1)).
    { apply (NoDup_fmap_eq rowName (enabledRows f)); [done| | |done];
        apply list_elem_of_filter; by split. }
    congruence.
Qed.

(** C7, as the code has it: the parser skips exactly one line, the first,
    whatever it holds; every later line, the second included, is read as a
    row of name, hierarchy id, number of cgroups and enabled, and an enabled
    row puts its name in the group of its hierarchy. *)
Theorem parseLegacyCgroups_header (f : File) :
  readErr f = None ->
  exists cgroups : gmap Z (list string),
    parseLegacyCgroups f = Ok cgroups
    /\ (forall (i : nat) text controller hierarchy num,
          (0 < i)%nat -> lines f !! i = Some text ->
          Sscanf text = (controller, hierarchy, num, 1) ->
          exists cs, cgroups !! hierarchy = Some cs /\ controller ∈ cs)
    /\ (forall first : string,
          parseLegacyCgroups {| lines := first :: tail (lines f); readErr := None |}
          = Ok cgroups).
Proof.
  intros Herr. unfold parseLegacyCgroups. rewrite Herr.
  eexists. split; [reflexivity|]. split; [|done].
  intros i text c h num Hi Hline Hrow.
  assert (Hin : c ∈ group h (rows f)).
  { apply elem_of_group. exists num. rewrite <- Hrow. unfold rows.
    apply list_elem_of_fmap_2. destruct (lines f) as [|l0 ls]; [done|].
    destruct i as [|i]; [lia|]. cbn in Hline. by eapply list_elem_of_lookup_2. }
  rewrite scanLegacyCgroups_lookup, lookup_empty. fold (rows f).
  destruct (group h (rows f)) as [|c0 g] eqn:Hg; [inversion Hin|].
  cbn [default app]. eauto.
Qed.

(** ** The legacy path resolver *)

Lemma Cut_app (a b : string) (sep : ascii) :
  mentions a sep = false ->
  strings.Cut (a +:+ String sep b) sep = Some (a, b).
Proof.
  induction a as [|x a IH]; simpl; intros Ha.
  - by rewrite Ascii.eqb_refl.
  - apply orb_false_iff in Ha as [Hx Ha]. by rewrite Hx, IH.
Qed.

Lemma Split_single (a : string) (sep : ascii) :
  mentions a sep = false -> strings.Split a sep = [a].
Proof.
  induction a as [|x a IH]; simpl; intros Ha; [done|].
  apply orb_false_iff in Ha as [Hx Ha]. by rewrite Hx, IH.
Qed.

Lemma Split_app (a b : string) (sep : ascii) :
  mentions a sep = false ->
  strings.Split (a +:+ String sep b) sep = a :: strings.Split b sep.
Proof.
  induction a as [|x a IH]; simpl; intros Ha.
  - by rewrite Ascii.eqb_refl.
  - apply orb_false_iff in Ha as [Hx Ha]. by rewrite Hx, IH.
Qed.

Lemma Split_Join (cs : list string) (sep : ascii) :
  cs <> [] ->
  Forall (fun c => mentions c sep = false) cs ->
  strings.Split (strings.Join cs (String sep "")) sep = cs.
Proof.
  unfold strings.Join. induction cs as [|c cs IH]; [done|]. intros _ Hall.
  apply Forall_cons in Hall as [Hc Hall].
  destruct cs as [|c' cs]; cbn [String.concat].
  - by apply Split_single.
  - change (strings.Split (c +:+ String sep (String.concat (String sep "") (c' :: cs))) sep
            = c :: c' :: cs).
    rewrite Split_app by done. f_equal. by apply IH.
Qed.

Lemma mentions_app (a b : string) (c : ascii) :
  mentions (a +:+ b) c = mentions a c || mentions b c.
Proof.
  induction a as [|x a IH]; simpl; [done|]. by rewrite IH, orb_assoc.
Qed.

Lemma mentions_Join (cs : list string) (sep : string) (c : ascii) :
  mentions sep c = false ->
  Forall (fun s => mentions s c = false) cs ->
  mentions (strings.Join cs sep) c = false.
Proof.
  unfold strings.Join. intros Hsep. induction cs as [|s cs IH]; intros Hall; [done|].
  apply Forall_cons in Hall as [Hs Hall].
  destruct cs as [|s' cs]; cbn [String.concat]; [done|].
  rewrite !mentions_app, Hs, Hsep. by apply IH.
Qed.

Lemma SplitN_cgroupLine (e : Membership) :
  wellFormed e ->
  strings.SplitN (cgroupLine e) ":"%char 3 =
    [hierarchyID e; strings.Join (controllerList e) ","; cgroupPath e].
Proof.
  intros (Hid & _ & Hcs). unfold cgroupLine. cbn [strings.SplitN].
  change (hierarchyID e +:+ ":" +:+ strings.Join (controllerList e) "," +:+ ":" +:+ cgroupPath e)
    with (hierarchyID e +:+
          String ":" (strings.Join (controllerList e) "," +:+ String ":" (cgroupPath e))).
  rewrite Cut_app by done. rewrite Cut_app; [done|].
  apply mentions_Join; [done|]. eapply Forall_impl; [exact Hcs|]. by intros c [Hc _].
Qed.

Lemma existsb_eqb_elem_of (x : string) (l : list string) :
  existsb (String.eqb x) l = true <-> x ∈ l.
Proof.
  induction l as [|y l IH]; simpl.
  - split; [discriminate|]. intros Hin. inversion Hin.
  - rewrite orb_true_iff, IH, elem_of_cons.
    destruct (String.eqb_spec x y) as [-> | Hne].
    + split; intros _; by left.
    + split; (intros [Hx | Hx]; [done | by right]).
Qed.

Lemma scanControllerLines_entries (entries : list Membership) (controller : string) :
  Forall wellFormed entries ->
  scanControllerLines (map cgroupLine entries) controller =
    match list_find (fun e => controller ∈ controllerList e) entries with
    | Some (_, e) => Ok [hierarchyID e; strings.Join (controllerList e) ","; cgroupPath e]
    | None => Err (Errorf "controller %q not found" [Str controller])
    end.
Proof.
  induction entries as [|e entries IH]; intros Hwf; [done|].
  apply Forall_cons in Hwf as [He Hwf].
  cbn [map scanControllerLines list_find]. rewrite SplitN_cgroupLine by done.
  cbn [List.length Nat.ltb Nat.leb index lookup list_lookup].
  change "," with (String ","%char "").
  destruct He as (_ & Hne & Hcs).
  rewrite Split_Join; [|done|eapply Forall_impl; [exact Hcs|]; by intros c [_ Hc]].
  destruct (decide (controller ∈ controllerList e)) as [Hin | Hnotin].
  - by rewrite (proj2 (existsb_eqb_elem_of _ _) Hin).
  - destruct (existsb _ _) eqn:Hex;
      [by apply existsb_eqb_elem_of in Hex|].
    rewrite IH by done. by destruct (list_find _ entries) as [[i e']|].
Qed.

(** C8: on a file in the format of [/proc/<pid>/cgroup], the resolver
    returns the third field of the first line whose second field, split on
    commas, holds the requested controller, and fails with "not found" when
    no line does. *)
Theorem GetLegacyCgroupPathByPid_first_match (pid : Z) (controller : string)
    (f : File) (entries : list Membership) :
  Open ("/proc/" +:+ strconv.Itoa pid +:+ "/cgroup") = inr f ->
  lines f = map cgroupLine entries ->
  Forall wellFormed entries ->
  GetLegacyCgroupPathByPid pid controller =
    match list_find (fun e => controller ∈ controllerList e) entries with
    | Some (_, e) => Ok (cgroupPath e)
    | None => Err (Errorf "controller %q not found" [Str controller])
    end.
Proof.
  intros Hopen Hlines Hwf.
  unfold GetLegacyCgroupPathByPid, parseLegacyCgroupController.
  rewrite Hopen, Hlines, scanControllerLines_entries by done.
  by destruct (list_find _ entries) as [[i e]|].
Qed.

(** ** Computations that issue calls *)

Lemma bind_run {A B : Type} (m : M A) (k : A -> M B) (h h1 : list call)
    (r1 : result A) :
  m h = (h1, r1) ->
  (m ≫= k) h = match r1 with
               | Ok a => k a h1
               | Err e => (h1, Err e)
               | Panic => (h1, Panic)
               end.
Proof.
  intros Hm. unfold mbind, M_bind, bind. rewrite Hm. by destruct r1.
Qed.

Lemma emits_ret {A : Type} (P : call -> Prop) (a : A) : emits P (mret a).
Proof. intros h. exists [], (Ok a). by rewrite app_nil_r. Qed.

Lemma emits_fail {A : Type} (P : call -> Prop) (e : error) :
  emits P (fail e : M A).
Proof. intros h. exists [], (Err e). by rewrite app_nil_r. Qed.

Lemma emits_sys (P : call -> Prop) (c : call) : P c -> emits P (sys c).
Proof.
  intros Hc h. exists [c], (Ok (kernel h c)).
  split; [done|]. split; [by apply Forall_singleton | done].
Qed.

Lemma emits_bind {A B : Type} (P : call -> Prop) (m : M A) (k : A -> M B) :
  emits P m -> (forall a, emits P (k a)) -> emits P (m ≫= k).
Proof.
  intros Hm Hk h. destruct (Hm h) as (d1 & r1 & Hrun & Hd1 & Hr1).
  rewrite (bind_run _ _ _ _ _ Hrun). destruct r1 as [a|e|]; [|by eauto|done].
  destruct (Hk a (h ++ d1)) as (d2 & r2 & Hrun2 & Hd2 & Hr2).
  exists (d1 ++ d2), r2. rewrite Hrun2, app_assoc.
  split; [done|]. split; [by apply Forall_app | done].
Qed.

Lemma emits_forEach {A : Type} (P : call -> Prop) (xs : list A)
    (body : A -> M ()) :
  (forall x, x ∈ xs -> emits P (body x)) -> emits P (forEach xs body).
Proof.
  induction xs as [|x xs IH]; intros Hbody; cbn [forEach].
  - apply emits_ret.
  - apply emits_bind; [apply Hbody; left|].
    intros _. apply IH. intros y Hy. apply Hbody. by right.
Qed.

Create HintDb emits.
#[local] Hint Resolve emits_ret emits_fail emits_sys : emits.

Lemma emits_mkdirAll (P : call -> Prop) (path : string) (perm : Z) :
  P (MkdirAll path perm) -> emits P (mkdirAll path perm).
Proof.
  intros Hc. apply emits_bind; [by apply emits_sys|].
  intros r. destruct (errno r); auto with emits.
Qed.

(** ** The legacy lockdown *)

Section LegacyLockdown.

Variables (root subcgroup : string) (serviceNames : list string).

Local Abbreviation knob := (knobCall root subcgroup serviceNames).
Local Abbreviation blockOf := (block root subcgroup serviceNames).
Local Abbreviation endingOf := (ending root subcgroup serviceNames).




Lemma app_cons_split {A : Type} (l1 l2 a b : list A) (x : A) :
  l1 ++ x :: l2 = a ++ b ->
  (exists a2, a = l1 ++ x :: a2 /\ l2 = a2 ++ b)
  \/ (exists b1, l1 = a ++ b1 /\ b = b1 ++ x :: l2).
Proof.
  revert l1. induction a as [|y a IH]; intros l1 Heq.
  - right. by exists l1.
  - destruct l1 as [|z l1]; simplify_eq/=.
    + left. by exists a.
    + destruct (IH l1 H0) as [(a2 & -> & ->) | (b1 & -> & ->)].
      * left. by exists a2.
      * right. by exists b1.
Qed.

Lemma singleton_split {A : Type} (a b : A) (l1 l2 : list A) :
  [a] = l1 ++ b :: l2 -> a = b /\ l2 = [].
Proof.
  destruct l1 as [|x [|y l1]]; intros Heq; injection Heq as Hx Hrest;
    [by subst | discriminate Hrest | discriminate Hrest].
Qed.


Lemma bindMount_ne_remountRO (p q : string) : bindMount q <> remountRO p.
Proof. unfold bindMount, remountRO. intros [= _ Hflags]. Qed.











End LegacyLockdown.

(** ** The hierarchy builders *)

Lemma aborting_ret (tol : call -> Z -> Prop) : aborting tol (mret ()).
Proof.
  intros h. exists [], (Ok ()). rewrite app_nil_r. split; [done|].
  split; [|by left]. intros l1 c l2 e Heq. by destruct l1.
Qed.

Lemma aborting_step (tol : call -> Z -> Prop) (c : call) (k : Z -> M ()) :
  (forall e, (tol c e /\ k e = mret ())
             \/ (~ tol c e /\ exists err, k e = fail err /\ cause err = Errno e)) ->
  aborting tol (r ← sys c; match errno r with Some e => k e | None => mret () end).
Proof.
  intros Hk h. unfold sys, mbind, M_bind, bind.
  assert (Hone : forall l1 c' l2, [c] = l1 ++ c' :: l2 -> c' = c /\ l1 = [] /\ l2 = []).
  { intros l1 c' l2 Heq. destruct (singleton_split _ _ _ _ Heq) as [<- ->].
    destruct l1 as [|x l1]; [done | by destruct l1]. }
  destruct (errno (kernel h c)) as [e|] eqn:He.
  - destruct (Hk e) as [[Htol ->] | (Hno & err & -> & Hcause)].
    + exists [c], (Ok ()). split; [done|]. split; [|by left].
      intros l1 c' l2 e' Heq. destruct (Hone _ _ _ Heq) as (-> & -> & ->).
      rewrite app_nil_r, He. by intros [= <-] Hno.
    + exists [c], (Err err). split; [done|]. split.
      * intros l1 c' l2 e' Heq. destruct (Hone _ _ _ Heq) as (-> & -> & ->).
        rewrite app_nil_r, He. intros [= <-] _. eauto.
      * right. exists [], c, e, err. by rewrite app_nil_r.
  - exists [c], (Ok ()). split; [done|]. split; [|by left].
    intros l1 c' l2 e' Heq. destruct (Hone _ _ _ Heq) as (-> & -> & ->).
    rewrite app_nil_r, He. discriminate.
Qed.

Lemma aborting_bind (tol : call -> Z -> Prop) (m k : M ()) :
  aborting tol m -> aborting tol k -> aborting tol (m;; k).
Proof.
  intros Hm Hk h. destruct (Hm h) as (d1 & r1 & Hrun & Hfirst1 & Hlast1).
  rewrite (bind_run _ _ _ _ _ Hrun). destruct r1 as [[]|err1|].
  - destruct (Hk (h ++ d1)) as (d2 & r2 & Hrun2 & Hfirst2 & Hlast2).
    exists (d1 ++ d2), r2. rewrite Hrun2, app_assoc. split; [done|]. split.
    + intros l1 c l2 e Heq He Hno.
      apply eq_sym, app_cons_split in Heq as [(a2 & -> & ->) | (b1 & -> & ->)].
      * destruct (Hfirst1 l1 c a2 e eq_refl He Hno) as (_ & err & Herr & _).
        discriminate Herr.
      * rewrite app_assoc in He. by apply (Hfirst2 b1 c l2 e).
    + destruct Hlast2 as [-> | (l1 & c & e & err & -> & He & Hno & ->)]; [by left|].
      right. exists (d1 ++ l1), c, e, err. rewrite <- app_assoc in He.
      split; [by rewrite app_assoc | done].
  - exists d1, (Err err1). split; [done|]. split; [done|].
    destruct Hlast1 as [Hok | Hlast1]; [discriminate Hok | by right].
  - destruct Hlast1 as [Hok | (l1 & c & e & err & _ & _ & _ & Herr)];
      [discriminate Hok | discriminate Herr].
Qed.

Lemma aborting_forEach {A : Type} (tol : call -> Z -> Prop) (xs : list A)
    (body : A -> M ()) :
  (forall x, aborting tol (body x)) -> aborting tol (forEach xs body).
Proof.
  intros Hbody. induction xs as [|x xs IH]; cbn [forEach].
  - apply aborting_ret.
  - by apply aborting_bind.
Qed.

Lemma aborting_mkdirAll (tol : call -> Z -> Prop) (path : string) (perm : Z) :
  (forall e, ~ tol (MkdirAll path perm) e) ->
  aborting tol (mkdirAll path perm).
Proof.
  intros Hno. apply (aborting_step tol _ (fun e => fail (Errno e))).
  intros e. right. split; [apply Hno | by eexists].
Qed.

Lemma aborting_mountFsRO (tol : call -> Z -> Prop) (mountPoint : string) :
  (forall e, ~ tol (remountRO mountPoint) e) ->
  aborting tol (mountFsRO mountPoint).
Proof.
  intros Hno.
  apply (aborting_step tol _
           (fun e => fail (Wrap (Errorf "error remounting RO %q" [Str mountPoint]) (Errno e)))).
  intros e. right. split; [apply Hno | by eexists].
Qed.

Lemma CreateLegacyCgroups_aborting (root : string)
    (enabledCgroups : gmap Z (list string)) (mountContext : string) :
  aborting (fun c e => c = sysfsMount root /\ e = EBUSY)
           (CreateLegacyCgroups root enabledCgroups mountContext).
Proof.
  unfold CreateLegacyCgroups.
  apply aborting_bind; [apply aborting_mkdirAll; by intros e [Hc _]|].
  apply aborting_bind.
  { apply (aborting_step _ _
             (fun e => if negb (e =? EBUSY)
                       then fail (Wrap (Errorf "error mounting %q"
                                          [Str (filepath.Join [root; "/sys"])]) (Errno e))
                       else mret ())).
    intros e. destruct (Z.eqb_spec e EBUSY) as [-> | Hne]; cbn [negb].
    - by left.
    - right. split; [by intros [_ He] | by eexists]. }
  apply aborting_bind; [apply aborting_mkdirAll; by intros e [Hc _]|].
  apply aborting_bind.
  { apply (aborting_step _ _
             (fun e => fail (Wrap (Errorf "error mounting %q"
                                     [Str (filepath.Join [root; "/sys/fs/cgroup"])]) (Errno e)))).
    intros e. right. split; [by intros [Hc _] | by eexists]. }
  apply aborting_bind.
  { apply aborting_forEach. intros c.
    apply aborting_bind; [apply aborting_mkdirAll; by intros e [Hc _]|].
    apply (aborting_step _ _
             (fun e => fail (Wrap (Errorf "error mounting %q"
                                     [Str (filepath.Join [root; "/sys/fs/cgroup"; c])]) (Errno e)))).
    intros e. right. split; [by intros [Hc _] | by eexists]. }
  apply aborting_bind.
  { apply aborting_forEach. intros [ln tgt].
    apply (aborting_step _ _
             (fun e => fail (Wrap (Errorf "error creating symlink" []) (Errno e)))).
    intros e. right. split; [by intros [Hc _] | by eexists]. }
  apply aborting_bind; [apply aborting_mkdirAll; by intros e [Hc _]|].
  apply aborting_mountFsRO. by intros e [Hc _].
Qed.

Lemma CreateCgroups_aborting (root : string) :
  aborting (fun _ _ => False) (CreateCgroups root).
Proof.
  unfold CreateCgroups.
  apply aborting_bind; [apply aborting_mkdirAll; by intros e []|].
  apply aborting_bind.
  { apply (aborting_step _ _
             (fun e => fail (Wrap (Errorf "error mounting %q"
                                     [Str (filepath.Join [root; "/sys"])]) (Errno e)))).
    intros e. right. split; [by intros [] | by eexists]. }
  apply aborting_bind; [apply aborting_mkdirAll; by intros e []|].
  apply aborting_bind.
  { apply (aborting_step _ _
             (fun e => fail (Wrap (Errorf "error mounting %q"
                                     [Str (filepath.Join [root; "/sys/fs/cgroup"])]) (Errno e)))).
    intros e. right. split; [by intros [] | by eexists]. }
  apply aborting_bind; [apply aborting_mkdirAll; by intros e []|].
  apply aborting_ret.
Qed.

(** ** The unified lockdown *)

Lemma getControllersRWFiles_list :
  getControllersRWFiles =
    ["cgroup.procs"; "cgroup.controllers"; "cgroup.subtree_control";
     "cgroup.events"; "memory.low"; "memory.high"; "memory.max";
     "memory.swap.max"].
Proof.
  unfold getControllersRWFiles.
  pose proof (rangeRWFiles_entries cgroupControllerRWFiles) as Hrange.
  unfold cgroupControllerRWFiles in Hrange at 2.
  rewrite insert_empty, map_to_list_singleton in Hrange.
  apply Permutation_singleton_r in Hrange. by rewrite Hrange.
Qed.

(** The calls of the unified lockdown: at most four, in this order, all of
    them exactly when none fails; and the list of [getControllersRWFiles]. *)
Lemma RemountCgroupsRO_four_calls (root subcgroup : string)
    (serviceNames : list string) (h : list call) :
  let subcgroupPath := filepath.Join [root; "sys/fs/cgroup"; subcgroup] in
  let c1 := MkdirAll subcgroupPath 448 in
  let c2 := bindMount (strings.TrimSuffix subcgroupPath "/system.slice") in
  let c3 := remountRO (filepath.Join [root; "sys/fs/cgroup"]) in
  let c4 := remountRO (filepath.Join [root; "/sys"]) in
  (exists d r,
      RemountCgroupsRO root subcgroup serviceNames h = (h ++ d, r)
      /\ d `prefix_of` [c1; c2; c3; c4]
      /\ (r = Ok () -> d = [c1; c2; c3; c4])
      /\ (r = Ok () <-> errno (kernel h c1) = None
                        /\ errno (kernel (h ++ [c1]) c2) = None
                        /\ errno (kernel (h ++ [c1; c2]) c3) = None
                        /\ errno (kernel (h ++ [c1; c2; c3]) c4) = None))
  /\ getControllersRWFiles =
       ["cgroup.procs"; "cgroup.controllers"; "cgroup.subtree_control";
        "cgroup.events"; "memory.low"; "memory.high"; "memory.max";
        "memory.swap.max"].
Proof.
  intros subcgroupPath c1 c2 c3 c4. split; [|apply getControllersRWFiles_list].
  unfold RemountCgroupsRO, mkdirAll, sys, mbind, M_bind, bind, mret, M_ret, ret, fail.
  fold subcgroupPath. fold c1 c2 c3 c4.
  replace (h ++ [c1; c2]) with ((h ++ [c1]) ++ [c2]) by (by rewrite <- app_assoc).
  replace (h ++ [c1; c2; c3]) with (((h ++ [c1]) ++ [c2]) ++ [c3])
    by (by rewrite <- !app_assoc).
  destruct (errno (kernel h c1)) as [e1|].
  { exists [c1], (Err (Errno e1)). split; [done|]. split; [by exists [c2; c3; c4]|].
    split; [discriminate|]. split; [discriminate | by intros [? _]]. }
  destruct (errno (kernel (h ++ [c1]) c2)) as [e2|].
  { eexists [c1; c2], _. rewrite <- app_assoc. split; [reflexivity|].
    split; [by exists [c3; c4]|].
    split; [discriminate|]. split; [discriminate | by intros (_ & ? & _)]. }
  destruct (errno (kernel ((h ++ [c1]) ++ [c2]) c3)) as [e3|].
  { eexists [c1; c2; c3], _. rewrite <- !app_assoc. split; [reflexivity|].
    split; [by exists [c4]|].
    split; [discriminate|]. split; [discriminate | by intros (_ & _ & ? & _)]. }
  destruct (errno (kernel (((h ++ [c1]) ++ [c2]) ++ [c3]) c4)) as [e4|].
  { eexists [c1; c2; c3; c4], _. rewrite <- !app_assoc. split; [reflexivity|].
    split; [by exists []|].
    split; [discriminate|]. split; [discriminate | by intros (_ & _ & _ & ?)]. }
  eexists [c1; c2; c3; c4], _. rewrite <- !app_assoc. split; [reflexivity|].
  split; [by exists []|]. done.
Qed.

Lemma RemountCgroupsRO_aborting (root subcgroup : string) (serviceNames : list string) :
  aborting (fun _ _ => False) (RemountCgroupsRO root subcgroup serviceNames).
Proof.
  unfold RemountCgroupsRO.
  apply aborting_bind; [apply aborting_mkdirAll; by intros e []|].
  apply aborting_bind.
  { apply (aborting_step _ _
             (fun e => fail (Wrap (Errorf "error bind mounting %q"
                                     [Str (filepath.Join [root; "sys/fs/cgroup"; subcgroup])])
                                  (Errno e)))).
    intros e. right. split; [by intros [] | by eexists]. }
  apply aborting_bind.
  { apply (aborting_step _ _
             (fun e => fail (Wrap (Errorf "error remounting RO %q"
                                     [Str (filepath.Join [root; "sys/fs/cgroup"])])
                                  (Errno e)))).
    intros e. right. split; [by intros [] | by eexists]. }
  apply (aborting_step _ _
           (fun e => fail (Wrap (Errorf "error remounting RO %q"
                                   [Str (filepath.Join [root; "/sys"])]) (Errno e)))).
  intros e. right. split; [by intros [] | by eexists].
Qed.

(** C2, as the code has it: the unified lockdown issues at most four calls,
    in this order: it creates the subcgroup directory, bind-mounts the
    machine directory (the subcgroup path without a trailing
    [/system.slice]) onto itself, remounts the cgroup tree read-only and
    remounts [<root>/sys] read-only.  It stops at the first call that fails:
    a call that fails is the last call of the run, and its error is the
    cause of the error returned; the run succeeds exactly when none of the
    four fails, and has then issued all four.  No file of the whitelist is
    looked up or bind-mounted, the list of [getControllersRWFiles], which is
    the eight names of the specification, not being consulted. *)
Theorem RemountCgroupsRO_calls (root subcgroup : string)
    (serviceNames : list string) (h : list call) :
  let subcgroupPath := filepath.Join [root; "sys/fs/cgroup"; subcgroup] in
  let c1 := MkdirAll subcgroupPath 448 in
  let c2 := bindMount (strings.TrimSuffix subcgroupPath "/system.slice") in
  let c3 := remountRO (filepath.Join [root; "sys/fs/cgroup"]) in
  let c4 := remountRO (filepath.Join [root; "/sys"]) in
  (exists d r,
      RemountCgroupsRO root subcgroup serviceNames h = (h ++ d, r)
      /\ d `prefix_of` [c1; c2; c3; c4]
      /\ (r = Ok () -> d = [c1; c2; c3; c4])
      /\ (r = Ok () <-> errno (kernel h c1) = None
                        /\ errno (kernel (h ++ [c1]) c2) = None
                        /\ errno (kernel (h ++ [c1; c2]) c3) = None
                        /\ errno (kernel (h ++ [c1; c2; c3]) c4) = None)
      /\ (forall l1 c l2 e,
            d = l1 ++ c :: l2 -> errno (kernel (h ++ l1) c) = Some e ->
            l2 = [] /\ exists err, r = Err err /\ cause err = Errno e))
  /\ getControllersRWFiles =
       ["cgroup.procs"; "cgroup.controllers"; "cgroup.subtree_control";
        "cgroup.events"; "memory.low"; "memory.high"; "memory.max";
        "memory.swap.max"].
Proof.
  intros subcgroupPath c1 c2 c3 c4.
  destruct (RemountCgroupsRO_four_calls root subcgroup serviceNames h)
    as [(d & r & Hrun & Hprefix & Hall & Hok) Hlist].
  split; [|exact Hlist].
  destruct (RemountCgroupsRO_aborting root subcgroup serviceNames h)
    as (d' & r' & Hrun' & Hfirst & _).
  rewrite Hrun in Hrun'. injection Hrun' as Hd <-. apply app_inv_head in Hd as <-.
  exists d, r. split; [exact Hrun|]. split; [exact Hprefix|]. split; [exact Hall|].
  split; [exact Hok|]. intros l1 c l2 e Heq He.
  exact (Hfirst l1 c l2 e Heq He (fun F => F)).
Qed.

(** * Further properties of the package *)

(** ** Controller directories and symbolic links *)

Lemma elem_of_rangeCgroups (cgroups : gmap Z (list string)) (h : Z) (cs : list string) :
  (h, cs) ∈ rangeCgroups cgroups <-> cgroups !! h = Some cs.
Proof. by rewrite (rangeCgroups_entries cgroups), elem_of_map_to_list. Qed.

Lemma elem_of_GetLegacyControllerDirs (cgroups : gmap Z (list string)) (c : string) :
  c ∈ GetLegacyControllerDirs cgroups
  <-> exists h cs, cgroups !! h = Some cs /\ c = strings.Join cs ",".
Proof.
  rewrite (GetLegacyControllerDirs_entries cgroups), list_elem_of_fmap. split.
  - intros ([h cs] & -> & Hin). apply elem_of_map_to_list in Hin. by exists h, cs.
  - intros (h & cs & Hm & ->). exists (h, cs). split; [done|].
    by apply elem_of_map_to_list.
Qed.

(** X1: [GetLegacyControllerDirs] returns one name per hierarchy: a name is
    returned exactly when it is the comma-joined controller list of a
    hierarchy, and there are as many names as hierarchies. *)
Theorem GetLegacyControllerDirs_spec (cgroups : gmap Z (list string)) :
  (forall c, c ∈ GetLegacyControllerDirs cgroups
             <-> exists h cs, cgroups !! h = Some cs /\ c = strings.Join cs ",")
  /\ List.length (GetLegacyControllerDirs cgroups) = size cgroups.
Proof.
  split.
  - apply elem_of_GetLegacyControllerDirs.
  - by rewrite (GetLegacyControllerDirs_entries cgroups), length_fmap, length_map_to_list.
Qed.

Lemma length_append (a b : string) :
  String.length (a +:+ b) = (String.length a + String.length b)%nat.
Proof.
  induction a as [|x a IH]; [done|].
  change (S (String.length (a +:+ b)) = S (String.length a + String.length b)).
  by f_equal.
Qed.

Lemma Join_cons_cons (c c' : string) (cs : list string) (sep : string) :
  strings.Join (c :: c' :: cs) sep = c +:+ sep +:+ strings.Join (c' :: cs) sep.
Proof. reflexivity. Qed.

Lemma length_Join_ge (cs : list string) (sep x : string) :
  x ∈ cs -> (String.length x <= String.length (strings.Join cs sep))%nat.
Proof.
  induction cs as [|c cs IH]; intros Hin; [inversion Hin|].
  destruct cs as [|c' cs].
  - apply list_elem_of_singleton in Hin as ->. done.
  - rewrite Join_cons_cons, !length_append.
    apply elem_of_cons in Hin as [-> | Hin]; [lia|].
    specialize (IH Hin). lia.
Qed.

Lemma length_Join_gt (cs : list string) (x : string) :
  x ∈ cs -> (1 < List.length cs)%nat ->
  (String.length x < String.length (strings.Join cs ","))%nat.
Proof.
  intros Hin Hlen. destruct cs as [|c [|c' cs]]; cbn in Hlen; [lia..|].
  rewrite Join_cons_cons, !length_append. cbn [String.length].
  apply elem_of_cons in Hin as [-> | Hin]; [lia|].
  pose proof (length_Join_ge (c' :: cs) "," x Hin). lia.
Qed.

Lemma link_all_lookup (cs : list string) (tgt : string)
    (symlinks : gmap string string) (ln : string) :
  fold_left (fun symlinks ln => <[ln := tgt]> symlinks) cs symlinks !! ln
  = if decide (ln ∈ cs) then Some tgt else symlinks !! ln.
Proof.
  revert symlinks. induction cs as [|c cs IH]; intros symlinks; cbn [fold_left].
  - rewrite decide_False; [done|]. intros Hin. inversion Hin.
  - rewrite IH. destruct (decide (ln ∈ cs)) as [Hin | Hnotin].
    + rewrite decide_True; [done | by right].
    + destruct (decide (ln = c)) as [-> | Hne].
      * rewrite lookup_insert_eq, decide_True; [done | left].
      * rewrite lookup_insert_ne by done. rewrite decide_False; [done|].
        intros Hin. apply elem_of_cons in Hin as [? | ?]; done.
Qed.

(** The loop of [getLegacyControllerSymlinks] over the hierarchies. *)
Lemma symlinks_sound (l : list (Z * list string)) (symlinks : gmap string string)
    (ln tgt : string) :
  fold_left
    (fun symlinks '(_, cs) =>
       if (1 <? List.length cs)%nat then
         let tgt := strings.Join cs "," in
         fold_left (fun symlinks ln => <[ln := tgt]> symlinks) cs symlinks
       else symlinks) l symlinks !! ln = Some tgt ->
  symlinks !! ln = Some tgt
  \/ exists h cs, (h, cs) ∈ l /\ (1 < List.length cs)%nat /\ ln ∈ cs
                  /\ tgt = strings.Join cs ",".
Proof.
  revert symlinks. induction l as [|[h cs] l IH]; intros symlinks; cbn [fold_left].
  - by left.
  - intros Hlook. apply IH in Hlook as [Hlook | (h' & cs' & Hin & Hrest)].
    + destruct (Nat.ltb_spec 1 (List.length cs)) as [Hlen | Hlen]; [|by left].
      cbv zeta in Hlook. rewrite link_all_lookup in Hlook.
      destruct (decide (ln ∈ cs)) as [Hin | Hnotin]; [|by left].
      right. exists h, cs. split; [left|]. by simplify_eq.
    + right. exists h', cs'. split; [by right | done].
Qed.

Lemma symlinks_complete (l : list (Z * list string)) (symlinks : gmap string string)
    (ln tgt : string) :
  (forall h cs, (h, cs) ∈ l -> (1 < List.length cs)%nat -> ln ∈ cs ->
                strings.Join cs "," = tgt) ->
  (symlinks !! ln = Some tgt
   \/ exists h cs, (h, cs) ∈ l /\ (1 < List.length cs)%nat /\ ln ∈ cs) ->
  fold_left
    (fun symlinks '(_, cs) =>
       if (1 <? List.length cs)%nat then
         let tgt := strings.Join cs "," in
         fold_left (fun symlinks ln => <[ln := tgt]> symlinks) cs symlinks
       else symlinks) l symlinks !! ln = Some tgt.
Proof.
  revert symlinks. induction l as [|[h cs] l IH]; intros symlinks Hall Hsome;
    cbn [fold_left].
  - destruct Hsome as [? | (h & cs & Hin & _)]; [done | inversion Hin].
  - apply IH.
    { intros h' cs' Hin. apply (Hall h' cs'). by right. }
    destruct (Nat.ltb_spec 1 (List.length cs)) as [Hlen | Hlen].
    + cbv zeta. rewrite link_all_lookup.
      destruct (decide (ln ∈ cs)) as [Hin | Hnotin].
      * left. f_equal. apply (Hall h cs); [left | done..].
      * destruct Hsome as [? | (h' & cs' & Hin & Hlen' & Hln)]; [by left|].
        apply elem_of_cons in Hin as [[= -> ->] | Hin]; [done|].
        right. by exists h', cs'.
    + destruct Hsome as [? | (h' & cs' & Hin & Hlen' & Hln)]; [by left|].
      apply elem_of_cons in Hin as [[= -> ->] | Hin]; [lia|].
      right. by exists h', cs'.
Qed.

(** X2: a symbolic link of [getLegacyControllerSymlinks] always comes from a
    hierarchy of at least two controllers: its name is one of them, its
    target is the comma-joined list of all of them, which is one of the
    directories of [GetLegacyControllerDirs]; and no link points to
    itself. *)
Theorem getLegacyControllerSymlinks_sound (cgroups : gmap Z (list string))
    (ln tgt : string) :
  getLegacyControllerSymlinks cgroups !! ln = Some tgt ->
  (exists h cs, cgroups !! h = Some cs /\ (1 < List.length cs)%nat /\ ln ∈ cs
                /\ tgt = strings.Join cs ",")
  /\ tgt ∈ GetLegacyControllerDirs cgroups
  /\ ln <> tgt.
Proof.
  intros Hlook. unfold getLegacyControllerSymlinks in Hlook.
  apply symlinks_sound in Hlook as [Hempty | (h & cs & Hin & Hlen & Hln & ->)].
  { rewrite lookup_empty in Hempty. discriminate Hempty. }
  apply elem_of_rangeCgroups in Hin. split; [by exists h, cs|]. split.
  - apply elem_of_GetLegacyControllerDirs. by exists h, cs.
  - intros Heq. pose proof (length_Join_gt cs ln Hln Hlen) as Hlt.
    rewrite <- Heq in Hlt. lia.
Qed.

(** X3: every controller of a hierarchy of at least two controllers gets a
    link to the directory of the hierarchy, provided no other hierarchy
    lists it; and a name that no hierarchy of at least two controllers lists
    gets no link. *)
Theorem getLegacyControllerSymlinks_complete (cgroups : gmap Z (list string))
    (h : Z) (cs : list string) (ln : string) :
  cgroups !! h = Some cs ->
  (forall h' cs', cgroups !! h' = Some cs' -> ln ∈ cs' -> h' = h) ->
  getLegacyControllerSymlinks cgroups !! ln =
    if decide (ln ∈ cs /\ (1 < List.length cs)%nat)
    then Some (strings.Join cs ",") else None.
Proof.
  intros Hcs Honly. destruct (decide _) as [[Hln Hlen] | Hno].
  - unfold getLegacyControllerSymlinks. apply symlinks_complete.
    + intros h' cs' Hin _ Hln'. apply elem_of_rangeCgroups in Hin.
      assert (h' = h) as -> by by eapply Honly. congruence.
    + right. exists h, cs. split; [by apply elem_of_rangeCgroups | done].
  - destruct (getLegacyControllerSymlinks cgroups !! ln) as [tgt|] eqn:Hlook; [|done].
    unfold getLegacyControllerSymlinks in Hlook.
    apply symlinks_sound in Hlook as [Hempty | (h' & cs' & Hcs' & Hlen & Hln & _)].
    { rewrite lookup_empty in Hempty. discriminate Hempty. }
    apply elem_of_rangeCgroups in Hcs'.
    assert (h' = h) as -> by by eapply Honly.
    exfalso. apply Hno. by simplify_eq.
Qed.

(** ** Isolator support *)

Lemma anyHasPrefix_spec (ls : list string) (isolator : string) :
  anyHasPrefix ls isolator = true
  <-> exists text, text ∈ ls /\ strings.HasPrefix text isolator = true.
Proof.
  induction ls as [|text ls IH]; cbn [anyHasPrefix].
  - split; [discriminate|]. intros (text & Hin & _). inversion Hin.
  - destruct (strings.HasPrefix text isolator) eqn:Hp.
    + split; [|done]. intros _. exists text. split; [left | done].
    + rewrite IH. split.
      * intros (t & Hin & Ht). exists t. split; [by right | done].
      * intros (t & Hin & Ht). apply elem_of_cons in Hin as [-> | Hin]; [congruence|].
        by exists t.
Qed.

Lemma elem_of_tail (ls : list string) (text : string) :
  text ∈ tail ls <-> exists i : nat, (0 < i)%nat /\ ls !! i = Some text.
Proof.
  destruct ls as [|l0 ls]; cbn [tail].
  - split; [intros Hin; inversion Hin|]. by intros (i & _ & Hi).
  - rewrite list_elem_of_lookup. split.
    + intros [i Hi]. exists (S i). split; [lia | done].
    + intros (i & Hpos & Hi). destruct i as [|i]; [lia|]. by exists i.
Qed.

(** X4: [IsIsolatorSupported] answers true exactly when [/proc/cgroups]
    opens and one of its lines after the first starts with the name, whatever
    the rest of the line says (the [enabled] column is not read) and
    whatever error reading meets afterwards; it fails exactly when the file
    does not open, or when no line matches and reading ended on an error. *)
Theorem IsIsolatorSupported_spec (isolator : string) :
  (IsIsolatorSupported isolator = Ok true
   <-> exists f, Open "/proc/cgroups" = inr f
                 /\ exists (i : nat) text, (0 < i)%nat /\ lines f !! i = Some text
                      /\ strings.HasPrefix text isolator = true)
  /\ (forall e, IsIsolatorSupported isolator = Err e
      <-> Open "/proc/cgroups" = inl e
          \/ exists f, Open "/proc/cgroups" = inr f /\ readErr f = Some e
                       /\ forall (i : nat) text, (0 < i)%nat -> lines f !! i = Some text ->
                                         strings.HasPrefix text isolator = false).
Proof.
  unfold IsIsolatorSupported. destruct (Open "/proc/cgroups") as [e0|f].
  { split.
    - split; [discriminate|]. intros (f & Hf & _). discriminate Hf.
    - intros e. split.
      + intros [= ->]. by left.
      + intros [[= ->] | (f & Hf & _)]; [done | discriminate Hf]. }
  assert (Hany : anyHasPrefix (tail (lines f)) isolator = true
                 <-> exists (i : nat) text, (0 < i)%nat /\ lines f !! i = Some text
                       /\ strings.HasPrefix text isolator = true).
  { rewrite anyHasPrefix_spec. split.
    - intros (text & Hin & Hp). apply elem_of_tail in Hin as (i & Hi & Hl).
      by exists i, text.
    - intros (i & text & Hi & Hl & Hp). exists text. split; [|done].
      apply elem_of_tail. by exists i. }
  destruct (anyHasPrefix (tail (lines f)) isolator) eqn:Ha.
  - split.
    + split; [|done]. intros _. exists f. split; [done|]. by apply Hany.
    + intros e. split; [discriminate|].
      intros [Hopen | (f' & [= <-] & _ & Hnone)]; [discriminate Hopen|].
      destruct (proj1 Hany eq_refl) as (i & text & Hi & Hl & Hp).
      rewrite (Hnone i text Hi Hl) in Hp. discriminate Hp.
  - assert (Hnone : forall (i : nat) text, (0 < i)%nat -> lines f !! i = Some text ->
                      strings.HasPrefix text isolator = false).
    { intros i text Hi Hl. destruct (strings.HasPrefix text isolator) eqn:Hp; [|done].
      assert (false = true) as Habs by (apply Hany; by exists i, text). discriminate Habs. }
    split.
    + split.
      * destruct (readErr f); discriminate.
      * intros (f' & [= <-] & Hex). apply Hany in Hex. discriminate Hex.
    + intros e. destruct (readErr f) as [e'|] eqn:He.
      * split.
        -- intros [= ->]. right. by exists f.
        -- intros [Hopen | (f' & [= <-] & Herr & _)]; [discriminate Hopen|]. congruence.
      * split; [discriminate|].
        intros [Hopen | (f' & [= <-] & Herr & _)]; [discriminate Hopen | congruence].
Qed.

Lemma prefix_trans (p s t : string) :
  String.prefix p s = true -> String.prefix s t = true -> String.prefix p t = true.
Proof.
  revert s t. induction p as [|a p IH]; intros s t Hps Hst; [by destruct t|].
  destruct s as [|b s]; [discriminate Hps|]. destruct t as [|c t]; [discriminate Hst|].
  cbn in *. destruct (ascii_dec a b) as [-> | ]; [|discriminate Hps].
  destruct (ascii_dec b c) as [-> | ]; [|discriminate Hst]. by eapply IH.
Qed.

(** X5: support is reported by prefix: when a name is reported as
    supported, so is every prefix of it (["cpu"] whenever ["cpuset"] or
    ["cpuacct"] is, and the empty name whenever any name is). *)
Theorem IsIsolatorSupported_prefix (isolator shorter : string) :
  IsIsolatorSupported isolator = Ok true ->
  strings.HasPrefix isolator shorter = true ->
  IsIsolatorSupported shorter = Ok true.
Proof.
  unfold IsIsolatorSupported. intros Hsup Hpre.
  destruct (Open "/proc/cgroups") as [e|f]; [discriminate Hsup|].
  destruct (anyHasPrefix (tail (lines f)) isolator) eqn:Hany;
    [|destruct (readErr f); discriminate Hsup].
  apply anyHasPrefix_spec in Hany as (text & Hin & Hp).
  assert (Hshort : anyHasPrefix (tail (lines f)) shorter = true).
  { apply anyHasPrefix_spec. exists text. split; [done|].
    unfold strings.HasPrefix in *. by eapply prefix_trans. }
  by rewrite Hshort.
Qed.

(** X6: whatever options, name and limit it is given, and whatever the
    kernel lists, [MaybeAddIsolator] returns on success the options it was
    given, in their order, followed by at most one more option; one is added
    only for the names ["cpu"] and ["memory"]. *)
Theorem MaybeAddIsolator_extends (opts opts' : list unit.UnitOption)
    (isolator : string) (limit : option resource.Quantity) (warnings : list string) :
  MaybeAddIsolator opts isolator limit = (warnings, Ok opts') ->
  opts' = opts
  \/ (exists value, opts' = opts ++ [unit.NewUnitOption "Service" "CPUQuota" value]
                    /\ isolator = "cpu")
  \/ (exists value, opts' = opts ++ [unit.NewUnitOption "Service" "MemoryLimit" value]
                    /\ isolator = "memory").
Proof.
  unfold MaybeAddIsolator. destruct limit as [limit|]; [|by intros [= _ ->]; left].
  destruct (IsIsolatorSupported isolator) as [[|]|e|]; [|by intros [= _ ->]; left|done..].
  unfold isolatorFuncs. rewrite !lookup_insert, lookup_empty.
  repeat case_decide; subst; try done.
  - unfold addCpuLimit. destruct (_ >? _); [done|].
    intros [= _ <-]. right. left. eauto.
  - unfold addMemoryLimit. intros [= _ <-]. right. right. eauto.
Qed.

(** ** The whitelist of a hierarchy *)

(** X7: for the directory of a hierarchy, whose name joins controller names
    that hold no comma, the whitelist is that of the first controller of the
    hierarchy that has one, followed by [cgroup.procs]; the knobs of the
    other controllers of the hierarchy are not in it. *)
Theorem getLegacyControllerRWFiles_Join (cs : list string) :
  Forall (fun c => mentions c ","%char = false) cs ->
  getLegacyControllerRWFiles (strings.Join cs ",") =
    match list_find (fun p => is_Some (legacyCgroupControllerRWFiles !! p)) cs with
    | Some (_, p) => default [] (legacyCgroupControllerRWFiles !! p) ++ ["cgroup.procs"]
    | None => []
    end.
Proof.
  intros Hcs. unfold getLegacyControllerRWFiles.
  assert (Hfirst : forall parts,
             firstRWFiles parts =
               match list_find (fun p => is_Some (legacyCgroupControllerRWFiles !! p)) parts with
               | Some (_, p) => default [] (legacyCgroupControllerRWFiles !! p) ++ ["cgroup.procs"]
               | None => []
               end).
  { induction parts as [|p parts IH]; [done|]. cbn [firstRWFiles list_find].
    destruct (legacyCgroupControllerRWFiles !! p) as [files|] eqn:Hp.
    - rewrite decide_True by eauto. cbn. by rewrite Hp.
    - rewrite decide_False by (by intros [? ?]). rewrite IH.
      by destruct (list_find _ parts) as [[i q]|]. }
  destruct cs as [|c cs]; [reflexivity|].
  change "," with (String ","%char ""). rewrite Split_Join by done. apply Hfirst.
Qed.

(** ** The legacy inventory *)

Lemma group_app (h : Z) (rs1 rs2 : list (string * Z * Z * Z)) :
  group h (rs1 ++ rs2) = group h rs1 ++ group h rs2.
Proof. unfold group. by rewrite filter_app, map_app. Qed.

(** X8: a line that does not read as an enabled row (a disabled controller,
    a comment, a line that does not scan) changes nothing, wherever it
    stands after the first line: the inventory is the same without it. *)
Theorem parseLegacyCgroups_skips_line (f : File) (first text : string)
    (before after : list string) :
  lines f = first :: before ++ text :: after ->
  rowEnabled (Sscanf text) <> 1 ->
  parseLegacyCgroups f
  = parseLegacyCgroups {| lines := first :: before ++ after; readErr := readErr f |}.
Proof.
  intros Hlines Hdis. unfold parseLegacyCgroups. rewrite Hlines. cbn [lines readErr tail].
  destruct (readErr f); [done|]. f_equal. apply map_eq. intros h.
  rewrite !scanLegacyCgroups_lookup, !map_app, !group_app. cbn [map].
  assert (Hnone : group h (Sscanf text :: map Sscanf after) = group h (map Sscanf after)).
  { unfold group. rewrite filter_cons. rewrite decide_False; [done|]. by intros [? _]. }
  by rewrite Hnone.
Qed.

(** ** The path resolvers on arbitrary files *)

Lemma Cut_Some (s : string) (sep : ascii) (a b : string) :
  strings.Cut s sep = Some (a, b) ->
  s = a +:+ String sep b /\ mentions a sep = false
  /\ occurrences s sep = S (occurrences b sep).
Proof.
  revert a. induction s as [|c s IH]; intros a; cbn [strings.Cut]; [discriminate|].
  destruct (Ascii.eqb c sep) eqn:Hc.
  - intros [= <- <-]. apply Ascii.eqb_eq in Hc as ->.
    cbn. by rewrite Ascii.eqb_refl.
  - destruct (strings.Cut s sep) as [[a' b']|]; [|discriminate]. intros [= <- <-].
    destruct (IH a' eq_refl) as (-> & Ha & Hocc). cbn. rewrite Hc. cbn.
    by rewrite Ha, <- Hocc.
Qed.

Lemma Cut_None (s : string) (sep : ascii) :
  strings.Cut s sep = None -> occurrences s sep = O.
Proof.
  induction s as [|c s IH]; cbn [strings.Cut]; [done|].
  destruct (Ascii.eqb c sep) eqn:Hc; [discriminate|].
  destruct (strings.Cut s sep) as [[a b]|]; [discriminate|]. intros _.
  cbn. rewrite Hc. by apply IH.
Qed.

Lemma SplitN_length (s : string) (sep : ascii) (n : nat) :
  List.length (strings.SplitN s sep (S n)) = Nat.min (S n) (S (occurrences s sep)).
Proof.
  revert s. induction n as [|n IH]; intros s; [done|].
  change (strings.SplitN s sep (S (S n)))
    with (match strings.Cut s sep with
          | Some (before, after) => before :: strings.SplitN after sep (S n)
          | None => [s]
          end).
  destruct (strings.Cut s sep) as [[a b]|] eqn:Hcut.
  - apply Cut_Some in Hcut as (_ & _ & ->). cbn [List.length]. rewrite IH. lia.
  - apply Cut_None in Hcut as ->. cbn [List.length]. lia.
Qed.

Lemma occurrences_app (a b : string) (c : ascii) :
  occurrences (a +:+ b) c = (occurrences a c + occurrences b c)%nat.
Proof.
  induction a as [|x a IH]; [done|].
  change (((if Ascii.eqb x c then 1 else 0) + occurrences (a +:+ b) c)%nat
          = ((if Ascii.eqb x c then 1 else 0) + occurrences a c + occurrences b c)%nat).
  rewrite IH. lia.
Qed.

Lemma SplitN_threeFields (text id ctrls path : string) :
  threeFields text id ctrls path ->
  strings.SplitN text ":"%char 3 = [id; ctrls; path]
  /\ (2 <= occurrences text ":"%char)%nat.
Proof.
  intros (Hid & Hctrls & ->). unfold fieldsLine. split.
  - cbn [strings.SplitN].
    change (id +:+ ":" +:+ ctrls +:+ ":" +:+ path)
      with (id +:+ String ":" (ctrls +:+ String ":" path)).
    by rewrite !Cut_app.
  - rewrite !occurrences_app. cbn. lia.
Qed.

Lemma threeFields_SplitN (text : string) :
  (2 <= occurrences text ":"%char)%nat ->
  exists id ctrls path, threeFields text id ctrls path.
Proof.
  intros Hocc.
  destruct (strings.Cut text ":"%char) as [[id rest]|] eqn:Hcut;
    [|apply Cut_None in Hcut; lia].
  apply Cut_Some in Hcut as (-> & Hid & Hocc1).
  destruct (strings.Cut rest ":"%char) as [[ctrls path]|] eqn:Hcut2;
    [|apply Cut_None in Hcut2; lia].
  apply Cut_Some in Hcut2 as (-> & Hctrls & _).
  by exists id, ctrls, path.
Qed.

Lemma SplitN_short (text : string) :
  (occurrences text ":"%char < 2)%nat ->
  (List.length (strings.SplitN text ":"%char 3) <? 3)%nat = true.
Proof. intros Hocc. apply Nat.ltb_lt. rewrite SplitN_length. lia. Qed.

Lemma threeFields_inj (text id ctrls path id' ctrls' path' : string) :
  threeFields text id ctrls path -> threeFields text id' ctrls' path' ->
  id = id' /\ ctrls = ctrls' /\ path = path'.
Proof.
  intros H1 H2. apply SplitN_threeFields in H1 as [H1 _].
  apply SplitN_threeFields in H2 as [H2 _]. rewrite H1 in H2. by injection H2.
Qed.

(** X9: the unified resolver ([GetOwnCgroupPath], [GetCgroupPathByPid])
    looks at the first line of the file only.  It returns what follows the
    second colon of that line, further colons included; it reports a parsing
    error exactly when the line has fewer than two colons, as the first line
    of an empty file has; later lines and read errors play no part, and it
    never indexes out of range. *)
Theorem parseProcCgroupInfo_fields (procCgroupInfoPath : string) (cg : File) :
  Open procCgroupInfoPath = inr cg ->
  (forall path, parseProcCgroupInfo procCgroupInfoPath = Ok path
                <-> exists id ctrls, threeFields (firstText cg) id ctrls path)
  /\ (forall e, parseProcCgroupInfo procCgroupInfoPath = Err e
                <-> (occurrences (firstText cg) ":"%char < 2)%nat
                    /\ e = Errorf "error parsing /proc/self/cgroup" [])
  /\ parseProcCgroupInfo procCgroupInfoPath <> Panic.
Proof.
  intros Hopen. unfold parseProcCgroupInfo. rewrite Hopen.
  destruct (le_lt_dec 2 (occurrences (firstText cg) ":"%char)) as [Hge | Hlt].
  - destruct (threeFields_SplitN _ Hge) as (id & ctrls & path & Hf).
    destruct (SplitN_threeFields _ _ _ _ Hf) as [-> _]. cbn.
    split; [|split; [|done]].
    + intros path'. split.
      * intros [= <-]. by exists id, ctrls.
      * intros (id' & ctrls' & Hf').
        by destruct (threeFields_inj _ _ _ _ _ _ _ Hf Hf') as (_ & _ & ->).
    + intros e. split; [discriminate|]. intros [Hlt _]. lia.
  - rewrite (SplitN_short _ Hlt). split; [|split; [|done]].
    + intros path. split; [discriminate|]. intros (id & ctrls & Hf).
      apply SplitN_threeFields in Hf as [_ Hge]. lia.
    + intros e. split; [by intros [= <-] | by intros [_ ->]].
Qed.

Lemma scanControllerLines_short (text : string) (ls : list string) (controller : string) :
  (occurrences text ":"%char < 2)%nat ->
  scanControllerLines (text :: ls) controller
  = Err (Errorf "error parsing /proc/self/cgroup" []).
Proof. intros Hlt. cbn [scanControllerLines]. by rewrite (SplitN_short _ Hlt). Qed.

Lemma scanControllerLines_fields (text id ctrls path : string) (ls : list string)
    (controller : string) :
  threeFields text id ctrls path ->
  scanControllerLines (text :: ls) controller
  = if decide (controller ∈ strings.Split ctrls ","%char) then Ok [id; ctrls; path]
    else scanControllerLines ls controller.
Proof.
  intros Hf. cbn [scanControllerLines].
  destruct (SplitN_threeFields _ _ _ _ Hf) as [-> _]. cbn.
  destruct (existsb _ _) eqn:Hex.
  - apply existsb_eqb_elem_of in Hex. by rewrite decide_True.
  - rewrite decide_False; [done|]. intros Hin. apply existsb_eqb_elem_of in Hin. congruence.
Qed.

Lemma scanControllerLines_skipped (before ls : list string) (controller : string) :
  Forall (skipped controller) before ->
  scanControllerLines (before ++ ls) controller = scanControllerLines ls controller.
Proof.
  induction 1 as [|text before (id & ctrls & path & Hf & Hnot) _ IH]; [done|].
  cbn [app]. rewrite (scanControllerLines_fields _ _ _ _ _ _ Hf).
  by rewrite decide_False.
Qed.

Lemma scanControllerLines_sound (ls : list string) (controller : string)
    (parts : list string) :
  scanControllerLines ls controller = Ok parts ->
  exists before text after id ctrls path,
    ls = before ++ text :: after
    /\ Forall (skipped controller) before
    /\ threeFields text id ctrls path
    /\ controller ∈ strings.Split ctrls ","%char
    /\ parts = [id; ctrls; path].
Proof.
  induction ls as [|text ls IH]; [discriminate|].
  destruct (le_lt_dec 2 (occurrences text ":"%char)) as [Hge | Hlt];
    [|by rewrite scanControllerLines_short].
  destruct (threeFields_SplitN _ Hge) as (id & ctrls & path & Hf).
  rewrite (scanControllerLines_fields _ _ _ _ _ _ Hf).
  destruct (decide (controller ∈ strings.Split ctrls ","%char)) as [Hin | Hnot].
  - intros [= <-]. by exists [], text, ls, id, ctrls, path.
  - intros Hscan.
    destruct (IH Hscan) as (before & text' & after & id' & ctrls' & path' & -> & Hbefore & Hrest).
    exists (text :: before), text', after, id', ctrls', path'. split; [done|].
    split; [|done]. constructor; [|done]. by exists id, ctrls, path.
Qed.

(** X10: on any file, well formed or not, a path the legacy resolver
    returns is the third field of a line of three colon-separated fields
    whose second field, split on commas, holds the controller; every line
    before it has three fields too and does not list the controller.  The
    path is what follows the second colon, further colons included. *)
Theorem GetLegacyCgroupPathByPid_sound (pid : Z) (controller path : string) :
  GetLegacyCgroupPathByPid pid controller = Ok path ->
  exists cg before text after id ctrls,
    Open ("/proc/" +:+ strconv.Itoa pid +:+ "/cgroup") = inr cg
    /\ lines cg = before ++ text :: after
    /\ Forall (skipped controller) before
    /\ threeFields text id ctrls path
    /\ controller ∈ strings.Split ctrls ","%char.
Proof.
  unfold GetLegacyCgroupPathByPid, parseLegacyCgroupController.
  destruct (Open _) as [e|cg]; [discriminate|].
  destruct (scanControllerLines (lines cg) controller) as [parts| |] eqn:Hscan;
    [|discriminate..].
  apply scanControllerLines_sound in Hscan
    as (before & text & after & id & ctrls & path' & Hlines & Hbefore & Hf & Hin & ->).
  cbn. intros [= <-]. by exists cg, before, text, after, id, ctrls.
Qed.

(** X11: the errors of the legacy resolver once the file is open.  A line
    with fewer than two colons that is reached before a line listing the
    controller ends the search with a parsing error, whatever follows it,
    a line that lists the controller included; when every line has three
    fields and none lists the controller, the error is "not found", also
    when reading the file ended on an error, which is not reported. *)
Theorem GetLegacyCgroupPathByPid_errors (pid : Z) (controller : string) (cg : File)
    (before : list string) :
  Open ("/proc/" +:+ strconv.Itoa pid +:+ "/cgroup") = inr cg ->
  Forall (skipped controller) before ->
  (forall bad after,
      lines cg = before ++ bad :: after -> (occurrences bad ":"%char < 2)%nat ->
      GetLegacyCgroupPathByPid pid controller
      = Err (Errorf "error parsing /proc/self/cgroup" []))
  /\ (lines cg = before ->
      GetLegacyCgroupPathByPid pid controller
      = Err (Errorf "controller %q not found" [Str controller])).
Proof.
  intros Hopen Hbefore.
  unfold GetLegacyCgroupPathByPid, parseLegacyCgroupController. rewrite Hopen. split.
  - intros bad after -> Hbad.
    by rewrite (scanControllerLines_skipped _ _ _ Hbefore), scanControllerLines_short.
  - intros ->. rewrite <- (app_nil_r before).
    by rewrite (scanControllerLines_skipped _ _ _ Hbefore).
Qed.

Lemma scanControllerLines_three (ls : list string) (controller : string)
    (parts : list string) :
  scanControllerLines ls controller = Ok parts -> List.length parts = 3%nat.
Proof.
  intros Hscan.
  by apply scanControllerLines_sound in Hscan as (_ & _ & _ & id & ctrls & path & _ & _ & _ & _ & ->).
Qed.

Lemma scanControllerLines_no_panic (ls : list string) (controller : string) :
  scanControllerLines ls controller <> Panic.
Proof.
  induction ls as [|text ls IH]; [done|].
  destruct (le_lt_dec 2 (occurrences text ":"%char)) as [Hge | Hlt];
    [|by rewrite scanControllerLines_short].
  destruct (threeFields_SplitN _ Hge) as (id & ctrls & path & Hf).
  rewrite (scanControllerLines_fields _ _ _ _ _ _ Hf). by case_decide.
Qed.

(** X12: no path resolver indexes a slice out of range: whatever the file
    holds, [parts[1]] and [parts[2]] exist where they are read, so each of
    the four resolvers returns a path or an error. *)
Theorem path_resolvers_no_panic (pid : Z) (controller : string) :
  GetLegacyCgroupPathByPid pid controller <> Panic
  /\ GetOwnLegacyCgroupPath controller <> Panic
  /\ GetCgroupPathByPid pid <> Panic
  /\ GetOwnCgroupPath <> Panic.
Proof.
  assert (Hlegacy : forall cgroupPath,
             match parseLegacyCgroupController cgroupPath controller with
             | Ok parts => index parts 2
             | Err err => Err err
             | Panic => Panic
             end <> Panic).
  { intros cgroupPath. unfold parseLegacyCgroupController.
    destruct (Open cgroupPath) as [e|cg]; [done|].
    destruct (scanControllerLines (lines cg) controller) as [parts|e|] eqn:Hscan; [|done|].
    - apply scanControllerLines_three in Hscan.
      destruct parts as [|p0 [|p1 [|p2 [|p3 parts]]]]; done.
    - by apply scanControllerLines_no_panic in Hscan. }
  assert (Hunified : forall p, parseProcCgroupInfo p <> Panic).
  { intros p. unfold parseProcCgroupInfo. destruct (Open p) as [e|cg]; [done|].
    destruct (le_lt_dec 2 (occurrences (firstText cg) ":"%char)) as [Hge | Hlt].
    - destruct (threeFields_SplitN _ Hge) as (id & ctrls & path & Hf).
      by destruct (SplitN_threeFields _ _ _ _ Hf) as [-> _].
    - by rewrite (SplitN_short _ Hlt). }
  repeat split; [apply Hlegacy | apply Hlegacy | apply Hunified | apply Hunified].
Qed.

(** ** The controllers of the unified hierarchy *)

Lemma Split_nonempty (s : string) (sep : ascii) : strings.Split s sep <> [].
Proof.
  destruct s as [|c s]; cbn [strings.Split]; [done|].
  destruct (Ascii.eqb c sep); [done|]. by destruct (strings.Split s sep).
Qed.

Lemma Join_String (c : ascii) (w : string) (ws : list string) (sep : string) :
  strings.Join (String c w :: ws) sep = String c (strings.Join (w :: ws) sep).
Proof. by destruct ws. Qed.

Lemma Join_Split (s : string) (sep : ascii) :
  strings.Join (strings.Split s sep) (String sep "") = s.
Proof.
  induction s as [|c s IH]; cbn [strings.Split]; [done|].
  destruct (Ascii.eqb c sep) eqn:Hc.
  - apply Ascii.eqb_eq in Hc as ->.
    destruct (strings.Split s sep) as [|w ws] eqn:Hsplit; [by apply Split_nonempty in Hsplit|].
    change (String sep (strings.Join (w :: ws) (String sep "")) = String sep s).
    by rewrite IH.
  - destruct (strings.Split s sep) as [|w ws] eqn:Hsplit; [by apply Split_nonempty in Hsplit|].
    by rewrite Join_String, IH.
Qed.

Lemma Split_fields (s : string) (sep : ascii) :
  Forall (fun w => mentions w sep = false) (strings.Split s sep)
  /\ List.length (strings.Split s sep) = S (occurrences s sep).
Proof.
  induction s as [|c s [IHall IHlen]]; cbn [strings.Split occurrences].
  - split; [by repeat constructor | done].
  - destruct (Ascii.eqb c sep) eqn:Hc.
    + split; [by constructor | cbn; by rewrite IHlen].
    + destruct (strings.Split s sep) as [|w ws]; [done|].
      apply Forall_cons in IHall as [Hw Hws]. split; [|done].
      constructor; [|done]. cbn. by rewrite Hc.
Qed.

(** X13: what [GetEnabledControllers] returns is the first line of
    [cgroup.controllers] cut at every space: joined with spaces the names
    give the line back, no name holds a space, and there is one name more
    than the line has spaces.  So the list is never empty: for an empty
    line or an empty file it holds one name, the empty one. *)
Theorem GetEnabledControllers_fields (controllers : list string) :
  GetEnabledControllers = Ok controllers ->
  exists f, Open "/sys/fs/cgroup/cgroup.controllers" = inr f
            /\ strings.Join controllers " " = firstText f
            /\ Forall (fun c => mentions c " "%char = false) controllers
            /\ List.length controllers = S (occurrences (firstText f) " "%char)
            /\ (firstText f = "" -> controllers = [""]).
Proof.
  unfold GetEnabledControllers.
  destruct (Open "/sys/fs/cgroup/cgroup.controllers") as [e|f]; [discriminate|].
  destruct (errAfterFirstScan f); [discriminate|]. intros [= <-].
  exists f. split; [done|]. split; [apply Join_Split|].
  destruct (Split_fields (firstText f) " "%char) as [Hall Hlen].
  split; [done|]. split; [done|]. by intros ->.
Qed.

(** ** The calls of the hierarchy builders *)

Lemma scripted_ret : scripted [] (mret ()).
Proof. intros h. exists [], (Ok ()). by rewrite app_nil_r. Qed.

Lemma scripted_step (c : call) (k : Z -> M ()) :
  (forall e, k e = mret () \/ exists err, k e = fail err) ->
  scripted [c] (r ← sys c; match errno r with Some e => k e | None => mret () end).
Proof.
  intros Hk h. unfold sys, mbind, M_bind, bind.
  destruct (errno (kernel h c)) as [e|].
  - destruct (Hk e) as [-> | [err ->]].
    + by exists [c], (Ok ()).
    + by exists [c], (Err err).
  - by exists [c], (Ok ()).
Qed.

Lemma scripted_bind (s1 s2 : list call) (m k : M ()) :
  scripted s1 m -> scripted s2 k -> scripted (s1 ++ s2) (m;; k).
Proof.
  intros Hm Hk h. destruct (Hm h) as (d1 & r1 & Hrun & Hpre1 & Hok1 & Hr1).
  rewrite (bind_run _ _ _ _ _ Hrun). destruct r1 as [[]|e|]; [| |done].
  - rewrite (Hok1 eq_refl) in *.
    destruct (Hk (h ++ s1)) as (d2 & r2 & Hrun2 & Hpre2 & Hok2 & Hr2).
    exists (s1 ++ d2), r2. rewrite Hrun2, app_assoc. split; [done|].
    split; [by apply prefix_app|]. split; [|done]. intros Hr. by rewrite (Hok2 Hr).
  - exists d1, (Err e). split; [done|]. split; [by apply prefix_app_r | done].
Qed.

Lemma scripted_forEach {A : Type} (f : A -> list call) (xs : list A)
    (body : A -> M ()) :
  (forall x, scripted (f x) (body x)) -> scripted (flat_map f xs) (forEach xs body).
Proof.
  intros Hbody. induction xs as [|x xs IH]; cbn [forEach flat_map].
  - apply scripted_ret.
  - by apply scripted_bind.
Qed.

Lemma scripted_mkdirAll (path : string) (perm : Z) :
  scripted [MkdirAll path perm] (mkdirAll path perm).
Proof. apply (scripted_step _ (fun e => fail (Errno e))). intros e. right. by eexists. Qed.

Lemma scripted_mountFsRO (mountPoint : string) :
  scripted [remountRO mountPoint] (mountFsRO mountPoint).
Proof.
  apply (scripted_step _
           (fun e => fail (Wrap (Errorf "error remounting RO %q" [Str mountPoint]) (Errno e)))).
  intros e. right. by eexists.
Qed.

Lemma CreateLegacyCgroups_run (root : string) (enabledCgroups : gmap Z (list string))
    (mountContext : string) :
  scripted (legacyScript root enabledCgroups mountContext)
           (CreateLegacyCgroups root enabledCgroups mountContext).
Proof.
  unfold CreateLegacyCgroups, legacyScript.
  apply scripted_bind; [apply scripted_mkdirAll|].
  apply scripted_bind.
  { apply (scripted_step _
             (fun e => if negb (e =? EBUSY)
                       then fail (Wrap (Errorf "error mounting %q"
                                          [Str (filepath.Join [root; "/sys"])]) (Errno e))
                       else mret ())).
    intros e. destruct (negb _); [right; by eexists | by left]. }
  apply scripted_bind; [apply scripted_mkdirAll|].
  apply scripted_bind.
  { apply (scripted_step _
             (fun e => fail (Wrap (Errorf "error mounting %q"
                                     [Str (filepath.Join [root; "/sys/fs/cgroup"])]) (Errno e)))).
    intros e. right. by eexists. }
  apply scripted_bind.
  { apply scripted_forEach. intros c.
    apply scripted_bind; [apply scripted_mkdirAll|].
    apply (scripted_step _
             (fun e => fail (Wrap (Errorf "error mounting %q"
                                     [Str (filepath.Join [root; "/sys/fs/cgroup"; c])]) (Errno e)))).
    intros e. right. by eexists. }
  apply scripted_bind.
  { apply scripted_forEach. intros [ln tgt].
    apply (scripted_step _
             (fun e => fail (Wrap (Errorf "error creating symlink" []) (Errno e)))).
    intros e. right. by eexists. }
  apply scripted_bind; [apply scripted_mkdirAll|].
  apply scripted_mountFsRO.
Qed.

Lemma filter_isMount_controllers (root : string) (cs : list string) :
  List.filter isMount
    (flat_map (fun c => [MkdirAll (filepath.Join [root; "/sys/fs/cgroup"; c]) 448]
                        ++ [cgroupMount root c]) cs)
  = map (cgroupMount root) cs.
Proof. induction cs as [|c cs IH]; [done|]. cbn. by rewrite <- IH. Qed.

Lemma filter_isMount_symlinks (p : string) (links : list (string * string)) :
  List.filter isMount
    (flat_map (fun '(ln, tgt) => [Symlink tgt (filepath.Join [p; ln])]) links) = [].
Proof. induction links as [|[ln tgt] links IH]; [done|]. cbn. exact IH. Qed.

Lemma filter_prefix (d script : list call) :
  d `prefix_of` script -> List.filter isMount d `prefix_of` List.filter isMount script.
Proof. intros [k ->]. rewrite List.filter_app. by apply prefix_app_r. Qed.

(** X14: the mounts of the legacy builder.  In this order: [sysfs] on
    [<root>/sys], the tmpfs on [<root>/sys/fs/cgroup], one [cgroup] mount per
    directory of [GetLegacyControllerDirs], on the directory of that name and
    with that name as mount data, and last the read-only remount of the
    tmpfs; a build that fails has issued the first of them only.  A
    successful build has mounted three file systems more than there are
    hierarchies; [<root>/sys] itself is not remounted. *)
Theorem CreateLegacyCgroups_mounts (root : string)
    (enabledCgroups : gmap Z (list string)) (mountContext : string) (h : list call) :
  let mounts :=
    sysfsMount root :: tmpfsMount root mountContext
    :: map (cgroupMount root) (GetLegacyControllerDirs enabledCgroups)
    ++ [remountRO (filepath.Join [root; "/sys/fs/cgroup"])] in
  exists d r,
    CreateLegacyCgroups root enabledCgroups mountContext h = (h ++ d, r)
    /\ List.filter isMount d `prefix_of` mounts
    /\ (r = Ok () ->
        List.filter isMount d = mounts
        /\ List.length (List.filter isMount d) = (3 + size enabledCgroups)%nat).
Proof.
  intros mounts.
  assert (Hscript : List.filter isMount (legacyScript root enabledCgroups mountContext)
                    = mounts).
  { unfold legacyScript, mounts. rewrite !List.filter_app.
    by rewrite filter_isMount_controllers, filter_isMount_symlinks. }
  destruct (CreateLegacyCgroups_run root enabledCgroups mountContext h)
    as (d & r & Hrun & Hpre & Hok & _).
  exists d, r. split; [done|]. split.
  - rewrite <- Hscript. by apply filter_prefix.
  - intros Hr. rewrite (Hok Hr), Hscript. split; [done|]. unfold mounts.
    cbn [List.length]. rewrite length_app, length_map.
    rewrite (GetLegacyControllerDirs_entries enabledCgroups), length_fmap,
      length_map_to_list.
    cbn [List.length]. lia.
Qed.

Lemma Symlink_inj (a b a' b' : string) :
  Symlink a b = Symlink a' b' -> a = a' /\ b = b'.
Proof. by intros [= -> ->]. Qed.

Lemma symlink_in_script (root : string) (enabledCgroups : gmap Z (list string))
    (mountContext : string) (l1 l2 : list call) (tgt lnPath : string) :
  legacyScript root enabledCgroups mountContext = l1 ++ Symlink tgt lnPath :: l2 ->
  (forall c, c ∈ GetLegacyControllerDirs enabledCgroups -> cgroupMount root c ∈ l1)
  /\ exists ln, (ln, tgt) ∈ rangeSymlinks (getLegacyControllerSymlinks enabledCgroups)
                /\ lnPath = filepath.Join [filepath.Join [root; "/sys/fs/cgroup"]; ln].
Proof.
  unfold legacyScript. cbn zeta. cbn [app].
  set (mounted := flat_map _ (GetLegacyControllerDirs enabledCgroups)).
  set (linked := flat_map _ (rangeSymlinks _)).
  intros Heq.
  assert (Hmounted : forall l1' l2', mounted <> l1' ++ Symlink tgt lnPath :: l2').
  { intros l1' l2' Hm.
    assert (Hin : Symlink tgt lnPath ∈ mounted)
      by (rewrite Hm; apply elem_of_app; right; left).
    unfold mounted in Hin. apply list_elem_of_In, in_flat_map in Hin as (c & _ & Hin).
    destruct Hin as [Hin | [Hin | []]]; discriminate Hin. }
  assert (Hall : forall c, c ∈ GetLegacyControllerDirs enabledCgroups ->
                           cgroupMount root c ∈ mounted).
  { intros c Hc. apply list_elem_of_In, in_flat_map. exists c.
    split; [by apply list_elem_of_In | right; by left]. }
  destruct l1 as [|c1 l1]; [discriminate Heq|]. injection Heq as <- Heq.
  destruct l1 as [|c2 l1]; [discriminate Heq|]. injection Heq as <- Heq.
  destruct l1 as [|c3 l1]; [discriminate Heq|]. injection Heq as <- Heq.
  destruct l1 as [|c4 l1]; [discriminate Heq|]. injection Heq as <- Heq.
  apply eq_sym, app_cons_split in Heq as [(a2 & Hm & _) | (b1 & -> & Heq)];
    [by apply Hmounted in Hm|].
  split.
  { intros c Hc. do 4 apply list_elem_of_further. apply elem_of_app. left. by apply Hall. }
  apply eq_sym, app_cons_split in Heq as [(a2 & Hl & _) | (b2 & _ & Heq)].
  - assert (Hin : Symlink tgt lnPath ∈ linked)
      by (rewrite Hl; apply elem_of_app; right; left).
    unfold linked in Hin. apply list_elem_of_In, in_flat_map in Hin as ([ln tgt'] & Hin & Hs).
    destruct Hs as [Hs | []]. apply Symlink_inj in Hs as [-> <-].
    exists ln. split; [by apply list_elem_of_In | done].
  - destruct b2 as [|x b2]; [discriminate Heq|]. injection Heq as _ Heq.
    destruct b2 as [|y b2]; [discriminate Heq|]. injection Heq as _ Heq.
    by destruct b2.
Qed.

(** X15: the symbolic links of the legacy builder do not dangle.  When the
    builder creates a link, it has mounted the directory the link points to
    earlier in the same run, as it has every other controller directory; the
    link stands in [<root>/sys/fs/cgroup] under the name of one controller
    of a hierarchy of several, points to the directory of that hierarchy by
    its relative name, and never to itself. *)
Theorem CreateLegacyCgroups_symlinks (root : string)
    (enabledCgroups : gmap Z (list string)) (mountContext : string) (h : list call) :
  (forall (m : gmap string string) ln tgt,
      (ln, tgt) ∈ rangeSymlinks m -> m !! ln = Some tgt) ->
  exists d r,
    CreateLegacyCgroups root enabledCgroups mountContext h = (h ++ d, r)
    /\ forall l1 tgt lnPath l2,
         d = l1 ++ Symlink tgt lnPath :: l2 ->
         cgroupMount root tgt ∈ l1
         /\ (forall c, c ∈ GetLegacyControllerDirs enabledCgroups ->
                       cgroupMount root c ∈ l1)
         /\ exists ln hid cs,
              lnPath = filepath.Join [filepath.Join [root; "/sys/fs/cgroup"]; ln]
              /\ enabledCgroups !! hid = Some cs /\ (1 < List.length cs)%nat
              /\ ln ∈ cs /\ tgt = strings.Join cs "," /\ ln <> tgt.
Proof.
  intros Hrange.
  destruct (CreateLegacyCgroups_run root enabledCgroups mountContext h)
    as (d & r & Hrun & [k Hpre] & _ & _).
  exists d, r. split; [done|]. intros l1 tgt lnPath l2 ->.
  rewrite <- app_assoc in Hpre. cbn [app] in Hpre.
  apply symlink_in_script in Hpre as (Hall & ln & Hin & ->).
  apply Hrange in Hin. unfold getLegacyControllerSymlinks in Hin.
  apply symlinks_sound in Hin as [Hempty | (hid & cs & Hcs & Hlen & Hln & ->)].
  { rewrite lookup_empty in Hempty. discriminate Hempty. }
  apply elem_of_rangeCgroups in Hcs.
  assert (Hdir : strings.Join cs "," ∈ GetLegacyControllerDirs enabledCgroups).
  { apply elem_of_GetLegacyControllerDirs. by exists hid, cs. }
  split; [by apply Hall|]. split; [done|].
  exists ln, hid, cs. repeat split; [done..|].
  intros Heq. pose proof (length_Join_gt cs ln Hln Hlen) as Hlt.
  rewrite <- Heq in Hlt. lia.
Qed.

(** X16: the unified builder issues five calls, in this order: it creates
    [<root>/sys], mounts [sysfs] on it, creates [<root>/sys/fs/cgroup],
    mounts [cgroup2] on it and creates [machine.slice] below; unlike the
    legacy builder it remounts nothing read-only.  It stops at the first
    call that fails: a call that fails is the last call of the run and its
    error is the cause of the error returned, and an error is returned in
    that case only; a run that succeeds has issued all five. *)
Theorem CreateCgroups_calls (root : string) :
  scripted [MkdirAll (filepath.Join [root; "/sys"]) 448;
            sysfsMount root;
            MkdirAll (filepath.Join [root; "/sys/fs/cgroup"]) 448;
            cgroup2Mount root;
            MkdirAll (filepath.Join [root; "/sys/fs/cgroup/machine.slice"]) 448]
           (CreateCgroups root)
  /\ aborting (fun _ _ => False) (CreateCgroups root).
Proof.
  split; [|apply CreateCgroups_aborting].
  unfold CreateCgroups.
  apply (scripted_bind [_] [_; _; _; _]); [apply scripted_mkdirAll|].
  apply (scripted_bind [_] [_; _; _]).
  { apply (scripted_step _
             (fun e => fail (Wrap (Errorf "error mounting %q"
                                     [Str (filepath.Join [root; "/sys"])]) (Errno e)))).
    intros e. right. by eexists. }
  apply (scripted_bind [_] [_; _]); [apply scripted_mkdirAll|].
  apply (scripted_bind [_] [_]).
  { apply (scripted_step _
             (fun e => fail (Wrap (Errorf "error mounting %q"
                                     [Str (filepath.Join [root; "/sys/fs/cgroup"])]) (Errno e)))).
    intros e. right. by eexists. }
  apply (scripted_bind [_] []); [apply scripted_mkdirAll|].
  apply scripted_ret.
Qed.

(** C9, as the code has it.  In [CreateLegacyCgroups] the mount of [sysfs]
    that fails with [EBUSY] is treated as a success: the build goes on with
    the next call, the creation of [<root>/sys/fs/cgroup], and when no other
    call fails it returns no error after the whole sequence of calls, the
    mounts of the tmpfs and of the controllers and the read-only remount
    included.  Any other failing call is the last call, its error is the
    cause of the error returned, and an error is returned in that case only.
    In [CreateCgroups] no failure is tolerated: every failing call ends the
    build with an error, and the mount of [sysfs] that fails with [EBUSY]
    ends it after two calls with that error wrapped. *)
Theorem Create_sysfs_mount_errors (root : string)
    (enabledCgroups : gmap Z (list string)) (mountContext : string) :
  let mkdirSys := MkdirAll (filepath.Join [root; "/sys"]) 448 in
  let legacy := CreateLegacyCgroups root enabledCgroups mountContext in
  (aborting (fun c e => c = sysfsMount root /\ e = EBUSY) legacy
   /\ scripted (legacyScript root enabledCgroups mountContext) legacy
   /\ (forall h,
         errno (kernel h mkdirSys) = None ->
         errno (kernel (h ++ [mkdirSys]) (sysfsMount root)) = Some EBUSY ->
         exists rest r,
           legacy h
           = (h ++ mkdirSys :: sysfsMount root
                :: MkdirAll (filepath.Join [root; "/sys/fs/cgroup"]) 448 :: rest, r))
   /\ (forall h d r,
         legacy h = (h ++ d, r) ->
         (forall l1 c l2 e,
             d = l1 ++ c :: l2 -> errno (kernel (h ++ l1) c) = Some e ->
             c = sysfsMount root /\ e = EBUSY) ->
         r = Ok () /\ d = legacyScript root enabledCgroups mountContext))
  /\ (aborting (fun _ _ => False) (CreateCgroups root)
      /\ forall h,
           errno (kernel h mkdirSys) = None ->
           errno (kernel (h ++ [mkdirSys]) (sysfsMount root)) = Some EBUSY ->
           CreateCgroups root h
           = (h ++ [mkdirSys; sysfsMount root],
              Err (Wrap (Errorf "error mounting %q" [Str (filepath.Join [root; "/sys"])])
                        (Errno EBUSY)))).
Proof.
  intros mkdirSys legacy.
  pose proof (CreateLegacyCgroups_aborting root enabledCgroups mountContext) as Habort.
  pose proof (CreateLegacyCgroups_run root enabledCgroups mountContext) as Hscript.
  fold legacy in Habort, Hscript.
  assert (Hsettled : forall h d r,
             legacy h = (h ++ d, r) ->
             d `prefix_of` legacyScript root enabledCgroups mountContext
             /\ (r = Ok () -> d = legacyScript root enabledCgroups mountContext)
             /\ (r = Ok ()
                 \/ exists l1 c e err,
                      d = l1 ++ [c] /\ errno (kernel (h ++ l1) c) = Some e
                      /\ ~ (c = sysfsMount root /\ e = EBUSY) /\ r = Err err)).
  { intros h d r Hrun.
    destruct (Habort h) as (d1 & r1 & Hrun1 & _ & Hlast).
    destruct (Hscript h) as (d2 & r2 & Hrun2 & Hpre & Hok & _).
    rewrite Hrun in Hrun1, Hrun2.
    injection Hrun1 as Hd1 <-. apply app_inv_head in Hd1 as <-.
    injection Hrun2 as Hd2 <-. apply app_inv_head in Hd2 as <-. done. }
  split; [split; [exact Habort | split; [exact Hscript | split]]|].
  - intros h Hmk Hbusy.
    destruct (Hscript h) as (d & r & Hrun & _).
    destruct (Hsettled h d r Hrun) as (Hpre & Hok & Hlast).
    assert (Hhead : exists rest,
               d = mkdirSys :: sysfsMount root
                   :: MkdirAll (filepath.Join [root; "/sys/fs/cgroup"]) 448 :: rest).
    { destruct Hlast as [Hr | (l1 & c & e & err & Hd & He & Hno & _)].
      - rewrite (Hok Hr). unfold legacyScript. cbn zeta. cbn [app]. by eexists.
      - destruct Hpre as [k Hk]. rewrite Hd in Hk. unfold legacyScript in Hk.
        cbn zeta in Hk. cbn [app] in Hk. fold mkdirSys in Hk.
        destruct l1 as [|x1 l1].
        { injection Hk as Hc _. subst c. rewrite app_nil_r in He. congruence. }
        injection Hk as Hx1 Hk. subst x1. destruct l1 as [|x2 l1].
        { injection Hk as Hc _. subst c. destruct Hno. split; [done|]. congruence. }
        injection Hk as Hx2 Hk. subst x2. destruct l1 as [|x3 l1].
        { injection Hk as Hc _. subst c d. by exists []. }
        injection Hk as Hx3 Hk. subst x3 d. by eexists. }
    destruct Hhead as [rest ->]. by exists rest, r.
  - intros h d r Hrun Hall. destruct (Hsettled h d r Hrun) as (_ & Hok & Hlast).
    destruct Hlast as [Hr | (l1 & c & e & err & Hd & He & Hno & _)]; [by auto|].
    destruct Hno. by apply (Hall l1 c [] e).
  - split; [apply CreateCgroups_aborting|]. intros h Hmk Hbusy.
    unfold CreateCgroups, mkdirAll, sys, mbind, M_bind, bind, mret, M_ret, ret, fail.
    fold mkdirSys. rewrite Hmk. fold (sysfsMount root). rewrite Hbusy.
    by rewrite <- app_assoc.
Qed.


(** ** Relations between the calls and what came before *)

Section Invariants.

Variable I : list call -> list call -> Prop.
Hypothesis I_nil : forall h, I h [].
Hypothesis I_app : forall h d1 d2, I h d1 -> I (h ++ d1) d2 -> I h (d1 ++ d2).

Lemma keeps_ret {A : Type} (a : A) : keeps I (mret a).
Proof. intros h. exists [], (Ok a). by rewrite app_nil_r. Qed.

Lemma keeps_fail {A : Type} (e : error) : keeps I (fail e : M A).
Proof. intros h. exists [], (Err e). by rewrite app_nil_r. Qed.

Lemma keeps_bind {A B : Type} (m : M A) (k : A -> M B) :
  keeps I m -> (forall a, keeps I (k a)) -> keeps I (m ≫= k).
Proof.
  intros Hm Hk h. destruct (Hm h) as (d1 & r1 & Hrun & Hd1 & Hr1).
  rewrite (bind_run _ _ _ _ _ Hrun). destruct r1 as [a|e|]; [|by eauto|done].
  destruct (Hk a (h ++ d1)) as (d2 & r2 & Hrun2 & Hd2 & Hr2).
  exists (d1 ++ d2), r2. rewrite Hrun2, app_assoc.
  split; [done|]. split; [by apply I_app | done].
Qed.

Lemma keeps_forEach {A : Type} (xs : list A) (body : A -> M ()) :
  (forall x, x ∈ xs -> keeps I (body x)) -> keeps I (forEach xs body).
Proof.
  induction xs as [|x xs IH]; intros Hbody; cbn [forEach].
  - apply keeps_ret.
  - apply keeps_bind; [apply Hbody; left|].
    intros _. apply IH. intros y Hy. apply Hbody. by right.
Qed.

Lemma keeps_emits {A : Type} (P : call -> Prop) (m : M A) :
  (forall h d, Forall P d -> I h d) -> emits P m -> keeps I m.
Proof.
  intros HP Hm h. destruct (Hm h) as (d & r & Hrun & Hd & Hr).
  exists d, r. split; [done|]. split; [by apply HP | done].
Qed.

End Invariants.

(** ** The workaround for the knobs of [cpuset] *)

Lemma emits_fixCpusetKnobs_files (P : call -> Prop) (cpusetPath : string) :
  (forall c, fileCall c -> P c) -> emits P (fixCpusetKnobs cpusetPath).
Proof.
  intros HP.
  assert (Hsys : forall c, fileCall c -> emits P (sys c))
    by (intros c Hc; by apply emits_sys, HP).
  unfold fixCpusetKnobs. apply emits_bind; [by apply Hsys|].
  intros _. apply emits_forEach. intros knobName _.
  apply emits_bind; [by apply Hsys|].
  intros child. destruct (errno child); [apply emits_ret|].
  destruct (negb _); [apply emits_ret|].
  apply emits_bind; [by apply Hsys|].
  intros parent. destruct (errno parent); [apply emits_ret|].
  repeat (apply emits_bind; [by apply Hsys|]; intros _).
  apply emits_ret.
Qed.

Lemma fixCpusetKnobs_ok (cpusetPath : string) (h : list call) :
  exists h', fixCpusetKnobs cpusetPath h = (h', Ok ()).
Proof.
  assert (Hknob : forall (body : string -> M ()) (knobs : list string),
             (forall knob h0, exists h1, body knob h0 = (h1, Ok ())) ->
             forall h0, exists h1, forEach knobs body h0 = (h1, Ok ())).
  { intros body knobs Hbody. induction knobs as [|knob knobs IH]; intros h0.
    - by exists h0.
    - cbn [forEach]. destruct (Hbody knob h0) as [h1 Hrun].
      rewrite (bind_run _ _ _ _ _ Hrun). apply IH. }
  unfold fixCpusetKnobs. cbn zeta.
  erewrite bind_run by reflexivity. cbn beta iota.
  apply Hknob. intros knob h0. unfold sys, mbind, M_bind, bind, mret, M_ret, ret.
  destruct (errno (kernel h0 _)); [by eexists|].
  destruct (negb _); [by eexists|].
  destruct (errno (kernel _ _)); by eexists.
Qed.

Lemma WriteFile_inj (f data f' data' : string) (perm perm' : Z) :
  WriteFile f data perm = WriteFile f' data' perm' ->
  f = f' /\ data = data' /\ perm = perm'.
Proof. by intros [= -> -> ->]. Qed.

Lemma knobWrites_nil (cgroupPathFix : string) (h : list call) :
  knobWrites cgroupPathFix h [].
Proof. intros l1 f data perm l2 Heq. by destruct l1. Qed.

Lemma knobWrites_app (cgroupPathFix : string) (h d1 d2 : list call) :
  knobWrites cgroupPathFix h d1 -> knobWrites cgroupPathFix (h ++ d1) d2 ->
  knobWrites cgroupPathFix h (d1 ++ d2).
Proof.
  intros H1 H2 l1 f data perm l2 Heq.
  apply eq_sym, app_cons_split in Heq as [(a2 & -> & ->) | (b1 & -> & ->)].
  - by apply (H1 l1 f data perm a2).
  - destruct (H2 b1 f data perm l2 eq_refl)
      as (knob & Hknob & Hf & Hperm & (l0 & l0' & -> & Hc1 & Hc2)
          & (l3 & l3' & Hl3 & Hp1 & Hp2)).
    exists knob. repeat split; [done..| |].
    + exists (d1 ++ l0), l0'. rewrite <- app_assoc in Hc1, Hc2.
      by rewrite <- app_assoc.
    + cbn zeta in *. exists (d1 ++ l3), l3'. rewrite <- app_assoc in Hp1, Hp2.
      rewrite Hl3. by rewrite <- app_assoc.
Qed.

Lemma knobWrites_none (cgroupPathFix : string) (h d : list call) :
  Forall (fun c => forall f data perm, c <> WriteFile f data perm) d ->
  knobWrites cgroupPathFix h d.
Proof.
  intros Hd l1 f data perm l2 ->. apply Forall_app in Hd as [_ Hd].
  apply Forall_cons in Hd as [Hw _]. by destruct (Hw f data perm).
Qed.

Lemma split_four {A : Type} (a b c d x : A) (l1 l2 : list A) :
  [a; b; c; d] = l1 ++ x :: l2 ->
  (l1 = [] /\ x = a) \/ (l1 = [a] /\ x = b) \/ (l1 = [a; b] /\ x = c)
  \/ (l1 = [a; b; c] /\ x = d).
Proof.
  destruct l1 as [|y1 [|y2 [|y3 [|y4 [|y5 l1]]]]]; intros Heq; simplify_eq/=; auto.
Qed.

Lemma keeps_knob (cgroupPathFix knob : string) :
  knob ∈ ["cpuset.mems"; "cpuset.cpus"] ->
  keeps (knobWrites cgroupPathFix)
    (child ← sys (ReadFile (filepath.Join [cgroupPathFix; knob]));
     match errno child with
     | Some _ => ret ()
     | None =>
         if negb (String.eqb (strings.TrimSpace (content child)) "") then ret ()
         else
           parent ← sys (ReadFile (filepath.Join [filepath.Dir cgroupPathFix; knob]));
           match errno parent with
           | None =>
               sys (WriteFile (filepath.Join [cgroupPathFix; knob]) (content parent) 420);;
               sys (WriteFile (filepath.Join [cgroupPathFix; knob]) (content parent) 420);;
               ret ()
           | Some _ => ret ()
           end
     end).
Proof.
  intros Hknob h.
  set (childFile := filepath.Join [cgroupPathFix; knob]).
  set (parentFile := filepath.Join [filepath.Dir cgroupPathFix; knob]).
  unfold sys, mbind, M_bind, bind, ret.
  destruct (errno (kernel h (ReadFile childFile))) as [e|] eqn:Hchild.
  { exists [ReadFile childFile], (Ok ()). split; [done|]. split; [|done].
    apply knobWrites_none. by repeat constructor. }
  destruct (negb _) eqn:Hblank.
  { exists [ReadFile childFile], (Ok ()). split; [done|]. split; [|done].
    apply knobWrites_none. by repeat constructor. }
  apply negb_false_iff, String.eqb_eq in Hblank.
  destruct (errno (kernel (h ++ [ReadFile childFile]) (ReadFile parentFile)))
    as [e|] eqn:Hparent.
  { exists [ReadFile childFile; ReadFile parentFile], (Ok ()).
    rewrite <- app_assoc. split; [done|]. split; [|done].
    apply knobWrites_none. by repeat constructor. }
  set (data := content (kernel (h ++ [ReadFile childFile]) (ReadFile parentFile))).
  exists [ReadFile childFile; ReadFile parentFile;
          WriteFile childFile data 420; WriteFile childFile data 420], (Ok ()).
  rewrite <- !app_assoc. split; [done|]. split; [|done].
  intros l1 f data' perm l2 Heq.
  assert (Hl1 : exists l0', l1 = ReadFile childFile :: ReadFile parentFile :: l0'
                            /\ WriteFile f data' perm = WriteFile childFile data 420).
  { apply split_four in Heq as [[_ Heq] | [[_ Heq] | [[-> ->] | [-> ->]]]];
      [discriminate Heq | discriminate Heq | by eexists | by eexists]. }
  destruct Hl1 as (l0' & -> & Hw). apply WriteFile_inj in Hw as (-> & -> & ->).
  exists knob. repeat split; [done| |].
  - exists [], (ReadFile parentFile :: l0'). by rewrite app_nil_r.
  - exists [ReadFile childFile], l0'. by cbn zeta.
Qed.

(** X17: the workaround for the knobs of [cpuset] never fails and never
    panics, whatever the kernel answers; it only creates directories and
    reads and writes files (no mount, no lookup); and it never overwrites a
    knob that is set: every write goes, with mode 0644, to [cpuset.mems] or
    [cpuset.cpus] of [system.slice], after that same file was read without
    an error as empty or blank, and what is written was read without an
    error from the knob of the same name of the parent directory. *)
Theorem fixCpusetKnobs_writes (cpusetPath : string) (h : list call) :
  exists d,
    fixCpusetKnobs cpusetPath h = (h ++ d, Ok ())
    /\ Forall fileCall d
    /\ knobWrites (filepath.Join [cpusetPath; "system.slice"]) h d.
Proof.
  assert (Hkeeps : keeps (knobWrites (filepath.Join [cpusetPath; "system.slice"]))
                     (fixCpusetKnobs cpusetPath)).
  { unfold fixCpusetKnobs. cbn zeta.
    apply keeps_bind; [apply knobWrites_app| |].
    - apply (keeps_emits _ (fun c => forall f data perm, c <> WriteFile f data perm));
        [apply knobWrites_none|]. by apply emits_sys.
    - intros _. apply keeps_forEach; [apply knobWrites_nil | apply knobWrites_app|].
      intros knob Hknob. by apply keeps_knob. }
  destruct (Hkeeps h) as (d & r & Hrun & Hd & _).
  destruct (emits_fixCpusetKnobs_files fileCall cpusetPath (fun c Hc => Hc) h)
    as (d' & r' & Hrun' & Hfiles & _).
  destruct (fixCpusetKnobs_ok cpusetPath h) as [h' Hok].
  rewrite Hrun in Hrun', Hok. injection Hrun' as Hd' _. injection Hok as _ ->.
  apply app_inv_head in Hd' as <-. by exists d.
Qed.

(** ** Lookups and bind mounts of the legacy lockdown *)

Lemma paired_nil (h : list call) : paired h [].
Proof. split; intros l1 q l2 Heq; by destruct l1. Qed.

Lemma paired_app (h d1 d2 : list call) :
  paired h d1 -> paired (h ++ d1) d2 -> paired h (d1 ++ d2).
Proof.
  intros [Hb1 Hs1] [Hb2 Hs2]. split.
  - intros l1 q l2 Heq.
    apply eq_sym, app_cons_split in Heq as [(a2 & -> & ->) | (b1 & -> & ->)].
    + by apply (Hb1 l1 q a2).
    + destruct (Hb2 b1 q l2 eq_refl) as (l0 & -> & Hstat).
      exists (d1 ++ l0). rewrite <- app_assoc in Hstat. by rewrite <- app_assoc.
  - intros l1 q l2 Heq Hstat.
    apply eq_sym, app_cons_split in Heq as [(a2 & -> & ->) | (b1 & -> & ->)].
    + destruct (Hs1 l1 q a2 eq_refl Hstat) as [l2' ->]. by exists (l2' ++ d2).
    + rewrite app_assoc in Hstat. by apply (Hs2 b1 q l2).
Qed.

Lemma paired_quiet (h d : list call) :
  Forall (fun c => forall q, c <> bindMount q /\ c <> Stat q) d -> paired h d.
Proof.
  intros Hd. split; intros l1 q l2 ->; apply Forall_app in Hd as [_ Hd];
    apply Forall_cons in Hd as [Hc _]; by destruct (Hc q).
Qed.

Lemma Stat_inj (p q : string) : Stat p = Stat q -> p = q.
Proof. by intros [= ->]. Qed.

Lemma bindMount_inj (p q : string) : bindMount p = bindMount q -> p = q.
Proof. unfold bindMount. by intros [= ->]. Qed.

Lemma bindMount_ne_Stat (p q : string) : bindMount p <> Stat q.
Proof. done. Qed.

Lemma one_split {A : Type} (a b : A) (l1 l2 : list A) :
  [a] = l1 ++ b :: l2 -> l1 = [] /\ a = b /\ l2 = [].
Proof. destruct l1 as [|x [|y l1]]; intros Heq; by simplify_eq/=. Qed.

Lemma two_split {A : Type} (a b x : A) (l1 l2 : list A) :
  [a; b] = l1 ++ x :: l2 ->
  (l1 = [] /\ a = x /\ l2 = [b]) \/ (l1 = [a] /\ b = x /\ l2 = []).
Proof. destruct l1 as [|y1 [|y2 [|y3 l1]]]; intros Heq; simplify_eq/=; auto. Qed.

Lemma keeps_bindRWFile (appCgroup f : string) :
  keeps paired (bindRWFile appCgroup f).
Proof.
  intros h. unfold bindRWFile. cbn zeta.
  set (p := filepath.Join [appCgroup; f]).
  unfold sys, mbind, M_bind, bind, ret.
  destruct (IsNotExist (errno (kernel h (Stat p)))) eqn:Hstat.
  { exists [Stat p], (Ok ()). split; [done|]. split; [|done]. split.
    - intros l1 q l2 Heq. apply one_split in Heq as (_ & Heq & _).
      by apply eq_sym, bindMount_ne_Stat in Heq.
    - intros l1 q l2 Heq. apply one_split in Heq as (-> & Hq & ->).
      apply Stat_inj in Hq as <-. rewrite app_nil_r. congruence. }
  assert (Hpaired : paired h [Stat p; bindMount p]).
  { split.
    - intros l1 q l2 Heq. apply two_split in Heq as [(_ & Heq & _) | (-> & Hq & ->)];
        [by apply eq_sym, bindMount_ne_Stat in Heq|].
      apply bindMount_inj in Hq as <-. exists []. by rewrite app_nil_r.
    - intros l1 q l2 Heq _. apply two_split in Heq as [(-> & Hq & ->) | (_ & Heq & _)];
        [|by apply bindMount_ne_Stat in Heq].
      apply Stat_inj in Hq as <-. by exists []. }
  destruct (errno (kernel (h ++ [Stat p]) (bindMount p))) as [e|];
    eexists [Stat p; bindMount p], _; rewrite <- app_assoc; (split; [done|]); by split.
Qed.

(** X18: in the legacy lockdown lookups and bind mounts go in pairs.  A
    bind mount of a path onto itself comes right after the lookup of that
    path, and that lookup did not report the path as missing; a lookup that
    did not report the path as missing, whether it succeeded or failed with
    another error, is followed at once by the bind mount of the path.  So a
    file is left out exactly when its lookup reports it as missing. *)
Theorem RemountLegacyCgroupsRO_lookups (root : string)
    (enabledCgroups : gmap Z (list string)) (subcgroup : string)
    (serviceNames : list string) (h : list call) :
  exists d r,
    RemountLegacyCgroupsRO root enabledCgroups subcgroup serviceNames h = (h ++ d, r)
    /\ paired h d /\ r <> Panic.
Proof.
  assert (Hquiet : forall {A : Type} (m : M A),
             emits (fun c => forall q, c <> bindMount q /\ c <> Stat q) m ->
             keeps paired m).
  { intros A m. apply keeps_emits. apply paired_quiet. }
  assert (Hremount : forall p, keeps paired (mountFsRO p)).
  { intros p. apply Hquiet. unfold mountFsRO.
    apply emits_bind.
    - apply emits_sys. intros q. split; [|done].
      intros Heq. by apply eq_sym, bindMount_ne_remountRO in Heq.
    - intros r. destruct (errno r); auto with emits. }
  apply keeps_bind; [apply paired_app| |by intros _].
  apply keeps_forEach; [apply paired_nil | apply paired_app|].
  intros c _. unfold lockdownController.
  apply keeps_bind; [apply paired_app| |].
  { destruct (String.eqb c "cpuset"); [|by apply keeps_ret, paired_nil].
    apply Hquiet, emits_fixCpusetKnobs_files.
    intros [] Hc q; try done; by split. }
  intros _. apply keeps_bind; [apply paired_app| |by intros _].
  apply keeps_forEach; [apply paired_nil | apply paired_app|].
  intros s _. unfold lockdownService.
  apply keeps_bind; [apply paired_app| |].
  { apply Hquiet, emits_mkdirAll. intros q. by split. }
  intros _. apply keeps_forEach; [apply paired_nil | apply paired_app|].
  intros f _. apply keeps_bindRWFile.
Qed.

(** ** The failures of the legacy lockdown *)

Section Halting.

Variables must may : call -> Prop.

Lemma halting_ret {A : Type} (a : A) : halting must may (mret a).
Proof.
  intros h. exists [], (Ok a). rewrite app_nil_r. split; [done|].
  split; [|left; by exists a]. intros l1 c l2 e Heq. by destruct l1.
Qed.

Lemma halting_bind {A B : Type} (m : M A) (k : A -> M B) :
  halting must may m -> (forall a, halting must may (k a)) ->
  halting must may (m ≫= k).
Proof.
  intros Hm Hk h. destruct (Hm h) as (d1 & r1 & Hrun & Hfirst1 & Hlast1).
  rewrite (bind_run _ _ _ _ _ Hrun). destruct r1 as [a|err1|].
  - destruct (Hk a (h ++ d1)) as (d2 & r2 & Hrun2 & Hfirst2 & Hlast2).
    exists (d1 ++ d2), r2. rewrite Hrun2, app_assoc. split; [done|]. split.
    + intros l1 c l2 e Heq Hc He.
      apply eq_sym, app_cons_split in Heq as [(a2 & -> & ->) | (b1 & -> & ->)].
      * destruct (Hfirst1 l1 c a2 e eq_refl Hc He) as (_ & err & Herr & _).
        discriminate Herr.
      * rewrite app_assoc in He. by apply (Hfirst2 b1 c l2 e).
    + destruct Hlast2 as [Hok | (l1 & c & e & err & -> & Hc & He & -> & Hcause)];
        [by left|].
      right. exists (d1 ++ l1), c, e, err. rewrite <- app_assoc in He.
      split; [by rewrite app_assoc | done].
  - exists d1, (Err err1). split; [done|]. split.
    + intros l1 c l2 e Heq Hc He.
      destruct (Hfirst1 l1 c l2 e Heq Hc He) as (-> & err & [= ->] & Hcause). eauto.
    + destruct Hlast1 as [[a Hok] | (l1 & c & e & err & -> & Hc & He & [= ->] & Hcause)];
        [discriminate Hok|].
      right. by exists l1, c, e, err.
  - destruct Hlast1 as [[a Hok] | (l1 & c & e & err & _ & _ & _ & Herr & _)];
      [discriminate Hok | discriminate Herr].
Qed.

Lemma halting_forEach {A : Type} (xs : list A) (body : A -> M ()) :
  (forall x, halting must may (body x)) -> halting must may (forEach xs body).
Proof.
  intros Hbody. induction xs as [|x xs IH]; cbn [forEach].
  - apply halting_ret.
  - by apply halting_bind.
Qed.

Lemma halting_unchecked (c : call) : ~ must c -> halting must may (sys c).
Proof.
  intros Hc h. exists [c], (Ok (kernel h c)). split; [done|].
  split; [|left; by eexists].
  intros l1 c' l2 e Heq Hmust. apply one_split in Heq as (_ & -> & _). done.
Qed.

Lemma halting_checked (c : call) (k : Z -> M ()) :
  may c ->
  (forall e, exists err, k e = fail err /\ cause err = Errno e) ->
  halting must may (r ← sys c; match errno r with Some e => k e | None => mret () end).
Proof.
  intros Hc Hk h. unfold sys, mbind, M_bind, bind.
  destruct (errno (kernel h c)) as [e|] eqn:He.
  - destruct (Hk e) as (err & -> & Hcause). exists [c], (Err err). split; [done|]. split.
    + intros l1 c' l2 e' Heq _. apply one_split in Heq as (-> & <- & ->).
      rewrite app_nil_r, He. intros [= <-]. eauto.
    + right. exists [], c, e, err. by rewrite app_nil_r.
  - exists [c], (Ok ()). split; [done|]. split; [|left; by eexists].
    intros l1 c' l2 e' Heq _. apply one_split in Heq as (-> & <- & ->).
    rewrite app_nil_r, He. discriminate.
Qed.

Lemma halting_quiet {A : Type} (m : M A) :
  emits (fun c => ~ must c) m -> (forall h, exists h' a, m h = (h', Ok a)) ->
  halting must may m.
Proof.
  intros Hm Hok h. destruct (Hm h) as (d & r & Hrun & Hd & _).
  destruct (Hok h) as (h' & a & Hrun'). rewrite Hrun in Hrun'. injection Hrun' as _ ->.
  exists d, (Ok a). split; [done|]. split; [|left; by eexists].
  intros l1 c l2 e -> Hc. apply Forall_app in Hd as [_ Hd].
  apply Forall_cons in Hd as [Hno _]. done.
Qed.

End Halting.

Lemma RemountLegacyCgroupsRO_halting (root : string)
    (enabledCgroups : gmap Z (list string)) (subcgroup : string)
    (serviceNames : list string) :
  halting (fun c => isMount c = true)
          (fun c => isMount c = true \/ exists path perm, c = MkdirAll path perm)
          (RemountLegacyCgroupsRO root enabledCgroups subcgroup serviceNames).
Proof.
  set (must := fun c => isMount c = true).
  set (may := fun c => isMount c = true \/ exists path perm, c = MkdirAll path perm).
  assert (Hremount : forall p, halting must may (mountFsRO p)).
  { intros p.
    apply (halting_checked _ _ _
             (fun e => fail (Wrap (Errorf "error remounting RO %q" [Str p]) (Errno e))));
      [by left|]. intros e. by eexists. }
  unfold RemountLegacyCgroupsRO.
  apply halting_bind; [|by intros _].
  apply halting_forEach. intros c. unfold lockdownController.
  apply halting_bind.
  { destruct (String.eqb c "cpuset"); [|apply halting_ret].
    apply halting_quiet.
    - apply emits_fixCpusetKnobs_files. by intros [].
    - intros h. destruct (fixCpusetKnobs_ok (filepath.Join
                            [filepath.Join [root; "/sys/fs/cgroup"]; c]) h) as [h' Hok].
      by exists h', (). }
  intros _. apply halting_bind; [|by intros _].
  apply halting_forEach. intros s. unfold lockdownService.
  apply halting_bind.
  { apply (halting_checked _ _ _ (fun e => fail (Errno e))).
    - right. by eexists _, _.
    - intros e. by eexists. }
  intros _. apply halting_forEach. intros f. unfold bindRWFile.
  apply halting_bind; [by apply halting_unchecked|].
  intros st. destruct (IsNotExist (errno st)); [apply halting_ret|].
  apply (halting_checked _ _ _
           (fun e => fail (Wrap (Errorf "error bind mounting %q"
                                   [Str (filepath.Join
                                           [filepath.Join
                                              [filepath.Join
                                                 [filepath.Join
                                                    [filepath.Join [root; "/sys/fs/cgroup"]; c];
                                                  subcgroup; "system.slice"]; s]; f])])
                                (Errno e)))); [by left|].
  intros e. by eexists.
Qed.

(** X19: the failures of the legacy lockdown.  A mount that fails, the bind
    mount of a knob or a read-only remount, is the last call of the
    lockdown, and its error is the cause of the error returned.  The
    lockdown returns an error only when its last call is a mount or the
    creation of a directory and failed, with the error of that call as the
    cause: lookups, reads and writes that fail never make it fail. *)
Theorem RemountLegacyCgroupsRO_failures (root : string)
    (enabledCgroups : gmap Z (list string)) (subcgroup : string)
    (serviceNames : list string) :
  halting (fun c => isMount c = true)
          (fun c => isMount c = true \/ exists path perm, c = MkdirAll path perm)
          (RemountLegacyCgroupsRO root enabledCgroups subcgroup serviceNames).
Proof.
  exact (RemountLegacyCgroupsRO_halting root enabledCgroups subcgroup serviceNames).
Qed.

(** ** Joining a subcgroup *)

Lemma Join_empty_controller (subcgroup : string) :
  filepath.Join ["/sys/fs/cgroup"; ""; subcgroup]
  = filepath.Join ["/sys/fs/cgroup"; subcgroup].
Proof. reflexivity. Qed.

(** X20: joining a subcgroup.  [JoinLegacySubcgroup] creates the directory
    of the subcgroup below the controller, with mode 0600, and then writes
    the decimal process id to its [cgroup.procs]; nothing is written when
    the directory cannot be created.  Each of the two calls that fails ends
    the join, its error being the cause of the error returned.  With an
    empty controller name the legacy join is the unified [JoinSubcgroup]:
    the two issue the same calls and return the same errors. *)
Theorem JoinLegacySubcgroup_calls (controller subcgroup : string) :
  let subcgroupPath := filepath.Join ["/sys/fs/cgroup"; controller; subcgroup] in
  scripted [MkdirAll subcgroupPath 384;
            WriteFile (filepath.Join [subcgroupPath; "cgroup.procs"])
                      (strconv.Itoa Getpid) 384]
           (JoinLegacySubcgroup controller subcgroup)
  /\ aborting (fun _ _ => False) (JoinLegacySubcgroup controller subcgroup)
  /\ JoinLegacySubcgroup "" subcgroup = JoinSubcgroup subcgroup.
Proof.
  intros subcgroupPath. split; [|split].
  - unfold JoinLegacySubcgroup. fold subcgroupPath.
    apply (scripted_bind [_] [_]).
    { apply (scripted_step _
               (fun e => fail (Wrap (Errorf "error creating %q subcgroup" [Str subcgroup])
                                    (Errno e)))).
      intros e. right. by eexists. }
    apply (scripted_bind [_] []); [|apply scripted_ret].
    apply (scripted_step _
             (fun e => fail (Wrap (Errorf "error adding ourselves to the %q subcgroup"
                                     [Str subcgroup]) (Errno e)))).
    intros e. right. by eexists.
  - unfold JoinLegacySubcgroup. fold subcgroupPath.
    apply aborting_bind.
    { apply (aborting_step _ _
               (fun e => fail (Wrap (Errorf "error creating %q subcgroup" [Str subcgroup])
                                    (Errno e)))).
      intros e. right. split; [by intros [] | by eexists]. }
    apply aborting_bind; [|apply aborting_ret].
    apply (aborting_step _ _
             (fun e => fail (Wrap (Errorf "error adding ourselves to the %q subcgroup"
                                     [Str subcgroup]) (Errno e)))).
    intros e. right. split; [by intros [] | by eexists].
  - unfold JoinLegacySubcgroup, JoinSubcgroup. by rewrite Join_empty_controller.
Qed.

Lemma enabled_lines (f : File) (cgroups : gmap Z (list string)) (h : Z)
    (cs : list string) (c : string) :
  parseLegacyCgroups f = Ok cgroups -> cgroups !! h = Some cs -> c ∈ cs ->
  exists text num, text ∈ tail (lines f) /\ Sscanf text = (c, h, num, 1).
Proof.
  unfold parseLegacyCgroups. destruct (readErr f); [discriminate|].
  intros [= <-]. rewrite scanLegacyCgroups_lookup, lookup_empty.
  destruct (group h (map Sscanf (tail (lines f)))) as [|g0 g] eqn:Hgroup; [discriminate|].
  intros [= <-] Hc. cbn [default app] in Hc. rewrite <- Hgroup in Hc.
  apply elem_of_group in Hc as [num Hin].
  apply list_elem_of_fmap in Hin as (text & Hrow & Hin). by exists text, num.
Qed.

(** ** The paths of the builders and of the lockdowns *)

Lemma Split_append (a b : string) (sep : ascii) :
  strings.Split (a +:+ String sep b) sep = strings.Split a sep ++ strings.Split b sep.
Proof.
  induction a as [|x a IH].
  - change ("" +:+ String sep b) with (String sep b).
    cbn [strings.Split]. by rewrite Ascii.eqb_refl.
  - change (String x a +:+ String sep b) with (String x (a +:+ String sep b)).
    cbn [strings.Split]. rewrite IH. destruct (Ascii.eqb x sep); [done|].
    destruct (strings.Split a sep) as [|w ws] eqn:Hsplit; [by apply Split_nonempty in Hsplit|].
    done.
Qed.

Lemma cleanStep_replayable (rooted : bool) (kept : list string) (elem : string) :
  replayable rooted kept -> replayable rooted (filepath.cleanStep rooted kept elem).
Proof.
  intros Hkept. unfold filepath.cleanStep.
  destruct (String.eqb elem "" || String.eqb elem ".") eqn:Hskip; [done|].
  destruct (String.eqb elem "..") eqn:Hup.
  - apply String.eqb_eq in Hup as ->. destruct kept as [|top below].
    + destruct rooted; [done|]. by constructor.
    + destruct (String.eqb top "..") eqn:Htop.
      * constructor; [done|]. unfold filepath.cleanStep. cbn. by rewrite Htop.
      * by inversion Hkept.
  - constructor; [done|]. unfold filepath.cleanStep. by rewrite Hskip, Hup.
Qed.

Lemma fold_replayable (rooted : bool) (elems kept : list string) :
  replayable rooted kept ->
  replayable rooted (fold_left (filepath.cleanStep rooted) elems kept).
Proof.
  revert kept. induction elems as [|e elems IH]; intros kept Hkept; [done|].
  cbn [fold_left]. by apply IH, cleanStep_replayable.
Qed.

Lemma replay (rooted : bool) (kept : list string) :
  replayable rooted kept ->
  fold_left (filepath.cleanStep rooted) (rev kept) [] = kept.
Proof.
  induction 1 as [|e kept Hkept IH Hstep]; [done|].
  cbn [rev]. by rewrite fold_left_app, IH.
Qed.

Lemma replayable_nonempty (rooted : bool) (kept : list string) :
  replayable rooted kept -> Forall (fun e => e <> "") kept.
Proof.
  induction 1 as [|e kept Hkept IH Hstep]; constructor; [|done].
  intros ->. unfold filepath.cleanStep in Hstep. cbn in Hstep.
  apply (f_equal List.length) in Hstep. cbn in Hstep. lia.
Qed.

Lemma cleanStep_no_slash (rooted : bool) (kept : list string) (elem : string) :
  mentions elem "/"%char = false ->
  Forall (fun e => mentions e "/"%char = false) kept ->
  Forall (fun e => mentions e "/"%char = false) (filepath.cleanStep rooted kept elem).
Proof.
  intros Helem Hkept. unfold filepath.cleanStep.
  destruct (_ || _); [done|]. destruct (String.eqb elem "..").
  - destruct kept as [|top below]; [destruct rooted; by repeat constructor|].
    destruct (String.eqb top ".."); [by constructor|]. by inversion Hkept.
  - by constructor.
Qed.

Lemma fold_no_slash (rooted : bool) (elems kept : list string) :
  Forall (fun e => mentions e "/"%char = false) elems ->
  Forall (fun e => mentions e "/"%char = false) kept ->
  Forall (fun e => mentions e "/"%char = false)
         (fold_left (filepath.cleanStep rooted) elems kept).
Proof.
  revert kept. induction elems as [|e elems IH]; intros kept Helems Hkept; [done|].
  apply Forall_cons in Helems as [He Helems]. cbn [fold_left].
  by apply IH, cleanStep_no_slash.
Qed.

Lemma HasPrefix_slash (x : ascii) (s : string) :
  strings.HasPrefix (String x s) "/" = Ascii.eqb x "/"%char.
Proof.
  unfold strings.HasPrefix. cbn [String.prefix].
  destruct (ascii_dec "/"%char x) as [<- | Hne].
  - by destruct s.
  - symmetry. apply Ascii.eqb_neq. congruence.
Qed.

Lemma Clean_kept (a : string) :
  a <> "" ->
  let rooted := strings.HasPrefix a "/" in
  filepath.Clean a <> ""
  /\ strings.HasPrefix (filepath.Clean a) "/" = rooted
  /\ fold_left (filepath.cleanStep rooted) (strings.Split (filepath.Clean a) "/"%char) []
     = fold_left (filepath.cleanStep rooted) (strings.Split a "/"%char) [].
Proof.
  intros Ha rooted. unfold filepath.Clean. fold rooted.
  destruct (String.eqb_spec a "") as [->|_]; [done|].
  set (kept := fold_left (filepath.cleanStep rooted) (strings.Split a "/"%char) []).
  assert (Hreplay : replayable rooted kept) by (apply fold_replayable; constructor).
  assert (Hslash : Forall (fun e => mentions e "/"%char = false) kept).
  { apply fold_no_slash; [apply Split_fields | constructor]. }
  pose proof (replayable_nonempty _ _ Hreplay) as Hnonempty.
  assert (Hsplit : kept <> [] ->
                   strings.Split (strings.Join (rev kept) "/") "/"%char = rev kept).
  { intros Hkept. change "/" with (String "/"%char "").
    apply Split_Join; [|by apply Forall_rev].
    intros Hrev. apply (f_equal (@rev string)) in Hrev. by rewrite rev_involutive in Hrev. }
  destruct rooted.
  - change ("/" +:+ strings.Join (rev kept) "/")
      with (String "/"%char (strings.Join (rev kept) "/")).
    split; [done|]. split; [by rewrite HasPrefix_slash|].
    cbn [strings.Split Ascii.eqb Bool.eqb]. cbn [fold_left].
    change (filepath.cleanStep true [] "") with (@nil string).
    destruct kept as [|e kept'] eqn:Hkept; [done|].
    rewrite Hsplit by done. by apply replay.
  - destruct kept as [|e kept'] eqn:Hkept; [done|].
    pose proof (Hsplit ltac:(done)) as Hback.
    pose proof (replay _ _ Hreplay) as Hagain.
    destruct (rev (e :: kept')) as [|e0 rest] eqn:Hrev.
    { apply (f_equal (@rev string)) in Hrev. by rewrite rev_involutive in Hrev. }
    assert (Hin : e0 ∈ e :: kept').
    { apply list_elem_of_In, in_rev. rewrite Hrev. by left. }
    assert (He0 : e0 <> "") by (rewrite Forall_forall in Hnonempty; by apply Hnonempty).
    assert (Hs0 : mentions e0 "/"%char = false)
      by (rewrite Forall_forall in Hslash; by apply Hslash).
    destruct e0 as [|x e0]; [done|]. cbn [mentions] in Hs0.
    apply orb_false_iff in Hs0 as [Hx _].
    rewrite Join_String in *. cbn [String.eqb].
    split; [done|]. split; [by rewrite HasPrefix_slash|]. by rewrite Hback.
Qed.

Lemma Clean_append (p c : string) :
  p <> "" ->
  let rooted := strings.HasPrefix p "/" in
  let kept := fold_left (filepath.cleanStep rooted) (strings.Split c "/"%char)
                (fold_left (filepath.cleanStep rooted) (strings.Split p "/"%char) []) in
  let body := strings.Join (rev kept) "/" in
  filepath.Clean (p +:+ "/" +:+ c)
  = if rooted then "/" +:+ body else if String.eqb body "" then "." else body.
Proof.
  intros Hp rooted kept body. destruct p as [|x p]; [done|].
  unfold filepath.Clean.
  change (String x p +:+ "/" +:+ c) with (String x (p +:+ String "/"%char c)).
  cbn [String.eqb]. rewrite HasPrefix_slash.
  change (String x (p +:+ String "/"%char c)) with (String x p +:+ String "/"%char c).
  rewrite Split_append, fold_left_app.
  unfold body, kept, rooted. by rewrite HasPrefix_slash.
Qed.

Lemma Clean_Clean_append (a c : string) :
  a <> "" ->
  filepath.Clean (filepath.Clean a +:+ "/" +:+ c) = filepath.Clean (a +:+ "/" +:+ c).
Proof.
  intros Ha. destruct (Clean_kept a Ha) as (Hne & Hrooted & Hkept).
  rewrite (Clean_append _ c Hne), (Clean_append a c Ha). cbn zeta.
  by rewrite Hrooted, Hkept.
Qed.

Lemma append_assoc (a b c : string) : (a +:+ b) +:+ c = a +:+ (b +:+ c).
Proof.
  induction a as [|x a IH]; [done|].
  change (String x ((a +:+ b) +:+ c) = String x (a +:+ (b +:+ c))). by rewrite IH.
Qed.

Lemma Join_two (x c : string) :
  x <> "" -> filepath.Join [x; c] = filepath.Clean (x +:+ "/" +:+ c).
Proof. intros Hx. cbn [filepath.Join]. by destruct (String.eqb_spec x ""). Qed.

Lemma Join_nested (root c : string) :
  filepath.Join [filepath.Join [root; "/sys/fs/cgroup"]; c]
  = filepath.Join [root; "/sys/fs/cgroup"; c].
Proof.
  destruct (String.eqb_spec root "") as [-> | Hroot]; [reflexivity|].
  assert (Hne : root +:+ "/" +:+ "/sys/fs/cgroup" <> "") by (by destruct root).
  assert (Hinner : filepath.Join [root; "/sys/fs/cgroup"]
                   = filepath.Clean (root +:+ "/" +:+ "/sys/fs/cgroup"))
    by (by apply Join_two).
  assert (Houter : filepath.Join [root; "/sys/fs/cgroup"; c]
                   = filepath.Clean ((root +:+ "/" +:+ "/sys/fs/cgroup") +:+ "/" +:+ c)).
  { cbn [filepath.Join]. destruct (String.eqb_spec root "") as [|_]; [done|].
    f_equal. unfold strings.Join. cbn [String.concat].
    by rewrite !append_assoc. }
  destruct (Clean_kept _ Hne) as (Hclean & _).
  rewrite Houter, <- (Clean_Clean_append _ c Hne), Hinner.
  by apply Join_two.
Qed.

Lemma cleanStep_empty (rooted : bool) (kept : list string) :
  filepath.cleanStep rooted kept "" = kept.
Proof. reflexivity. Qed.

(** X22: the builder and the lockdown agree on the directory of a
    controller, whatever the root and the name are: the directory the
    lockdown computes in two steps, and remounts read-only, is the one on
    which the builder mounted the hierarchy. *)
Theorem controllerPath_mounted (root c : string) :
  controllerPath root c = filepath.Join [root; "/sys/fs/cgroup"; c]
  /\ cgroupMount root c
     = Mount "cgroup" (controllerPath root c) "cgroup"
             (Z.lor syscall.MS_NOSUID (Z.lor syscall.MS_NOEXEC syscall.MS_NODEV)) c.
Proof.
  assert (Hpath : controllerPath root c = filepath.Join [root; "/sys/fs/cgroup"; c])
    by apply Join_nested.
  split; [done|]. unfold cgroupMount. by rewrite Hpath.
Qed.

(** X23: the unified lockdown names the cgroup tree with a relative
    element, [sys/fs/cgroup], where the unified builder names it with
    [/sys/fs/cgroup].  The two agree on the directory, the one that is
    remounted read-only being the one [cgroup2] was mounted on, exactly when
    the root is not empty; with an empty root the lockdown works below the
    current directory. *)
Theorem unified_cgroup_path (root : string) :
  filepath.Join [root; "sys/fs/cgroup"] = filepath.Join [root; "/sys/fs/cgroup"]
  <-> root <> "".
Proof.
  split.
  - intros Heq ->. discriminate Heq.
  - intros Hroot. rewrite !Join_two by done. rewrite !(Clean_append root _ Hroot).
    cbn zeta.
    assert (Hsplit : strings.Split "/sys/fs/cgroup" "/"%char
                     = "" :: strings.Split "sys/fs/cgroup" "/"%char) by reflexivity.
    rewrite Hsplit. cbn [fold_left]. by rewrite cleanStep_empty.
Qed.

(** ** Failures of the inventory and of the unified lockdown *)

(** X24: [GetEnabledLegacyCgroups] fails for two reasons only: the file
    does not open, and the error of the open is returned as it is; or
    reading it ended on an error, which is returned wrapped as the cause of
    "error parsing /proc/cgroups".  What the lines hold never makes it fail,
    and it never panics. *)
Theorem GetEnabledLegacyCgroups_errors :
  (forall e, GetEnabledLegacyCgroups = Err e
             <-> Open "/proc/cgroups" = inl e
                 \/ exists f err,
                      Open "/proc/cgroups" = inr f /\ readErr f = Some err
                      /\ e = Wrap (Errorf "error parsing /proc/cgroups" []) err)
  /\ GetEnabledLegacyCgroups <> Panic.
Proof.
  unfold GetEnabledLegacyCgroups, parseLegacyCgroups.
  destruct (Open "/proc/cgroups") as [e0|f].
  - split; [|done]. intros e. split.
    + intros [= ->]. by left.
    + intros [[= ->] | (f & err & Hf & _)]; [done | discriminate Hf].
  - destruct (readErr f) as [err|] eqn:Herr.
    + split; [|done]. intros e. split.
      * intros [= <-]. right. by exists f, err.
      * intros [Hopen | (f' & err' & [= <-] & Herr' & ->)]; [discriminate Hopen|].
        congruence.
    + split; [|done]. intros e. split; [discriminate|].
      intros [Hopen | (f' & err' & [= <-] & Herr' & _)]; [discriminate Hopen|].
      congruence.
Qed.

(** X25: in the unified lockdown every call that fails is the last call,
    and its error is the cause of the error returned; an error is returned
    in that case only. *)
Theorem RemountCgroupsRO_failures (root subcgroup : string)
    (serviceNames : list string) :
  aborting (fun _ _ => False) (RemountCgroupsRO root subcgroup serviceNames).
Proof. exact (RemountCgroupsRO_aborting root subcgroup serviceNames). Qed.

(** ** Paths below a controller directory *)














(** ** Every knob is dealt with before the remount *)















End Cgroup.

(** ** The dispatch through [isolatorFuncs] *)





(** * The properties on the fixtures *)


(** C5 on the fixture: [pids] is not listed in [/proc/cgroups]. *)
Lemma MaybeAddIsolator_unchanged_witness :
  IsIsolatorSupported Fixture.Open "pids" = Ok false
  /\ MaybeAddIsolator Fixture.Open
       [unit.NewUnitOption "Service" "Slice" "machine.slice"] "pids"
       (Some {| resource.milli := 1000 |})
     = (["warning: resource/pids isolator set but support disabled in the kernel, skipping"],
        Ok [unit.NewUnitOption "Service" "Slice" "machine.slice"])
  /\ MaybeAddIsolator Fixture.Open
       [unit.NewUnitOption "Service" "Slice" "machine.slice"] "memory" None
     = ([], Ok [unit.NewUnitOption "Service" "Slice" "machine.slice"]).
Proof.
  assert (Hpids : IsIsolatorSupported Fixture.Open "pids" = Ok false) by reflexivity.
  split; [exact Hpids|]. split.
  - exact (MaybeAddIsolator_unchanged Fixture.Open _ "pids"
             (Some {| resource.milli := 1000 |}) (or_intror Hpids)).
  - exact (MaybeAddIsolator_unchanged Fixture.Open _ "memory" None (or_introl eq_refl)).
Defined.

(** C6 on the fixture. *)
Lemma parseLegacyCgroups_groups_witness :
  readErr Fixture.procCgroups = None
  /\ NoDup (map rowName (enabledRows fmt.Sscanf_sddd Fixture.procCgroups))
  /\ exists cgroups : gmap Z (list string),
       parseLegacyCgroups fmt.Sscanf_sddd Fixture.procCgroups = Ok cgroups
       /\ (forall h cs, cgroups !! h = Some cs
             <-> cs <> [] /\ cs = group h (rows fmt.Sscanf_sddd Fixture.procCgroups))
       /\ (forall c h, (exists cs, cgroups !! h = Some cs /\ c ∈ cs)
             <-> exists num, (c, h, num, 1) ∈ rows fmt.Sscanf_sddd Fixture.procCgroups)
       /\ (forall c h1 h2 cs1 cs2,
             cgroups !! h1 = Some cs1 -> c ∈ cs1 ->
             cgroups !! h2 = Some cs2 -> c ∈ cs2 -> h1 = h2).
Proof.
  assert (Hnodup : NoDup (map rowName (enabledRows fmt.Sscanf_sddd Fixture.procCgroups))).
  { apply (@bool_decide_unpack _ (NoDup_dec _)). vm_compute. exact I. }
  split; [reflexivity|]. split; [exact Hnodup|].
  exact (parseLegacyCgroups_groups fmt.Sscanf_sddd Fixture.procCgroups eq_refl Hnodup).
Defined.

(** C7 on the fixture. *)
Lemma parseLegacyCgroups_header_witness :
  readErr Fixture.procCgroups = None
  /\ exists cgroups : gmap Z (list string),
       parseLegacyCgroups fmt.Sscanf_sddd Fixture.procCgroups = Ok cgroups
       /\ (forall (i : nat) text controller hierarchy num,
             (0 < i)%nat -> lines Fixture.procCgroups !! i = Some text ->
             fmt.Sscanf_sddd text = (controller, hierarchy, num, 1) ->
             exists cs, cgroups !! hierarchy = Some cs /\ controller ∈ cs)
       /\ (forall first : string,
             parseLegacyCgroups fmt.Sscanf_sddd
               {| lines := first :: tail (lines Fixture.procCgroups); readErr := None |}
             = Ok cgroups).
Proof.
  split; [reflexivity|].
  exact (parseLegacyCgroups_header fmt.Sscanf_sddd Fixture.procCgroups eq_refl).
Defined.

(** C7, as the specification states it, fails on the fixture: the second
    line of the file is the row of [cpuset], which the parser reads, and
    which a parser skipping two lines loses. *)
Lemma parseLegacyCgroups_header_counterexample :
  (exists cgroups, parseLegacyCgroups fmt.Sscanf_sddd Fixture.procCgroups = Ok cgroups
                   /\ cgroups !! 2 = Some ["cpuset"])
  /\ (exists cgroups,
        parseLegacyCgroups_twoLineHeader fmt.Sscanf_sddd Fixture.procCgroups = Ok cgroups
        /\ cgroups !! 2 = None)
  /\ parseLegacyCgroups fmt.Sscanf_sddd Fixture.procCgroups
     <> parseLegacyCgroups_twoLineHeader fmt.Sscanf_sddd Fixture.procCgroups.
Proof.
  assert (H1 : exists cgroups,
             parseLegacyCgroups fmt.Sscanf_sddd Fixture.procCgroups = Ok cgroups
             /\ cgroups !! 2 = Some ["cpuset"]).
  { eexists. split; [reflexivity|]. vm_compute. reflexivity. }
  assert (H2 : exists cgroups,
             parseLegacyCgroups_twoLineHeader fmt.Sscanf_sddd Fixture.procCgroups = Ok cgroups
             /\ cgroups !! 2 = None).
  { eexists. split; [reflexivity|]. vm_compute. reflexivity. }
  split; [exact H1|]. split; [exact H2|].
  destruct H1 as (m1 & Hm1 & Hl1), H2 as (m2 & Hm2 & Hl2).
  rewrite Hm1, Hm2. intros [= ->]. rewrite Hl1 in Hl2. discriminate Hl2.
Qed.

(** C8 on the fixture of the specification: the line
    [4:memory:/machine-slice/app1] answers ["memory"], and ["cpu"], which no
    line lists, is not found. *)
Lemma GetLegacyCgroupPathByPid_witness :
  Fixture.Open ("/proc/" +:+ strconv.Itoa 4242 +:+ "/cgroup") = inr Fixture.procPidCgroup
  /\ lines Fixture.procPidCgroup = map cgroupLine Fixture.procPidEntries
  /\ Forall wellFormed Fixture.procPidEntries
  /\ GetLegacyCgroupPathByPid Fixture.Open 4242 "memory" = Ok "/machine-slice/app1"
  /\ GetLegacyCgroupPathByPid Fixture.Open 4242 "cpu"
     = Err (Errorf "controller %q not found" [Str "cpu"]).
Proof.
  assert (Hopen : Fixture.Open ("/proc/" +:+ strconv.Itoa 4242 +:+ "/cgroup")
                  = inr Fixture.procPidCgroup) by reflexivity.
  assert (Hlines : lines Fixture.procPidCgroup = map cgroupLine Fixture.procPidEntries)
    by reflexivity.
  assert (Hwf : Forall wellFormed Fixture.procPidEntries).
  { repeat constructor; intros Hnil; discriminate Hnil. }
  split; [exact Hopen|]. split; [exact Hlines|]. split; [exact Hwf|]. split.
  - exact (GetLegacyCgroupPathByPid_first_match Fixture.Open 4242 "memory"
             Fixture.procPidCgroup Fixture.procPidEntries Hopen Hlines Hwf).
  - exact (GetLegacyCgroupPathByPid_first_match Fixture.Open 4242 "cpu"
             Fixture.procPidCgroup Fixture.procPidEntries Hopen Hlines Hwf).
Defined.

(** C2 on a kernel under which every file exists and every call succeeds. *)
Lemma RemountCgroupsRO_calls_witness :
  (forall m : gmap string (list string), map_to_list m ≡ₚ map_to_list m)
  /\ RemountCgroupsRO Fixture.quietKernel "/rootfs"
       "machine.slice/machine-rkt.scope/system.slice" ["app.service"] []
     = ([MkdirAll "/rootfs/sys/fs/cgroup/machine.slice/machine-rkt.scope/system.slice" 448;
         bindMount "/rootfs/sys/fs/cgroup/machine.slice/machine-rkt.scope";
         remountRO "/rootfs/sys/fs/cgroup";
         remountRO "/rootfs/sys"], Ok ())
  /\ getControllersRWFiles map_to_list
     = ["cgroup.procs"; "cgroup.controllers"; "cgroup.subtree_control";
        "cgroup.events"; "memory.low"; "memory.high"; "memory.max";
        "memory.swap.max"].
Proof.
  assert (Hrange : forall m : gmap string (list string), map_to_list m ≡ₚ map_to_list m)
    by (intros m; reflexivity).
  split; [exact Hrange|]. split; [reflexivity|].
  exact (proj2 (RemountCgroupsRO_calls map_to_list Hrange Fixture.quietKernel "/rootfs"
                  "machine.slice/machine-rkt.scope/system.slice" ["app.service"] [])).
Defined.

(** C2, as the specification states it, fails under a kernel where every
    file of the whitelist exists: the lockdown succeeds, and its one bind
    mount is that of the machine directory; no file is looked up, and no
    path ending in a name of the whitelist is bind-mounted. *)
Lemma RemountCgroupsRO_whitelist_counterexample :
  let run := RemountCgroupsRO Fixture.quietKernel "/rootfs"
               "machine.slice/machine-rkt.scope/system.slice" ["app.service"] [] in
  run.2 = Ok ()
  /\ (forall name, errno (Fixture.quietKernel [] (Stat name)) = None)
  /\ (forall name, Stat name ∉ run.1)
  /\ (forall path, bindMount path ∈ run.1 ->
        path = "/rootfs/sys/fs/cgroup/machine.slice/machine-rkt.scope"
        /\ forall f, f ∈ getControllersRWFiles map_to_list ->
                     strings.HasSuffix path f = false).
Proof.
  cbv zeta.
  assert (Hrun : RemountCgroupsRO Fixture.quietKernel "/rootfs"
                   "machine.slice/machine-rkt.scope/system.slice" ["app.service"] []
                 = ([MkdirAll "/rootfs/sys/fs/cgroup/machine.slice/machine-rkt.scope/system.slice" 448;
                     bindMount "/rootfs/sys/fs/cgroup/machine.slice/machine-rkt.scope";
                     remountRO "/rootfs/sys/fs/cgroup";
                     remountRO "/rootfs/sys"], Ok ())) by reflexivity.
  rewrite Hrun. cbn [fst snd]. split; [done|]. split; [done|]. split.
  - intros name Hin. repeat (apply elem_of_cons in Hin as [Hin | Hin]; [discriminate Hin|]).
    inversion Hin.
  - intros path Hin.
    assert (Hpath : path = "/rootfs/sys/fs/cgroup/machine.slice/machine-rkt.scope").
    { apply elem_of_cons in Hin as [Hin | Hin]; [discriminate Hin|].
      apply elem_of_cons in Hin as [Hin | Hin]; [by injection Hin|].
      apply elem_of_cons in Hin as [Hin | Hin];
        [by apply bindMount_ne_remountRO in Hin|].
      apply elem_of_cons in Hin as [Hin | Hin];
        [by apply bindMount_ne_remountRO in Hin|].
      inversion Hin. }
    split; [exact Hpath|]. subst path. intros f Hf.
    assert (Hlist : getControllersRWFiles map_to_list
                    = ["cgroup.procs"; "cgroup.controllers"; "cgroup.subtree_control";
                       "cgroup.events"; "memory.low"; "memory.high"; "memory.max";
                       "memory.swap.max"]) by reflexivity.
    rewrite Hlist in Hf.
    repeat (apply elem_of_cons in Hf as [-> | Hf]; [reflexivity|]). inversion Hf.
Qed.

(** C9, as the specification states it, fails for [CreateCgroups]: with
    [sysfs] mounted already, the unified builder stops at the mount with the
    error [EBUSY] wrapped, where the legacy builder goes on and succeeds. *)
Lemma CreateCgroups_EBUSY_counterexample :
  errno (Fixture.busyKernel [MkdirAll "/rootfs/sys" 448] (sysfsMount "/rootfs")) = Some EBUSY
  /\ CreateCgroups Fixture.busyKernel "/rootfs" []
     = ([MkdirAll "/rootfs/sys" 448; sysfsMount "/rootfs"],
        Err (Wrap (Errorf "error mounting %q" [Str "/rootfs/sys"]) (Errno EBUSY)))
  /\ (CreateLegacyCgroups map_to_list Fixture.busyKernel map_to_list "/rootfs"
        Fixture.enabledCgroups "" []).2 = Ok ().
Proof. repeat split; vm_compute; reflexivity. Qed.

(** ** The library models on examples *)

Example Sscanf_example :
  fmt.Sscanf_sddd ("cpuset" +:+ tab +:+ "2" +:+ tab +:+ "4" +:+ tab +:+ "1")
    = ("cpuset", 2, 4, 1)
  /\ fmt.Sscanf_sddd "#subsys_name hierarchy num_cgroups enabled"
    = ("#subsys_name", 0, 0, 0)
  /\ fmt.Sscanf_sddd "memory 7 -12 0 trailing" = ("memory", 7, -12, 0)
  /\ fmt.Sscanf_sddd "  cpu   3 x 1" = ("cpu", 3, 0, 0)
  /\ fmt.Sscanf_sddd "" = ("", 0, 0, 0).
Proof. repeat split; vm_compute; reflexivity. Qed.

Example Split_example :
  strings.Split "a,,b" ","%char = ["a"; ""; "b"]
  /\ strings.Split "" ","%char = [""]
  /\ strings.SplitN "4:memory:/a:b" ":"%char 3 = ["4"; "memory"; "/a:b"]
  /\ strings.SplitN "4:memory" ":"%char 3 = ["4"; "memory"].
Proof. repeat split; reflexivity. Qed.

Example Join_example :
  filepath.Join ["/rootfs"; "/sys/fs/cgroup"] = "/rootfs/sys/fs/cgroup"
  /\ filepath.Join [""; "/sys"] = "/sys"
  /\ filepath.Join ["/"; "/sys"] = "/sys"
  /\ filepath.Join ["a/../../b"; "c/./d//"] = "../b/c/d"
  /\ filepath.Join ["/.."; ""] = "/"
  /\ filepath.Dir "/sys/fs/cgroup/cpuset/system.slice" = "/sys/fs/cgroup/cpuset"
  /\ filepath.Dir "system.slice" = "."
  /\ strings.TrimSuffix "/r/sys/fs/cgroup/machine.slice/m/system.slice" "/system.slice"
     = "/r/sys/fs/cgroup/machine.slice/m"
  /\ strings.TrimSpace (tab +:+ " 0-3 " +:+ String (ascii_of_nat 10) "") = "0-3"
  /\ strings.TrimSpace " x" = "x" /\ strings.TrimSpace "a x" = "a x"
  /\ strings.TrimSpace (tab +:+ " ") = ""
  /\ strconv.Itoa (-120) = "-120" /\ strconv.Itoa 0 = "0".
Proof. repeat split; vm_compute; reflexivity. Qed.

(** The legacy lockdown on the fixture, every call succeeding: each
    controller's knobs are bind-mounted before its read-only remount, and
    [cpuset], which has no whitelist, gets none. *)
Example RemountLegacyCgroupsRO_example :
  RemountLegacyCgroupsRO map_to_list Fixture.quietKernel "/rootfs"
    (<[5 := ["memory"]]> (<[2 := ["cpuset"]]> ∅)) "machine.slice/m" ["app.service"] []
  = ([MkdirAll "/rootfs/sys/fs/cgroup/memory/machine.slice/m/system.slice/app.service" 493;
      Stat "/rootfs/sys/fs/cgroup/memory/machine.slice/m/system.slice/app.service/memory.limit_in_bytes";
      bindMount "/rootfs/sys/fs/cgroup/memory/machine.slice/m/system.slice/app.service/memory.limit_in_bytes";
      Stat "/rootfs/sys/fs/cgroup/memory/machine.slice/m/system.slice/app.service/cgroup.procs";
      bindMount "/rootfs/sys/fs/cgroup/memory/machine.slice/m/system.slice/app.service/cgroup.procs";
      remountRO "/rootfs/sys/fs/cgroup/memory";
      MkdirAll "/rootfs/sys/fs/cgroup/cpuset/system.slice" 493;
      ReadFile "/rootfs/sys/fs/cgroup/cpuset/system.slice/cpuset.mems";
      ReadFile "/rootfs/sys/fs/cgroup/cpuset/cpuset.mems";
      WriteFile "/rootfs/sys/fs/cgroup/cpuset/system.slice/cpuset.mems" "" 420;
      WriteFile "/rootfs/sys/fs/cgroup/cpuset/system.slice/cpuset.mems" "" 420;
      ReadFile "/rootfs/sys/fs/cgroup/cpuset/system.slice/cpuset.cpus";
      ReadFile "/rootfs/sys/fs/cgroup/cpuset/cpuset.cpus";
      WriteFile "/rootfs/sys/fs/cgroup/cpuset/system.slice/cpuset.cpus" "" 420;
      WriteFile "/rootfs/sys/fs/cgroup/cpuset/system.slice/cpuset.cpus" "" 420;
      MkdirAll "/rootfs/sys/fs/cgroup/cpuset/machine.slice/m/system.slice/app.service" 493;
      remountRO "/rootfs/sys/fs/cgroup/cpuset";
      remountRO "/rootfs/sys"], Ok ()).
Proof. vm_compute. reflexivity. Qed.

(** * The inventory and the support test *)

Lemma word_app (bs : list Byte.byte) : bs = (fmt.word bs).1 ++ (fmt.word bs).2.
Proof.
  induction bs as [|b bs IH]; [done|]. cbn [fmt.word].
  destruct (strings.spaceWidth (b :: bs)); [|done].
  destruct (fmt.word bs) as [w rest]. cbn in *. by rewrite <- IH.
Qed.

Lemma skipSpace_no_space (bs : list Byte.byte) :
  strings.spaceWidth bs = O -> fmt.skipSpace bs = Some bs.
Proof.
  intros Hbs. unfold fmt.skipSpace.
  assert (Htrim : strings.trimWith strings.spaceWidth (List.length bs) bs = bs).
  { destruct (List.length bs); [done|]. cbn [strings.trimWith]. by rewrite Hbs. }
  by rewrite Htrim, Nat.sub_diag.
Qed.

Lemma prefix_string_of_list_byte (w rest : list Byte.byte) :
  String.prefix (string_of_list_byte w) (string_of_list_byte (w ++ rest)) = true.
Proof.
  induction w as [|b w IH].
  - cbn [app]. change (string_of_list_byte []) with EmptyString.
    by destruct (string_of_list_byte rest).
  - change (string_of_list_byte ((b :: w) ++ rest))
      with (String (ascii_of_byte b) (string_of_list_byte (w ++ rest))).
    change (string_of_list_byte (b :: w))
      with (String (ascii_of_byte b) (string_of_list_byte w)).
    cbn [String.prefix]. by destruct (ascii_dec _ _).
Qed.

Lemma Sscanf_sddd_prefix (text : string) :
  strings.spaceWidth (list_byte_of_string text) = O ->
  strings.HasPrefix text (rowName (fmt.Sscanf_sddd text)) = true.
Proof.
  intros Hno. unfold fmt.Sscanf_sddd, strings.HasPrefix.
  rewrite (skipSpace_no_space _ Hno).
  destruct (list_byte_of_string text) as [|b bs] eqn:Hbs; [by destruct text|].
  pose proof (word_app (b :: bs)) as Hword.
  destruct (fmt.word (b :: bs)) as [w bs2]. cbn [fst snd] in Hword.
  assert (Hname : String.prefix (string_of_list_byte w) text = true).
  { rewrite <- (string_of_list_byte_of_string text), Hbs, Hword.
    apply prefix_string_of_list_byte. }
  destruct (fmt.formatSpace bs2 ≫= fmt.scanInt) as [[hierarchy bs3]|]; [|done].
  destruct (fmt.formatSpace bs3 ≫= fmt.scanInt) as [[num bs4]|]; [|done].
  by destruct (fmt.formatSpace bs4 ≫= fmt.scanInt) as [[enabled bs5]|].
Qed.

(** X21: the inventory and the support test agree in one direction.  When
    [/proc/cgroups] is text of 7-bit bytes, as the kernel writes it, and no
    line of it starts with white space, every controller that
    [GetEnabledLegacyCgroups] lists in a hierarchy is reported as supported
    by [IsIsolatorSupported].  (On other bytes the scanner of the inventory
    works on runes, and a name it reads need not be the bytes of the
    line.) *)
Theorem enabled_controller_supported (Open : string -> error + File) (f : File)
    (cgroups : gmap Z (list string)) (h : Z) (cs : list string) (c : string) :
  Open "/proc/cgroups" = inr f ->
  Forall asciiText (lines f) ->
  Forall (fun text => strings.spaceWidth (list_byte_of_string text) = O) (lines f) ->
  GetEnabledLegacyCgroups Open fmt.Sscanf_sddd = Ok cgroups ->
  cgroups !! h = Some cs -> c ∈ cs ->
  IsIsolatorSupported Open c = Ok true.
Proof.
  intros Hopen _ Hlines Hget Hh Hc. unfold GetEnabledLegacyCgroups in Hget.
  rewrite Hopen in Hget.
  destruct (parseLegacyCgroups fmt.Sscanf_sddd f) as [cgroups'| |] eqn:Hparse;
    [|discriminate..].
  injection Hget as ->.
  destruct (enabled_lines _ _ _ _ _ _ Hparse Hh Hc) as (text & num & Hin & Hrow).
  assert (Hprefix : strings.HasPrefix text c = true).
  { replace c with (rowName (fmt.Sscanf_sddd text)) by (by rewrite Hrow).
    apply Sscanf_sddd_prefix. rewrite Forall_forall in Hlines. apply Hlines.
    destruct (lines f) as [|first rest]; [done | by right]. }
  unfold IsIsolatorSupported. rewrite Hopen.
  assert (Hany : anyHasPrefix (tail (lines f)) c = true)
    by (apply anyHasPrefix_spec; by exists text).
  by rewrite Hany.
Qed.

(** * The further properties on the fixtures *)

(** X1 on the fixture: three hierarchies, three directories. *)
Lemma GetLegacyControllerDirs_spec_witness :
  (forall m : gmap Z (list string), map_to_list m ≡ₚ map_to_list m)
  /\ List.length (GetLegacyControllerDirs map_to_list Fixture.enabledCgroups)
     = size Fixture.enabledCgroups.
Proof.
  assert (Hrange : forall m : gmap Z (list string), map_to_list m ≡ₚ map_to_list m)
    by (intros m; reflexivity).
  split; [exact Hrange|].
  exact (proj2 (GetLegacyControllerDirs_spec map_to_list Hrange Fixture.enabledCgroups)).
Defined.

(** X2 on the fixture: the link [cpu] of the hierarchy of [cpu] and
    [cpuacct]. *)
Lemma getLegacyControllerSymlinks_sound_witness :
  (forall m : gmap Z (list string), map_to_list m ≡ₚ map_to_list m)
  /\ getLegacyControllerSymlinks map_to_list Fixture.enabledCgroups !! "cpu"
     = Some "cpu,cpuacct"
  /\ "cpu,cpuacct" ∈ GetLegacyControllerDirs map_to_list Fixture.enabledCgroups.
Proof.
  assert (Hrange : forall m : gmap Z (list string), map_to_list m ≡ₚ map_to_list m)
    by (intros m; reflexivity).
  assert (Hlink : getLegacyControllerSymlinks map_to_list Fixture.enabledCgroups !! "cpu"
                  = Some "cpu,cpuacct") by (vm_compute; reflexivity).
  split; [exact Hrange|]. split; [exact Hlink|].
  exact (proj1 (proj2 (getLegacyControllerSymlinks_sound map_to_list Hrange
                         Fixture.enabledCgroups "cpu" "cpu,cpuacct" Hlink))).
Defined.

(** X3 on the fixture: [cpuacct] is listed by hierarchy 3 only. *)
Lemma getLegacyControllerSymlinks_complete_witness :
  (forall m : gmap Z (list string), map_to_list m ≡ₚ map_to_list m)
  /\ Fixture.enabledCgroups !! 3 = Some ["cpu"; "cpuacct"]
  /\ (forall h' cs', Fixture.enabledCgroups !! h' = Some cs' -> "cpuacct" ∈ cs' -> h' = 3)
  /\ getLegacyControllerSymlinks map_to_list Fixture.enabledCgroups !! "cpuacct"
     = if decide ("cpuacct" ∈ ["cpu"; "cpuacct"] /\ (1 < List.length ["cpu"; "cpuacct"])%nat)
       then Some (strings.Join ["cpu"; "cpuacct"] ",") else None.
Proof.
  assert (Hrange : forall m : gmap Z (list string), map_to_list m ≡ₚ map_to_list m)
    by (intros m; reflexivity).
  assert (Hthree : Fixture.enabledCgroups !! 3 = Some ["cpu"; "cpuacct"]) by reflexivity.
  assert (Honly : forall h' cs', Fixture.enabledCgroups !! h' = Some cs' ->
                                 "cpuacct" ∈ cs' -> h' = 3).
  { intros h' cs'. unfold Fixture.enabledCgroups. intros Hl Hin.
    apply lookup_insert_Some in Hl as [[<- <-] | [_ Hl]].
    { apply list_elem_of_singleton in Hin. discriminate Hin. }
    apply lookup_insert_Some in Hl as [[<- <-] | [_ Hl]]; [reflexivity|].
    apply lookup_insert_Some in Hl as [[<- <-] | [_ Hl]].
    { apply list_elem_of_singleton in Hin. discriminate Hin. }
    rewrite lookup_empty in Hl. discriminate Hl. }
  split; [exact Hrange|]. split; [exact Hthree|]. split; [exact Honly|].
  exact (getLegacyControllerSymlinks_complete map_to_list Hrange Fixture.enabledCgroups
           3 ["cpu"; "cpuacct"] "cpuacct" Hthree Honly).
Defined.

(** X5 on the fixture: [cpuset] is listed, so [cpus], no controller, is
    reported as supported. *)
Lemma IsIsolatorSupported_prefix_witness :
  IsIsolatorSupported Fixture.Open "cpuset" = Ok true
  /\ strings.HasPrefix "cpuset" "cpus" = true
  /\ IsIsolatorSupported Fixture.Open "cpus" = Ok true.
Proof.
  assert (Hset : IsIsolatorSupported Fixture.Open "cpuset" = Ok true) by reflexivity.
  assert (Hpre : strings.HasPrefix "cpuset" "cpus" = true) by reflexivity.
  split; [exact Hset|]. split; [exact Hpre|].
  exact (IsIsolatorSupported_prefix Fixture.Open "cpuset" "cpus" Hset Hpre).
Defined.

(** X6 on the fixture: a memory limit adds one option after the one
    given. *)
Lemma MaybeAddIsolator_extends_witness :
  let slice := unit.NewUnitOption "Service" "Slice" "machine.slice" in
  let limit := unit.NewUnitOption "Service" "MemoryLimit" "134217728" in
  MaybeAddIsolator Fixture.Open [slice] "memory" (Some {| resource.milli := 134217728000 |})
  = ([], Ok [slice; limit])
  /\ ([slice; limit] = [slice]
      \/ (exists value, [slice; limit]
                        = [slice] ++ [unit.NewUnitOption "Service" "CPUQuota" value]
                        /\ "memory" = "cpu")
      \/ (exists value, [slice; limit]
                        = [slice] ++ [unit.NewUnitOption "Service" "MemoryLimit" value]
                        /\ "memory" = "memory")).
Proof.
  intros slice limit.
  assert (Hrun : MaybeAddIsolator Fixture.Open [slice] "memory"
                   (Some {| resource.milli := 134217728000 |})
                 = ([], Ok [slice; limit])) by reflexivity.
  split; [exact Hrun|].
  exact (MaybeAddIsolator_extends Fixture.Open [slice] [slice; limit] "memory"
           (Some {| resource.milli := 134217728000 |}) [] Hrun).
Defined.

(** X7 on the directory of the hierarchy of [cpuacct] and [cpu]: the
    whitelist is that of [cpu]. *)
Lemma getLegacyControllerRWFiles_Join_witness :
  Forall (fun c => mentions c ","%char = false) ["cpuacct"; "cpu"]
  /\ getLegacyControllerRWFiles "cpuacct,cpu" = ["cpu.cfs_quota_us"; "cgroup.procs"].
Proof.
  assert (Hnames : Forall (fun c => mentions c ","%char = false) ["cpuacct"; "cpu"])
    by (repeat constructor).
  split; [exact Hnames|].
  exact (getLegacyControllerRWFiles_Join ["cpuacct"; "cpu"] Hnames).
Defined.

(** X8 on the fixture: the row of [freezer], which is disabled. *)
Lemma parseLegacyCgroups_skips_line_witness :
  let first := "#subsys_name" +:+ tab +:+ "hierarchy" +:+ tab +:+ "num_cgroups"
               +:+ tab +:+ "enabled" in
  let before := [Fixture.row "cpuset" 2 4 1; Fixture.row "cpu" 3 60 1;
                 Fixture.row "cpuacct" 3 60 1; Fixture.row "memory" 5 112 1;
                 Fixture.row "devices" 6 60 1] in
  lines Fixture.procCgroups = first :: before ++ Fixture.row "freezer" 7 4 0 :: []
  /\ rowEnabled (fmt.Sscanf_sddd (Fixture.row "freezer" 7 4 0)) <> 1
  /\ parseLegacyCgroups fmt.Sscanf_sddd Fixture.procCgroups
     = parseLegacyCgroups fmt.Sscanf_sddd
         {| lines := first :: before ++ []; readErr := readErr Fixture.procCgroups |}.
Proof.
  intros first before.
  assert (Hlines : lines Fixture.procCgroups
                   = first :: before ++ Fixture.row "freezer" 7 4 0 :: []) by reflexivity.
  assert (Hoff : rowEnabled (fmt.Sscanf_sddd (Fixture.row "freezer" 7 4 0)) <> 1)
    by (vm_compute; discriminate).
  split; [exact Hlines|]. split; [exact Hoff|].
  exact (parseLegacyCgroups_skips_line fmt.Sscanf_sddd Fixture.procCgroups first
           (Fixture.row "freezer" 7 4 0) before [] Hlines Hoff).
Defined.

(** X9 on a host of the unified hierarchy: the line [0::/machine.slice/...]
    has an empty second field. *)
Lemma parseProcCgroupInfo_fields_witness :
  Samples.Open "/proc/self/cgroup" = inr Samples.procSelfCgroup
  /\ GetOwnCgroupPath Samples.Open = Ok "/machine.slice/machine-rkt.scope".
Proof.
  assert (Hopen : Samples.Open "/proc/self/cgroup" = inr Samples.procSelfCgroup)
    by reflexivity.
  split; [exact Hopen|].
  apply (proj1 (parseProcCgroupInfo_fields Samples.Open "/proc/self/cgroup"
                  Samples.procSelfCgroup Hopen)).
  exists "0", "". by repeat split.
Defined.

(** X10 on the fixture: the line of [memory]. *)
Lemma GetLegacyCgroupPathByPid_sound_witness :
  GetLegacyCgroupPathByPid Fixture.Open 4242 "memory" = Ok "/machine-slice/app1"
  /\ exists cg before text after id ctrls,
       Fixture.Open ("/proc/" +:+ strconv.Itoa 4242 +:+ "/cgroup") = inr cg
       /\ lines cg = before ++ text :: after
       /\ Forall (skipped "memory") before
       /\ threeFields text id ctrls "/machine-slice/app1"
       /\ "memory" ∈ strings.Split ctrls ","%char.
Proof.
  assert (Hpath : GetLegacyCgroupPathByPid Fixture.Open 4242 "memory"
                  = Ok "/machine-slice/app1") by reflexivity.
  split; [exact Hpath|].
  exact (GetLegacyCgroupPathByPid_sound Fixture.Open 4242 "memory"
           "/machine-slice/app1" Hpath).
Defined.

(** X11 on a file with a line cut short: the line of [memory] that follows
    it is not reached. *)
Lemma GetLegacyCgroupPathByPid_errors_witness :
  Samples.Open ("/proc/" +:+ strconv.Itoa 4242 +:+ "/cgroup") = inr Samples.cutShort
  /\ Forall (skipped "memory") ["11:devices:/machine-slice/app1"]
  /\ GetLegacyCgroupPathByPid Samples.Open 4242 "memory"
     = Err (Errorf "error parsing /proc/self/cgroup" []).
Proof.
  assert (Hopen : Samples.Open ("/proc/" +:+ strconv.Itoa 4242 +:+ "/cgroup")
                  = inr Samples.cutShort) by reflexivity.
  assert (Hbefore : Forall (skipped "memory") ["11:devices:/machine-slice/app1"]).
  { constructor; [|constructor]. exists "11", "devices", "/machine-slice/app1".
    split; [by repeat split|]. intros Hin. apply list_elem_of_singleton in Hin.
    discriminate Hin. }
  split; [exact Hopen|]. split; [exact Hbefore|].
  apply (proj1 (GetLegacyCgroupPathByPid_errors Samples.Open 4242 "memory"
                  Samples.cutShort _ Hopen Hbefore)
           "4:mem" ["4:memory:/machine-slice/app1"]); [reflexivity|].
  apply Nat.ltb_lt. reflexivity.
Defined.

(** X13 on a host of the unified hierarchy. *)
Lemma GetEnabledControllers_fields_witness :
  GetEnabledControllers Samples.Open (fun _ => false) = Ok ["cpu"; "io"; "memory"; "pids"]
  /\ exists f, Samples.Open "/sys/fs/cgroup/cgroup.controllers" = inr f
               /\ strings.Join ["cpu"; "io"; "memory"; "pids"] " " = firstText f
               /\ Forall (fun c => mentions c " "%char = false) ["cpu"; "io"; "memory"; "pids"]
               /\ List.length ["cpu"; "io"; "memory"; "pids"]
                  = S (occurrences (firstText f) " "%char)
               /\ (firstText f = "" -> ["cpu"; "io"; "memory"; "pids"] = [""]).
Proof.
  assert (Hget : GetEnabledControllers Samples.Open (fun _ => false)
                 = Ok ["cpu"; "io"; "memory"; "pids"]) by reflexivity.
  split; [exact Hget|].
  exact (GetEnabledControllers_fields Samples.Open (fun _ => false) _ Hget).
Defined.

(** X14 on the fixture, under a kernel where every call succeeds: six
    mounts for three hierarchies. *)
Lemma CreateLegacyCgroups_mounts_witness :
  (forall m : gmap Z (list string), map_to_list m ≡ₚ map_to_list m)
  /\ exists d r,
       CreateLegacyCgroups map_to_list Fixture.quietKernel map_to_list "/rootfs"
         Fixture.enabledCgroups "" [] = ([] ++ d, r)
       /\ (r = Ok () -> List.length (List.filter isMount d) = 6%nat).
Proof.
  assert (Hrange : forall m : gmap Z (list string), map_to_list m ≡ₚ map_to_list m)
    by (intros m; reflexivity).
  split; [exact Hrange|].
  destruct (CreateLegacyCgroups_mounts map_to_list Hrange Fixture.quietKernel map_to_list
              "/rootfs" Fixture.enabledCgroups "" [])
    as (d & r & Hrun & _ & Hok).
  exists d, r. split; [exact Hrun|]. intros Hr. exact (proj2 (Hok Hr)).
Defined.

(** X15 on the fixture, the links being visited as the entries of the
    map. *)
Lemma CreateLegacyCgroups_symlinks_witness :
  (forall m : gmap Z (list string), map_to_list m ≡ₚ map_to_list m)
  /\ (forall (m : gmap string string) ln tgt,
         (ln, tgt) ∈ map_to_list m -> m !! ln = Some tgt)
  /\ exists d r,
       CreateLegacyCgroups map_to_list Fixture.quietKernel map_to_list "/rootfs"
         Fixture.enabledCgroups "" [] = ([] ++ d, r)
       /\ forall l1 tgt lnPath l2,
            d = l1 ++ Symlink tgt lnPath :: l2 -> cgroupMount "/rootfs" tgt ∈ l1.
Proof.
  assert (Hrange : forall m : gmap Z (list string), map_to_list m ≡ₚ map_to_list m)
    by (intros m; reflexivity).
  assert (Hlinks : forall (m : gmap string string) ln tgt,
             (ln, tgt) ∈ map_to_list m -> m !! ln = Some tgt)
    by (intros m ln tgt Hin; by apply elem_of_map_to_list).
  split; [exact Hrange|]. split; [exact Hlinks|].
  destruct (CreateLegacyCgroups_symlinks map_to_list Hrange Fixture.quietKernel map_to_list
              "/rootfs" Fixture.enabledCgroups "" [] Hlinks)
    as (d & r & Hrun & Hsym).
  exists d, r. split; [exact Hrun|].
  intros l1 tgt lnPath l2 Heq. exact (proj1 (Hsym l1 tgt lnPath l2 Heq)).
Defined.

(** X21 on the fixture: [memory] is listed in hierarchy 5. *)
Lemma enabled_controller_supported_witness :
  let cgroups := scanLegacyCgroups fmt.Sscanf_sddd (tail (lines Fixture.procCgroups)) ∅ in
  Fixture.Open "/proc/cgroups" = inr Fixture.procCgroups
  /\ Forall asciiText (lines Fixture.procCgroups)
  /\ Forall (fun text => strings.spaceWidth (list_byte_of_string text) = O)
            (lines Fixture.procCgroups)
  /\ GetEnabledLegacyCgroups Fixture.Open fmt.Sscanf_sddd = Ok cgroups
  /\ cgroups !! 5 = Some ["memory"]
  /\ IsIsolatorSupported Fixture.Open "memory" = Ok true.
Proof.
  intros cgroups.
  assert (Hopen : Fixture.Open "/proc/cgroups" = inr Fixture.procCgroups) by reflexivity.
  assert (Hascii : Forall asciiText (lines Fixture.procCgroups))
    by (repeat constructor).
  assert (Hlines : Forall (fun text => strings.spaceWidth (list_byte_of_string text) = O)
                          (lines Fixture.procCgroups)) by (repeat constructor).
  assert (Hget : GetEnabledLegacyCgroups Fixture.Open fmt.Sscanf_sddd = Ok cgroups)
    by reflexivity.
  assert (Hfive : cgroups !! 5 = Some ["memory"]) by (vm_compute; reflexivity).
  assert (Hin : "memory" ∈ ["memory"]) by left.
  split; [exact Hopen|]. split; [exact Hascii|]. split; [exact Hlines|].
  split; [exact Hget|]. split; [exact Hfive|].
  exact (enabled_controller_supported Fixture.Open Fixture.procCgroups cgroups 5
           ["memory"] "memory" Hopen Hascii Hlines Hget Hfive Hin).
Defined.


(** The conditions on the names are needed.  With a subcgroup that steps up
    and into the directory of another controller, a knob of [cpu] is looked
    for inside the directory of [memory], and bind-mounted there after the
    read-only remount of that directory. *)
Example RemountLegacyCgroupsRO_stepping_up_example :
  let run := RemountLegacyCgroupsRO map_to_list Fixture.quietKernel "/rootfs"
               (<[3 := ["cpu"]]> (<[5 := ["memory"]]> ∅)) "../memory/m"
               ["app.service"] [] in
  let q := "/rootfs/sys/fs/cgroup/memory/m/system.slice/app.service/cpu.cfs_quota_us" in
  run.2 = Ok ()
  /\ ~ descending "../memory/m"
  /\ q = rwFilePath "/rootfs" "../memory/m" "cpu" "app.service" "cpu.cfs_quota_us"
  /\ (exists l1 l2,
         run.1 = l1 ++ remountRO "/rootfs/sys/fs/cgroup/memory" :: l2
         /\ bindMount q ∈ l2)
  /\ inside "/rootfs/sys/fs/cgroup/memory" q.
Proof.
  cbv zeta. split; [vm_compute; reflexivity|]. split; [|split; [|split]].
  - unfold descending.
    change (strings.Split "../memory/m" "/"%char) with [".."; "memory"; "m"].
    intros Hall. apply Forall_cons in Hall as [Hup _]. by apply Hup.
  - vm_compute. reflexivity.
  - set (trace := (RemountLegacyCgroupsRO map_to_list Fixture.quietKernel "/rootfs"
                     (<[3 := ["cpu"]]> (<[5 := ["memory"]]> ∅)) "../memory/m"
                     ["app.service"] []).1).
    exists (take 5 trace), (drop 6 trace). split; [vm_compute; reflexivity|].
    apply list_elem_of_In. vm_compute. auto 10.
  - exists ["cpu.cfs_quota_us"; "app.service"; "system.slice"; "m"].
    vm_compute. reflexivity.
Qed.
